(** * Terminal control bridge: output parser, lock manager, session registry

    A shallow embedding of [src/tmux/parser.ts] and [src/tmux/bridge.ts].

    Conventions of the embedding.
    - A JavaScript string is the list of its UTF-16 code units ([list N]);
      [length], [slice], [lastIndexOf] and the regular expressions of the
      source (none of which carries the [u] flag) all work on code units.
    - JavaScript numbers that occur here are integers and are modelled in [Z];
      [lastIndexOf] returns [-1] when nothing is found, as in the source.
    - Every method that reads the clock takes the reading as an argument
      [now] (milliseconds since the epoch): one reading per method call.
    - [Record<string, T>] objects loaded from and stored to the JSON files
      are finite maps keyed by the session name; reading and writing the
      files does not fail.
    - What the bridge gets from outside (the exit status and output of each
      tmux command, the behaviour of the status callback, the abort signal)
      is an explicit input. A method runs from start to end; what other
      callers of the bridge do while [sendMessage] waits at an [await] is
      an input of [sendMessageAmid].
    - [parser.ts] writes the glyphs of the terminal as single code units;
      [bridge.ts] writes its marks as strings of three code units each
      (and the texts of [getSessionSummary] accordingly): the embedding
      has the code units of each file as the file has them. *)

From Stdlib Require Import ZArith NArith List Bool Lia String Ascii DecimalString.
From stdpp Require Import base option list gmap.
Import ListNotations.

Local Open Scope Z_scope.

(** ** JavaScript strings as code-unit lists *)

Abbreviation jsstring := (list N).

Module Js.

(** An ASCII literal of the source, as code units. *)
Definition lit (s : string) : jsstring :=
  List.map N_of_ascii (list_ascii_of_string s).

Definition len (s : jsstring) : Z := Z.of_nat (length s).

(** [String(n)] for an integer [n]. *)
Definition ofNumber (n : Z) : jsstring :=
  lit (NilZero.string_of_int (Z.to_int n)).

(** Truthiness of a string: non-empty. *)
Definition truthy (s : jsstring) : bool :=
  match s with [] => false | _ :: _ => true end.

Fixpoint eqb (a b : jsstring) : bool :=
  match a, b with
  | [], [] => true
  | x :: a', y :: b' => N.eqb x y && eqb a' b'
  | _, _ => false
  end.

(** LineTerminator of ECMAScript: LF, CR, LS, PS. *)
Definition isLineTerminator (c : N) : bool :=
  (N.eqb c 0x0A || N.eqb c 0x0D || N.eqb c 0x2028 || N.eqb c 0x2029)%bool.

(** The class [\s], which is also what [trim] removes:
    WhiteSpace and LineTerminator of ECMAScript. *)
Definition isSpace (c : N) : bool :=
  ((N.leb 0x09 c && N.leb c 0x0D) || N.eqb c 0x20 || N.eqb c 0xA0
   || N.eqb c 0x1680 || (N.leb 0x2000 c && N.leb c 0x200A)
   || N.eqb c 0x2028 || N.eqb c 0x2029 || N.eqb c 0x202F
   || N.eqb c 0x205F || N.eqb c 0x3000 || N.eqb c 0xFEFF)%bool.

Definition isDigit (c : N) : bool := (N.leb 0x30 c && N.leb c 0x39)%bool.
Definition isUpper (c : N) : bool := (N.leb 0x41 c && N.leb c 0x5A)%bool.
Definition isLower (c : N) : bool := (N.leb 0x61 c && N.leb c 0x7A)%bool.

(** The class [\w]. *)
Definition isWord (c : N) : bool :=
  (isUpper c || isLower c || isDigit c || N.eqb c 0x5F)%bool.

(** Canonicalisation used by the [i] flag without the [u] flag; on the
    ASCII letters of our patterns only [a-z] are folded onto [A-Z]. *)
Definition canon (c : N) : N := if isLower c then (c - 0x20)%N else c.

Fixpoint dropWhile (p : N -> bool) (s : jsstring) : jsstring :=
  match s with
  | [] => []
  | c :: s' => if p c then dropWhile p s' else s
  end.

Fixpoint takeWhile (p : N -> bool) (s : jsstring) : jsstring :=
  match s with
  | [] => []
  | c :: s' => if p c then c :: takeWhile p s' else []
  end.

Definition trimStart (s : jsstring) : jsstring := dropWhile isSpace s.
Definition trimEnd (s : jsstring) : jsstring := rev (dropWhile isSpace (rev s)).
Definition trim (s : jsstring) : jsstring := trimEnd (trimStart s).

(** [s.split(sep)] for a one-unit separator. *)
Fixpoint split (sep : N) (s : jsstring) : list jsstring :=
  match s with
  | [] => [[]]
  | c :: s' =>
      if N.eqb c sep then [] :: split sep s'
      else match split sep s' with
           | l :: ls => (c :: l) :: ls
           | [] => [[c]]
           end
  end.

(** [parts.join(sep)]. *)
Fixpoint join (sep : jsstring) (parts : list jsstring) : jsstring :=
  match parts with
  | [] => []
  | [p] => p
  | p :: ps => p ++ sep ++ join sep ps
  end.

(** [x.slice(start)] on strings and arrays, negative [start] counting
    from the end. *)
Definition slice {A} (start : Z) (s : list A) : list A :=
  let n := Z.of_nat (length s) in
  let from := if start <? 0 then Z.max (n + start) 0 else Z.min start n in
  drop (Z.to_nat from) s.

Fixpoint startsWith (sub s : jsstring) : bool :=
  match sub, s with
  | [], _ => true
  | x :: sub', y :: s' => N.eqb x y && startsWith sub' s'
  | _ :: _, [] => false
  end.

(** Scan left to right, remembering the last position where [sub] starts. *)
Fixpoint lastIndexOfFrom (i : Z) (sub s : jsstring) (found : Z) : Z :=
  let found' := if startsWith sub s then i else found in
  match s with
  | [] => found'
  | _ :: s' => lastIndexOfFrom (i + 1) sub s' found'
  end.

(** [s.lastIndexOf(sub)]. *)
Definition lastIndexOf (s sub : jsstring) : Z := lastIndexOfFrom 0 sub s (-1).

(** [s.includes(sub)]. *)
Fixpoint includes (s sub : jsstring) : bool :=
  (startsWith sub s
   || match s with [] => false | _ :: s' => includes s' sub end)%bool.

End Js.

(** ** A backtracking matcher for the regular expressions of the source

    The quantifiers of [PATTERNS] only ever repeat a single character
    class, so [Star] takes a class.  Alternatives and repetitions are
    tried in the priority order of ECMAScript (left alternative first,
    greedy repetition), and the continuation decides whether the rest of
    the pattern succeeds. *)

Module Re.

Inductive re : Type :=
| Eps
| Bol (multiline : bool)          (* ^ *)
| Eol (multiline : bool)          (* $ *)
| Cls (p : N -> bool)             (* one code unit in a class *)
| Star (p : N -> bool)            (* [class]* *)
| Seq (a b : re)
| Alt (a b : re).

Definition atBol (multiline : bool) (prev : option N) : bool :=
  match prev with
  | None => true
  | Some c => multiline && Js.isLineTerminator c
  end.

Definition atEol (multiline : bool) (s : jsstring) : bool :=
  match s with
  | [] => true
  | c :: _ => multiline && Js.isLineTerminator c
  end.

Section Matcher.
Context {A : Type}.

(** A continuation sees the unit before the position and the rest. *)
Definition cont := option N -> jsstring -> option A.

Fixpoint star (p : N -> bool) (k : cont) (prev : option N) (s : jsstring)
  : option A :=
  match s with
  | c :: s' =>
      if p c then
        match star p k (Some c) s' with
        | Some r => Some r
        | None => k prev s
        end
      else k prev s
  | [] => k prev s
  end.

Fixpoint run (r : re) (k : cont) (prev : option N) (s : jsstring)
  : option A :=
  match r with
  | Eps => k prev s
  | Bol ml => if atBol ml prev then k prev s else None
  | Eol ml => if atEol ml s then k prev s else None
  | Cls p =>
      match s with
      | c :: s' => if p c then k (Some c) s' else None
      | [] => None
      end
  | Star p => star p k prev s
  | Seq a b => run a (run b k) prev s
  | Alt a b =>
      match run a k prev s with
      | Some x => Some x
      | None => run b k prev s
      end
  end.

(** Leftmost match: try every start position in turn. *)
Fixpoint search (r : re) (k : cont) (prev : option N) (s : jsstring)
  : option A :=
  match run r k prev s with
  | Some x => Some x
  | None =>
      match s with
      | c :: s' => search r k (Some c) s'
      | [] => None
      end
  end.
End Matcher.

(** [r.test(s)] for a regular expression without the [g] flag. *)
Definition test (r : re) (s : jsstring) : bool :=
  match search r (fun _ _ => Some tt) None s with
  | Some _ => true
  | None => false
  end.

(** Derived forms. *)
Definition chr (c : N) : re := Cls (N.eqb c).
Definition plus (p : N -> bool) : re := Seq (Cls p) (Star p).
Definition opt (r : re) : re := Alt r Eps.
Definition oneOf (cs : list N) : N -> bool := fun c => existsb (N.eqb c) cs.

Fixpoint units (cs : jsstring) : re :=
  match cs with
  | [] => Eps
  | c :: cs' => Seq (chr c) (units cs')
  end.

(** A literal ASCII word of a pattern. *)
Definition word (s : string) : re := units (Js.lit s).

(** The same under the [i] flag. *)
Fixpoint unitsCI (cs : jsstring) : re :=
  match cs with
  | [] => Eps
  | c :: cs' => Seq (Cls (fun x => N.eqb (Js.canon x) (Js.canon c))) (unitsCI cs')
  end.
Definition wordCI (s : string) : re := unitsCI (Js.lit s).

Fixpoint alts (rs : list re) : re :=
  match rs with
  | [] => Cls (fun _ => false)
  | [r] => r
  | r :: rs' => Alt r (alts rs')
  end.

(** [class{n,}] *)
Fixpoint atLeast (n : nat) (p : N -> bool) : re :=
  match n with
  | O => Star p
  | S n' => Seq (Cls p) (atLeast n' p)
  end.

(** [.] : any unit except a line terminator. *)
Definition dot : N -> bool := fun c => negb (Js.isLineTerminator c).

Fixpoint seqs (rs : list re) : re :=
  match rs with
  | [] => Eps
  | [r] => r
  | r :: rs' => Seq r (seqs rs')
  end.

End Re.

(** ** PATTERNS ([parser.ts], lines 19-97) *)

Module PATTERNS.
Import Re.

(** Code units of the glyphs of the Claude Code TUI. *)
Definition PROMPT_GLYPH : N := 0x276F.      (* U+276F, the input prompt *)
Definition RESPONSE_GLYPH : N := 0x23FA.    (* U+23FA, the response marker *)
Definition PROCESSING_GLYPH : N := 0x273D.  (* U+273D, the spinner *)

(** [/^\u276F\s*$/m] *)
Definition PROMPT : re :=
  seqs [Bol true; chr PROMPT_GLYPH; Star Js.isSpace; Eol true].

(** [/^\u276F/m] *)
Definition PROMPT_RELAXED : re := seqs [Bol true; chr PROMPT_GLYPH].

(** [/^\u276F\s+.+/m] *)
Definition USER_INPUT : re :=
  seqs [Bol true; chr PROMPT_GLYPH; plus Js.isSpace; plus dot].

(** [/^\u23FA\s+(.+)/m], up to the capture group; the group [(.+)] is
    taken by the continuation in [matchRESPONSE]. *)
Definition RESPONSE_head : re :=
  seqs [Bol true; chr RESPONSE_GLYPH; plus Js.isSpace].

(** [line.match(PATTERNS.RESPONSE)]: [None] for no match, otherwise the
    text of group 1, the longest run of non-terminators after the head. *)
Definition matchRESPONSE (line : jsstring) : option jsstring :=
  search RESPONSE_head
    (fun _ rest =>
       match rest with
       | c :: _ => if dot c then Some (Js.takeWhile dot rest) else None
       | [] => None
       end)
    None line.

(** [/^\u273D\s+.+/m] *)
Definition PROCESSING : re :=
  seqs [Bol true; chr PROCESSING_GLYPH; plus Js.isSpace; plus dot].

(** [/^[...]\s*\w+/m]: without the [u] flag the class holds the single
    code units of its members, i.e. the surrogate halves of U+1F527,
    U+1F4C1, U+1F4DD, U+1F4BB, U+1F50D, U+1F310, and U+26A1. *)
Definition TOOL_START : re :=
  seqs [Bol true;
        Cls (oneOf [0xD83D; 0xDD27; 0xD83D; 0xDCC1; 0xD83D; 0xDCDD; 0xD83D;
                    0xDCBB; 0xD83D; 0xDD0D; 0xD83C; 0xDF10; 0x26A1]%N);
        Star Js.isSpace; plus Js.isWord].

(** The tool glyphs U+25CF, U+25CB, U+25C9, U+25D0. *)
Definition toolGlyph : N -> bool := oneOf [0x25CF; 0x25CB; 0x25C9; 0x25D0]%N.

(** [/^[glyph]\s*(Read|Write|...|AskUserQuestion)/m] *)
Definition CLAUDE_TOOL : re :=
  seqs [Bol true; Cls toolGlyph; Star Js.isSpace;
        alts [word "Read"; word "Write"; word "Edit"; word "Bash";
              word "Glob"; word "Grep"; word "WebFetch"; word "WebSearch";
              word "Task"; word "TodoWrite"; word "NotebookEdit";
              word "AskUserQuestion"]].

(** U+2502, U+2514, U+251C, U+2500, U+252C, U+2534, U+253C. *)
Definition treeChar : N -> bool :=
  oneOf [0x2502; 0x2514; 0x251C; 0x2500; 0x252C; 0x2534; 0x253C]%N.

(** [/^[\s...]+/] *)
Definition TOOL_OUTPUT : re :=
  seqs [Bol false; plus (fun c => Js.isSpace c || treeChar c)%bool].

(** [/^\u2026\s*\+?\d+\s*lines?/] *)
Definition COLLAPSED : re :=
  seqs [Bol false; chr 0x2026; Star Js.isSpace; opt (chr 0x2B);
        plus Js.isDigit; Star Js.isSpace; word "line"; opt (chr 0x73)].

(** [/^(Running|Executing|Reading|Writing|Searching)/m] *)
Definition TOOL_RUNNING : re :=
  seqs [Bol true;
        alts [word "Running"; word "Executing"; word "Reading";
              word "Writing"; word "Searching"]].

(** The warning sign of the source is U+26A0 followed by U+FE0F. *)
Definition WARNING_SIGN : jsstring := [0x26A0; 0xFE0F]%N.

(** [/^(Done|U+2713|U+2705|Error:|U+26A0 U+FE0F|U+274C|Failed:)/m] *)
Definition TOOL_END : re :=
  seqs [Bol true;
        alts [word "Done"; chr 0x2713; chr 0x2705; word "Error:";
              units WARNING_SIGN; chr 0x274C; word "Failed:"]].

(** [/^(Error:|U+274C|Failed:|U+26A0 U+FE0F\s*Error)/m] *)
Definition ERROR : re :=
  seqs [Bol true;
        alts [word "Error:"; chr 0x274C; word "Failed:";
              seqs [units WARNING_SIGN; Star Js.isSpace; word "Error"]]].

(** [/\x1B(?:[@-Z\\-_]|\[[0-?]*[ -/]*[@-~])/g] *)
Definition ANSI : re :=
  Seq (chr 0x1B)
      (Alt (Cls (fun c => (N.leb 0x40 c && N.leb c 0x5A)
                          || (N.leb 0x5C c && N.leb c 0x5F))%bool)
           (seqs [chr 0x5B;
                  Star (fun c => N.leb 0x30 c && N.leb c 0x3F)%bool;
                  Star (fun c => N.leb 0x20 c && N.leb c 0x2F)%bool;
                  Cls (fun c => N.leb 0x40 c && N.leb c 0x7E)%bool])).

(** [/^(Usage:|Tokens:|Cost:)/m] *)
Definition USAGE : re :=
  seqs [Bol true; alts [word "Usage:"; word "Tokens:"; word "Cost:"]].

(** [/^[U+2500 U+2501 U+2550]{5,}/m] *)
Definition SEPARATOR : re :=
  seqs [Bol true; atLeast 5 (oneOf [0x2500; 0x2501; 0x2550]%N)].

(** The box-drawing units of [TABLE_BORDER] and [BOX_CHARS]. *)
Definition boxChar : N -> bool :=
  oneOf [0x2502; 0x251C; 0x2524; 0x252C; 0x2534; 0x253C; 0x250C; 0x2510;
         0x2514; 0x2518; 0x2500; 0x2501; 0x2550]%N.

(** [/^[box\s]+$/] *)
Definition TABLE_BORDER : re :=
  seqs [Bol false; plus (fun c => boxChar c || Js.isSpace c)%bool; Eol false].

(** [/^(U+2590|U+259D|U+259C|U+259B|U+2598|U+2588|U+2591|U+2592|U+2593|U+00B7\s|U+2722)/] *)
Definition UI_CHROME : re :=
  seqs [Bol false;
        alts [chr 0x2590; chr 0x259D; chr 0x259C; chr 0x259B; chr 0x2598;
              chr 0x2588; chr 0x2591; chr 0x2592; chr 0x2593;
              Seq (chr 0xB7) (Cls Js.isSpace); chr 0x2722]].

(** [/[box]/g]; every [test] of the source starts at [lastIndex = 0],
    because the [replace] that follows a successful [test] resets it. *)
Definition BOX_CHARS : re := Cls boxChar.

(** [/^(Do you want to|Allow|Approve|Confirm|Accept|Would you like to)/i] *)
Definition PERMISSION_PROMPT : re :=
  seqs [Bol false;
        alts [wordCI "Do you want to"; wordCI "Allow"; wordCI "Approve";
              wordCI "Confirm"; wordCI "Accept"; wordCI "Would you like to"]].

(** [/^Edit\s+(file\s+)?[\w\/\.\-]+/] *)
Definition EDIT_FILE : re :=
  seqs [Bol false; word "Edit"; plus Js.isSpace;
        opt (Seq (word "file") (plus Js.isSpace));
        plus (fun c => Js.isWord c || N.eqb c 0x2F || N.eqb c 0x2E
                       || N.eqb c 0x2D)%bool].

(** [/^\d+\s*[+\-]/] *)
Definition DIFF_LINE : re :=
  seqs [Bol false; plus Js.isDigit; Star Js.isSpace;
        Cls (oneOf [0x2B; 0x2D]%N)].

(** [/^\s*[>\s]*\d+\.\s+/] *)
Definition MENU_OPTION : re :=
  seqs [Bol false; Star Js.isSpace;
        Star (fun c => N.eqb c 0x3E || Js.isSpace c)%bool;
        plus Js.isDigit; chr 0x2E; plus Js.isSpace].

End PATTERNS.

(** ** Output sanitizer ([stripAnsi], [cleanOutput]) *)

Module Sanitizer.
Import Re PATTERNS.

(** [text.replace(PATTERNS.ANSI, empty)]: at each position outside a match
    the pattern is tried; a match of [n] units is dropped ([skip] counts
    the units of the current match still to be dropped). *)
Fixpoint stripAnsiFrom (skip : nat) (s : jsstring) : jsstring :=
  match s with
  | [] => []
  | c :: s' =>
      match skip with
      | S n => stripAnsiFrom n s'
      | O =>
          match run ANSI (fun _ rest => Some rest) None s with
          | Some rest => stripAnsiFrom (length s - length rest - 1) s'
          | None => c :: stripAnsiFrom 0 s'
          end
      end
  end.

Definition stripAnsi (text : jsstring) : jsstring := stripAnsiFrom 0 text.

(** One line of [cleanOutput]: the part after the last carriage return. *)
Definition afterLastCR (line : jsstring) : jsstring :=
  if Js.includes line [0x0D]%N
  then List.last (Js.split 0x0D line) []
  else line.

Definition cleanOutput (text : jsstring) : jsstring :=
  let cleaned := stripAnsi text in
  let lines := Js.split 0x0A cleaned in
  Js.join [0x0A]%N (List.map afterLastCR lines).

End Sanitizer.

(** ** Streaming output parser ([TerminalOutputParser]) *)

Module Parser.
Import Re PATTERNS.

Inductive ParseState : Type :=
| IDLE | THINKING | TOOL_USE | TEXT_OUTPUT | WAITING_INPUT | COMPLETE.

Definition ParseState_eqb (a b : ParseState) : bool :=
  match a, b with
  | IDLE, IDLE | THINKING, THINKING | TOOL_USE, TOOL_USE
  | TEXT_OUTPUT, TEXT_OUTPUT | WAITING_INPUT, WAITING_INPUT
  | COMPLETE, COMPLETE => true
  | _, _ => false
  end.

Inductive BlockType : Type :=
| BlockThinking | BlockTool | BlockText | BlockPrompt | BlockError.

Record ParsedBlock : Type := mkBlock { type : BlockType; content : jsstring }.

Record Parser : Type := mkParser {
  state : ParseState;
  buffer : jsstring;
  processedLength : Z;
  blocks : list ParsedBlock;
  textAccumulator : jsstring;
  currentBlockContent : jsstring;
  promptDetectedAt : Z;
  lastPromptCheck : Z
}.

(** [new TerminalOutputParser()] *)
Definition fresh : Parser :=
  mkParser IDLE [] 0 [] [] [] 0 0.

Definition set_state (p : Parser) (s : ParseState) : Parser :=
  mkParser s (buffer p) (processedLength p) (blocks p) (textAccumulator p)
           (currentBlockContent p) (promptDetectedAt p) (lastPromptCheck p).
Definition set_buffer (p : Parser) (b : jsstring) : Parser :=
  mkParser (state p) b (processedLength p) (blocks p) (textAccumulator p)
           (currentBlockContent p) (promptDetectedAt p) (lastPromptCheck p).
Definition set_processedLength (p : Parser) (n : Z) : Parser :=
  mkParser (state p) (buffer p) n (blocks p) (textAccumulator p)
           (currentBlockContent p) (promptDetectedAt p) (lastPromptCheck p).
Definition set_blocks (p : Parser) (bs : list ParsedBlock) : Parser :=
  mkParser (state p) (buffer p) (processedLength p) bs (textAccumulator p)
           (currentBlockContent p) (promptDetectedAt p) (lastPromptCheck p).
Definition set_textAccumulator (p : Parser) (t : jsstring) : Parser :=
  mkParser (state p) (buffer p) (processedLength p) (blocks p) t
           (currentBlockContent p) (promptDetectedAt p) (lastPromptCheck p).
Definition set_currentBlockContent (p : Parser) (t : jsstring) : Parser :=
  mkParser (state p) (buffer p) (processedLength p) (blocks p)
           (textAccumulator p) t (promptDetectedAt p) (lastPromptCheck p).
Definition set_promptDetectedAt (p : Parser) (t : Z) : Parser :=
  mkParser (state p) (buffer p) (processedLength p) (blocks p)
           (textAccumulator p) (currentBlockContent p) t (lastPromptCheck p).

(** [acc += (acc ? newline : empty) + line] *)
Definition appendLine (acc line : jsstring) : jsstring :=
  acc ++ (if Js.truthy acc then [0x0A]%N else []) ++ line.

(** [s.replace(PATTERNS.BOX_CHARS, "|")] *)
Definition boxToBar (s : jsstring) : jsstring :=
  List.map (fun c => if boxChar c then 0x7C%N else c) s.

(** [s.replace(/\|{2,}/g, "|")]: a run of bars becomes one bar. *)
Fixpoint collapseBars (afterBar : bool) (s : jsstring) : jsstring :=
  match s with
  | [] => []
  | c :: s' =>
      if N.eqb c 0x7C
      then if afterBar then collapseBars true s' else c :: collapseBars true s'
      else c :: collapseBars false s'
  end.

(** [s.replace(/^\||\|$/g, empty)]: a bar at the very start and a bar at the
    very end are removed. *)
Definition stripEdgeBars (s : jsstring) : jsstring :=
  let s1 := match s with
            | c :: s' => if N.eqb c 0x7C then s' else s
            | [] => []
            end in
  match rev s1 with
  | c :: r => if N.eqb c 0x7C then rev r else s1
  | [] => s1
  end.

(** [trimmedLine.replace(/^[glyph]\s*/, wrench)], the replacement being
    U+1F527 (a surrogate pair) and a space. *)
Definition replaceToolGlyph (s : jsstring) : jsstring :=
  match s with
  | c :: s' =>
      if toolGlyph c
      then [0xD83D; 0xDD27; 0x20]%N ++ Js.dropWhile Js.isSpace s'
      else s
  | [] => []
  end.

(** [trimmedLine.replace(/^[tree]+\s*/, "  ")] *)
Definition replaceTreePrefix (s : jsstring) : jsstring :=
  match s with
  | c :: _ =>
      if treeChar c
      then [0x20; 0x20]%N ++ Js.dropWhile Js.isSpace (Js.dropWhile treeChar s)
      else s
  | [] => []
  end.

(** The status-bar fragments filtered by [parseContent]. *)
Definition isStatusBar (trimmedLine : jsstring) : bool :=
  (Js.includes trimmedLine (Js.lit "for shortcuts")
   || Js.includes trimmedLine (Js.lit "shift+tab to cycle")
   || Js.includes trimmedLine (Js.lit "esc to interrupt")
   || Js.includes trimmedLine (Js.lit "Auto-update failed")
   || Js.includes trimmedLine (Js.lit "claude doctor")
   || Js.includes trimmedLine (Js.lit "npm i -g"))%bool.

(** The flush of the pending accumulator at an empty prompt. *)
Definition flushAtPrompt (p : Parser) (out : list ParsedBlock)
  : Parser * list ParsedBlock :=
  if Js.truthy (currentBlockContent p) then
    let out' :=
      if ParseState_eqb (state p) THINKING
      then out ++ [mkBlock BlockThinking (Js.trim (currentBlockContent p))]
      else if Js.truthy (Js.trim (currentBlockContent p))
           then out ++ [mkBlock BlockText (Js.trim (currentBlockContent p))]
           else out in
    (set_currentBlockContent p [], out')
  else (p, out).

(** The flush of the pending accumulator at an emoji tool start. *)
Definition flushAtToolStart (p : Parser) (out : list ParsedBlock)
  : list ParsedBlock :=
  if Js.truthy (currentBlockContent p) && ParseState_eqb (state p) THINKING
  then out ++ [mkBlock BlockThinking (Js.trim (currentBlockContent p))]
  else if Js.truthy (currentBlockContent p)
       then out ++ [mkBlock BlockText (Js.trim (currentBlockContent p))]
       else out.

(** The final [switch (this.state)] of the loop body. *)
Definition accumulate (p : Parser) (out : list ParsedBlock)
           (line cleanedLine : jsstring) : Parser * list ParsedBlock :=
  match state p with
  | THINKING =>
      (set_currentBlockContent p
         (appendLine (currentBlockContent p) cleanedLine), out)
  | TOOL_USE =>
      if Js.truthy cleanedLine && negb (test USAGE line)
      then (p, out ++ [mkBlock BlockTool cleanedLine])
      else (p, out)
  | _ =>
      let p1 :=
        if Js.truthy cleanedLine && negb (test USAGE line)
        then set_textAccumulator
               (set_currentBlockContent p
                  (appendLine (currentBlockContent p) cleanedLine))
               (appendLine (textAccumulator p) cleanedLine)
        else p in
      (set_state p1 TEXT_OUTPUT, out)
  end.

(** One iteration of the [for (const line of lines)] loop of
    [parseContent]; [out] is the local array [blocks]. *)
Definition parseLine (now : Z) (acc : Parser * list ParsedBlock)
           (line : jsstring) : Parser * list ParsedBlock :=
  let '(p, out) := acc in
  let trimmedLine := Js.trim line in
  if negb (Js.truthy trimmedLine) || test SEPARATOR line then acc
  else if test TABLE_BORDER trimmedLine then acc
  else if test UI_CHROME trimmedLine then acc
  else
    let hasBox := test BOX_CHARS trimmedLine in
    let cleanedLine :=
      if hasBox
      then Js.trim (stripEdgeBars (collapseBars false (boxToBar trimmedLine)))
      else trimmedLine in
    if hasBox && negb (Js.truthy cleanedLine) then acc
    else if isStatusBar trimmedLine then acc
    else if test CLAUDE_TOOL line then
      let '(p1, out1) :=
        if Js.truthy (currentBlockContent p)
        then (set_currentBlockContent p [],
              out ++ [mkBlock BlockText (Js.trim (currentBlockContent p))])
        else (p, out) in
      (set_state p1 TOOL_USE,
       out1 ++ [mkBlock BlockTool (replaceToolGlyph trimmedLine)])
    else if ParseState_eqb (state p) TOOL_USE && test TOOL_OUTPUT line then
      let cleanedOutput := replaceTreePrefix trimmedLine in
      if Js.truthy (Js.trim cleanedOutput) && negb (test COLLAPSED cleanedOutput)
      then (p, out ++ [mkBlock BlockTool cleanedOutput])
      else acc
    else if test COLLAPSED line then
      (p, out ++ [mkBlock BlockTool ([0xD83D; 0xDCC4; 0x20]%N ++ trimmedLine)])
    else if test EDIT_FILE trimmedLine then
      (set_state p TOOL_USE,
       out ++ [mkBlock BlockTool ([0xD83D; 0xDCDD; 0x20]%N ++ trimmedLine)])
    else if test DIFF_LINE trimmedLine then
      (p, out ++ [mkBlock BlockTool cleanedLine])
    else if test PERMISSION_PROMPT trimmedLine then
      (set_state p WAITING_INPUT,
       out ++ [mkBlock BlockText (WARNING_SIGN ++ [0x20]%N ++ trimmedLine)])
    else if test MENU_OPTION line then
      (p, out ++ [mkBlock BlockText cleanedLine])
    else if test PROCESSING line then
      (set_state p THINKING, out ++ [mkBlock BlockThinking trimmedLine])
    else
      match matchRESPONSE line with
      | Some responseText =>
          if Js.truthy responseText then
            (set_state
               (set_currentBlockContent
                  (set_textAccumulator p
                     (appendLine (textAccumulator p) responseText))
                  responseText)
               TEXT_OUTPUT,
             out ++ [mkBlock BlockText responseText])
          else acc
      | None =>
          if test USER_INPUT line then acc
          else if test PROMPT line then
            let '(p1, out1) := flushAtPrompt p out in
            (set_promptDetectedAt (set_state p1 COMPLETE) now,
             out1 ++ [mkBlock BlockPrompt trimmedLine])
          else if test TOOL_START line || test TOOL_RUNNING line then
            (set_state (set_currentBlockContent p []) TOOL_USE,
             flushAtToolStart p out ++ [mkBlock BlockTool trimmedLine])
          else if ParseState_eqb (state p) TOOL_USE && test TOOL_END line then
            (set_state p TEXT_OUTPUT,
             (out ++ [mkBlock BlockTool trimmedLine])
               ++ (if test ERROR line
                   then [mkBlock BlockError trimmedLine] else []))
          else if test ERROR line then
            (p, out ++ [mkBlock BlockError trimmedLine])
          else accumulate p out line cleanedLine
      end.

(** [parseContent(content)]: the updated parser and the returned blocks. *)
Definition parseContent (now : Z) (content : jsstring) (p : Parser)
  : Parser * list ParsedBlock :=
  let lines := Js.split 0x0A content in
  let '(p1, out) := fold_left (parseLine now) lines (p, []) in
  (set_blocks p1 (blocks p1 ++ out), out).

(** [checkCompletion(buffer)] *)
Definition checkCompletion (now : Z) (buf : jsstring) (p : Parser) : Parser :=
  let lines := List.filter (fun l => Js.truthy (Js.trim l)) (Js.split 0x0A buf) in
  let lastLines := Js.join [0x0A]%N (Js.slice (-5) lines) in
  if test PROMPT lastLines then
    let midTool :=
      if ParseState_eqb (state p) TOOL_USE then
        let lastResponseIdx := Js.lastIndexOf buf [RESPONSE_GLYPH] in
        let lastToolIdx :=
          Z.max (Z.max (Js.lastIndexOf buf [0x25CF; 0x20]%N)
                       (Js.lastIndexOf buf [0x25CB; 0x20]%N))
                (Z.max (Js.lastIndexOf buf [0x25C9; 0x20]%N)
                       (Js.lastIndexOf buf [0x25D0; 0x20]%N)) in
        lastToolIdx >? lastResponseIdx
      else false in
    if midTool then p
    else if negb (ParseState_eqb (state p) COMPLETE)
         then set_promptDetectedAt (set_state p COMPLETE) now
         else p
  else if ParseState_eqb (state p) TEXT_OUTPUT then
    let lastFew := Js.slice (-4) lines in
    let hasSeparator := existsb (test SEPARATOR) lastFew in
    let hasPrompt := existsb (test PROMPT_RELAXED) lastFew in
    if hasSeparator && hasPrompt
    then set_promptDetectedAt (set_state p COMPLETE) now
    else p
  else p.

(** The displacement block at the head of [feed]: either the early
    return of the no-change branch, or the cursor ([processedLength])
    with which [feed] goes on. *)
Inductive Cursor : Type :=
| NoChange
| Continue (cursor : Z).

Definition displacement (p : Parser) (cleaned : jsstring) : Cursor :=
  if (Js.len cleaned <=? processedLength p) && Js.truthy (buffer p) then
    let bufferTail := Js.slice (-200) (buffer p) in
    let cleanedTail := Js.slice (-200) cleaned in
    if negb (Js.eqb bufferTail cleanedTail) && (Js.len cleaned >? 0) then
      let overlapLen :=
        Z.min (Z.min (Js.len (buffer p)) (Js.len cleaned)) 500 in
      let oldTail := Js.slice (- overlapLen) (buffer p) in
      let idx := Js.lastIndexOf cleaned oldTail in
      if idx >=? 0 then Continue (idx + overlapLen) else Continue 0
    else NoChange
  else Continue (processedLength p).

(** [feed(rawOutput)]: the updated parser and the newly parsed blocks. *)
Definition feed (now : Z) (rawOutput : jsstring) (p : Parser)
  : Parser * list ParsedBlock :=
  let cleaned := Sanitizer.cleanOutput rawOutput in
  match displacement p cleaned with
  | NoChange => (checkCompletion now cleaned p, [])
  | Continue cursor =>
      let p1 := set_processedLength p cursor in
      if Js.len cleaned <=? cursor then (checkCompletion now cleaned p1, [])
      else
        let newContent := Js.slice cursor cleaned in
        let p2 := set_buffer (set_processedLength p1 (Js.len cleaned)) cleaned in
        let '(p3, newBlocks) := parseContent now newContent p2 in
        (checkCompletion now cleaned p3, newBlocks)
  end.

(** [isComplete()] *)
Definition isComplete (now : Z) (p : Parser) : bool :=
  if negb (ParseState_eqb (state p) COMPLETE) then false
  else
    let timeSincePrompt := now - promptDetectedAt p in
    timeSincePrompt >=? 2000.

(** [getTextResponse()]: the parser after the call and the returned text. *)
Definition getTextResponse (p : Parser) : Parser * jsstring :=
  let p1 :=
    if Js.truthy (currentBlockContent p)
    then set_textAccumulator p
           (appendLine (textAccumulator p) (currentBlockContent p))
    else p in
  (p1, Js.trim (textAccumulator p1)).

Definition getBlocks (p : Parser) : list ParsedBlock := blocks p.
Definition getState (p : Parser) : ParseState := state p.

(** [revokeCompletion()] *)
Definition revokeCompletion (p : Parser) : Parser :=
  if ParseState_eqb (state p) COMPLETE
  then set_promptDetectedAt (set_state p TEXT_OUTPUT) 0
  else p.

(** [resetProcessedLength()] *)
Definition resetProcessedLength (p : Parser) : Parser :=
  set_buffer (set_processedLength p 0) [].

(** [reset()] *)
Definition reset (p : Parser) : Parser :=
  mkParser IDLE [] 0 [] [] [] 0 0.

End Parser.

(** ** Terminal control bridge ([TmuxBridge]) *)

Module Bridge.
Import Parser.

Inductive Creator : Type := telegram | cli.

Record TmuxSession : Type := mkSession {
  sessionName : jsstring;
  windowId : jsstring;
  paneId : jsstring;
  workingDir : jsstring;
  isRunning : bool;
  createdBy : Creator;
  isOwned : bool;
  markedForExit : bool;
  markedAt : option Z;
  lastActivity : Z
}.

(** An entry of the session file ([TMUX_SESSION_FILE]). *)
Record SessionMetadata : Type := mkMeta {
  metaCreatedBy : Creator;
  metaIsOwned : bool;
  metaMarkedForExit : bool;
  metaMarkedAt : option Z;
  metaLastActivity : Z
}.

Record TmuxLock : Type := mkLock {
  lockSessionName : jsstring;
  acquiredAt : Z;
  expiresAt : Z;
  deviceInfo : jsstring
}.

Record TmuxBridgeConfig : Type := mkConfig {
  sessionPrefix : jsstring;
  pollIntervalMs : Z;
  maxPollTimeMs : Z;
  claudePath : jsstring;
  configWorkingDir : jsstring;
  tmuxPath : jsstring;
  historyLimit : Z;
  idleTimeoutMs : Z
}.

(** The first argument of [StatusCallback]. *)
Inductive StatusKind : Type :=
| StatusThinking | StatusTool | StatusText | StatusDone.

(** The errors thrown by the bridge. *)
Inductive Failure : Type :=
| NoActiveSession                (* "No active tmux session" *)
| LockBusy                       (* "Failed to acquire lock - ..." *)
| ResponseTimeout                (* "Response timeout" *)
| ResponseCancelled              (* "Response cancelled" *)
| SessionNotFound (name : jsstring)
| TmuxFailed (command : jsstring) (* non-zero exit of a tmux command *)
| CallbackFailed                 (* the status callback threw *)
| NullSession.                   (* TypeError: currentSession is null *)

Inductive result (A : Type) : Type :=
| Ok (a : A)
| Throw (f : Failure).
Arguments Ok {A} _.
Arguments Throw {A} _.

(** The outcome of an operation that contains a polling loop: it has
    finished (returned or thrown), or the loop is still running when the
    supplied ticks are used up. *)
Inductive Outcome (A S : Type) : Type :=
| Finished (r : result A)
| Running (loopState : S).
Arguments Finished {A S} _.
Arguments Running {A S} _.

(** The session operations of the bridge, with what each reads from the
    clock. *)
Inductive Op : Type :=
| CreateSession (sessionName resumeSessionId : option jsstring) (now : Z)
                (waits : list Z)
| AttachToSession (name : jsstring) (now : Z)
| MarkForExit (now : Z)
| KillSession (name : jsstring).

(** What the bridge does not control: the configuration constants, the
    outcome of the [n]-th spawned tmux command ([None] for a non-zero
    exit), and whether the [n]-th status callback returns or throws. *)
Record Env : Type := mkEnv {
  config : TmuxBridgeConfig;
  TMUX_LOCK_TIMEOUT : Z;
  TMUX_IDLE_TIMEOUT : Z;
  tmux : nat -> list jsstring -> option jsstring;
  statusCallback : nat -> StatusKind -> jsstring -> bool
}.

(** The bridge instance, the two JSON files, and a record of the effects:
    the arguments of every spawned tmux command and the delivered status
    callbacks, oldest first. *)
Record World : Type := mkWorld {
  currentSession : option TmuxSession;
  pollAbortController : bool;
  cleanupTimers : gset jsstring;
  lastKnownPaneContent : jsstring;
  lockFile : gmap jsstring TmuxLock;
  sessionFile : gmap jsstring SessionMetadata;
  tmuxLog : list (list jsstring);
  events : list (StatusKind * jsstring)
}.

Definition set_currentSession (w : World) (s : option TmuxSession) : World :=
  mkWorld s (pollAbortController w) (cleanupTimers w) (lastKnownPaneContent w)
          (lockFile w) (sessionFile w) (tmuxLog w) (events w).
Definition set_pollAbortController (w : World) (b : bool) : World :=
  mkWorld (currentSession w) b (cleanupTimers w) (lastKnownPaneContent w)
          (lockFile w) (sessionFile w) (tmuxLog w) (events w).
Definition set_cleanupTimers (w : World) (t : gset jsstring) : World :=
  mkWorld (currentSession w) (pollAbortController w) t (lastKnownPaneContent w)
          (lockFile w) (sessionFile w) (tmuxLog w) (events w).
Definition set_lastKnownPaneContent (w : World) (c : jsstring) : World :=
  mkWorld (currentSession w) (pollAbortController w) (cleanupTimers w) c
          (lockFile w) (sessionFile w) (tmuxLog w) (events w).
Definition set_lockFile (w : World) (l : gmap jsstring TmuxLock) : World :=
  mkWorld (currentSession w) (pollAbortController w) (cleanupTimers w)
          (lastKnownPaneContent w) l (sessionFile w) (tmuxLog w) (events w).
Definition set_sessionFile (w : World) (m : gmap jsstring SessionMetadata)
  : World :=
  mkWorld (currentSession w) (pollAbortController w) (cleanupTimers w)
          (lastKnownPaneContent w) (lockFile w) m (tmuxLog w) (events w).
Definition set_tmuxLog (w : World) (l : list (list jsstring)) : World :=
  mkWorld (currentSession w) (pollAbortController w) (cleanupTimers w)
          (lastKnownPaneContent w) (lockFile w) (sessionFile w) l (events w).
Definition set_events (w : World) (e : list (StatusKind * jsstring)) : World :=
  mkWorld (currentSession w) (pollAbortController w) (cleanupTimers w)
          (lastKnownPaneContent w) (lockFile w) (sessionFile w) (tmuxLog w) e.

(** A bridge just constructed, with no lock file and no session file. *)
Definition newBridge : World := mkWorld None false ∅ [] ∅ ∅ [] [].

Definition set_isOwned (s : TmuxSession) (b : bool) : TmuxSession :=
  mkSession (sessionName s) (windowId s) (paneId s) (workingDir s)
            (isRunning s) (createdBy s) b (markedForExit s) (markedAt s)
            (lastActivity s).
Definition set_lastActivity (s : TmuxSession) (t : Z) : TmuxSession :=
  mkSession (sessionName s) (windowId s) (paneId s) (workingDir s)
            (isRunning s) (createdBy s) (isOwned s) (markedForExit s)
            (markedAt s) t.
Definition set_marked (s : TmuxSession) (t : Z) : TmuxSession :=
  mkSession (sessionName s) (windowId s) (paneId s) (workingDir s)
            (isRunning s) (createdBy s) (isOwned s) true (Some t)
            (lastActivity s).

(** The marks [bridge.ts] looks for in a pane, with the code units that
    its string literals hold: three units each. *)
Definition PROMPT_MARK : jsstring := [0x201A; 0xF9; 0xD8]%N.
Definition RESPONSE_MARK : jsstring := [0x201A; 0xE8; 0x222B]%N.
Definition PROCESSING_MARK : jsstring := [0x201A; 0xFA; 0x3A9]%N.

Section WithEnv.
Variable E : Env.

(** [executeTmux(args)] *)
Definition executeTmux (args : list jsstring) (w : World)
  : result jsstring * World :=
  let w' := set_tmuxLog w (tmuxLog w ++ [args]) in
  match tmux E (length (tmuxLog w)) args with
  | Some output => (Ok output, w')
  | None => (Throw (TmuxFailed (hd [] args)), w')
  end.

(** A call of the status callback. *)
Definition callStatus (kind : StatusKind) (text : jsstring) (w : World)
  : result unit * World :=
  let w' := set_events w (events w ++ [(kind, text)]) in
  if statusCallback E (length (events w)) kind text
  then (Ok tt, w') else (Throw CallbackFailed, w').

(** The tmux target [name:window.pane] of a session. *)
Definition paneTarget (s : TmuxSession) : jsstring :=
  sessionName s ++ Js.lit ":" ++ windowId s ++ Js.lit "." ++ paneId s.

(** The arguments [sendKeys(text)] passes to tmux. *)
Definition sendKeysArgs (target text : jsstring) : list jsstring :=
  if Js.eqb text (Js.lit "Enter")
  then [Js.lit "send-keys"; Js.lit "-t"; target; Js.lit "Enter"]
  else [Js.lit "send-keys"; Js.lit "-t"; target; Js.lit "-l"; text].

(** [sendKeys(text)] *)
Definition sendKeys (text : jsstring) (w : World) : result unit * World :=
  match currentSession w with
  | None => (Ok tt, w)
  | Some s =>
      match executeTmux (sendKeysArgs (paneTarget s) text) w with
      | (Ok _, w') => (Ok tt, w')
      | (Throw f, w') => (Throw f, w')
      end
  end.

(** [capturePane()] without [historyLines]. *)
Definition capturePane (w : World) : result jsstring * World :=
  match currentSession w with
  | None => (Ok [], w)
  | Some s =>
      executeTmux
        [Js.lit "capture-pane"; Js.lit "-t"; paneTarget s; Js.lit "-p";
         Js.lit "-S"; Js.lit "-" ++ Js.ofNumber (historyLimit (config E))] w
  end.

(** ** Lock management *)

Definition loadLocks (w : World) : gmap jsstring TmuxLock := lockFile w.
Definition saveLocks (locks : gmap jsstring TmuxLock) (w : World) : World :=
  set_lockFile w locks.

(** [acquireLock(sessionName)] *)
Definition acquireLock (name : jsstring) (now : Z) (w : World)
  : option TmuxLock * World :=
  let locks := loadLocks w in
  let held :=
    match locks !! name with
    | Some existing => expiresAt existing >? now
    | None => false
    end in
  if held then (None, w)
  else
    let lock := mkLock name now (now + TMUX_LOCK_TIMEOUT E)
                       (Js.lit "telegram-bot") in
    (Some lock, saveLocks (<[name := lock]> locks) w).

(** [releaseLock(sessionName)] *)
Definition releaseLock (name : jsstring) (w : World) : World :=
  saveLocks (delete name (loadLocks w)) w.

(** ** Session metadata *)

Definition metadataOf (s : TmuxSession) : SessionMetadata :=
  mkMeta (createdBy s) (isOwned s) (markedForExit s) (markedAt s)
         (lastActivity s).

(** [saveSessionMetadata()] *)
Definition saveSessionMetadata (w : World) : World :=
  match currentSession w with
  | None => w
  | Some s => set_sessionFile w (<[sessionName s := metadataOf s]> (sessionFile w))
  end.

(** ** Session management *)

(** The readiness loop of [createSession]: [waits] holds the clock
    reading of each evaluation of the loop condition. *)
Fixpoint waitForPrompt (startWait : Z) (waits : list Z) (w : World)
  : Outcome unit unit * World :=
  match waits with
  | [] => (Running tt, w)
  | t :: waits' =>
      if t - startWait <? 30000 then
        match capturePane w with
        | (Throw f, w') => (Finished (Throw f), w')
        | (Ok pane, w') =>
            if Js.includes pane PROMPT_MARK
            then (Finished (Ok tt), w')
            else waitForPrompt startWait waits' w'
        end
      else (Finished (Ok tt), w)
  end.

(** [createSession(sessionName?, resumeSessionId?)]; it returns
    [this.currentSession] as it is at the end. *)
Definition createSession (sessionName resumeSessionId : option jsstring)
           (now : Z) (waits : list Z) (w : World)
  : Outcome (option TmuxSession) unit * World :=
  let name :=
    match sessionName with
    | Some n => if Js.truthy n then n
                else sessionPrefix (config E) ++ Js.lit "-" ++ Js.ofNumber now
    | None => sessionPrefix (config E) ++ Js.lit "-" ++ Js.ofNumber now
    end in
  let claudeCmd :=
    match resumeSessionId with
    | Some r => if Js.truthy r
                then claudePath (config E) ++ Js.lit " --resume " ++ r
                else claudePath (config E)
    | None => claudePath (config E)
    end in
  match executeTmux
          [Js.lit "new-session"; Js.lit "-d"; Js.lit "-s"; name; Js.lit "-c";
           configWorkingDir (config E); Js.lit "-x"; Js.lit "200";
           Js.lit "-y"; Js.lit "50"; claudeCmd] w with
  | (Throw f, w1) => (Finished (Throw f), w1)
  | (Ok _, w1) =>
      match executeTmux
              [Js.lit "set-option"; Js.lit "-t"; name; Js.lit "history-limit";
               Js.ofNumber (historyLimit (config E))] w1 with
      | (Throw f, w2) => (Finished (Throw f), w2)
      | (Ok _, w2) =>
          let session :=
            mkSession name (Js.lit "0") (Js.lit "0")
                      (configWorkingDir (config E)) true telegram true false
                      None now in
          let w3 := saveSessionMetadata (set_currentSession w2 (Some session)) in
          match waitForPrompt now waits w3 with
          | (Finished (Ok _), w4) => (Finished (Ok (currentSession w4)), w4)
          | (Finished (Throw f), w4) => (Finished (Throw f), w4)
          | (Running _, w4) => (Running tt, w4)
          end
      end
  end.

(** [x || d] on strings. *)
Definition orElse (x d : jsstring) : jsstring := if Js.truthy x then x else d.

(** One line of the [list-sessions] output, joined with the saved
    metadata; [None] when the session name is empty. *)
Definition sessionOfLine (saved : gmap jsstring SessionMetadata) (now : Z)
           (line : jsstring) : option TmuxSession :=
  let fields := Js.split 0x3A line in
  let name := nth 0 fields [] in
  if negb (Js.truthy name) then None
  else
    let meta := saved !! name in
    Some (mkSession name
            (orElse (nth 1 fields []) (Js.lit "0"))
            (orElse (nth 2 fields []) (Js.lit "0"))
            (orElse (nth 3 fields []) (configWorkingDir (config E)))
            true
            (match meta with Some m => metaCreatedBy m | None => cli end)
            (match meta with Some m => metaIsOwned m | None => false end)
            (match meta with Some m => metaMarkedForExit m | None => false end)
            (match meta with Some m => metaMarkedAt m | None => None end)
            (match meta with Some m => metaLastActivity m | None => now end)).

(** [listSessions()] *)
Definition listSessions (now : Z) (w : World) : list TmuxSession * World :=
  match executeTmux
          [Js.lit "list-sessions"; Js.lit "-F";
           Js.lit "#{session_name}:#{window_id}:#{pane_id}:#{pane_current_path}:#{pane_pid}"]
          w with
  | (Throw _, w') => ([], w')
  | (Ok output, w') =>
      let lines := List.filter Js.truthy (Js.split 0x0A (Js.trim output)) in
      (omap (sessionOfLine (sessionFile w') now) lines, w')
  end.

(** [attachToSession(sessionName)] *)
Definition attachToSession (name : jsstring) (now : Z) (w : World)
  : result (option TmuxSession) * World :=
  let '(sessions, w1) := listSessions now w in
  match List.find (fun s => Js.eqb (sessionName s) name) sessions with
  | None => (Throw (SessionNotFound name), w1)
  | Some target =>
      let target' := set_lastActivity (set_isOwned target true) now in
      let w2 := set_currentSession w1 (Some target') in
      let '(_, w3) :=
        executeTmux [Js.lit "set-option"; Js.lit "-t"; name;
                     Js.lit "history-limit";
                     Js.ofNumber (historyLimit (config E))] w2 in
      let w4 := saveSessionMetadata w3 in
      (Ok (currentSession w4), w4)
  end.

(** [killSession(sessionName)] *)
Definition killSession (name : jsstring) (w : World) : World :=
  match executeTmux [Js.lit "kill-session"; Js.lit "-t"; name] w with
  | (Throw _, w1) => w1
  | (Ok _, w1) =>
      let w2 :=
        match currentSession w1 with
        | Some s => if Js.eqb (sessionName s) name
                    then set_currentSession w1 None else w1
        | None => w1
        end in
      let w3 := set_sessionFile w2 (delete name (sessionFile w2)) in
      set_cleanupTimers w3 (cleanupTimers w3 ∖ {[name]})
  end.

(** [markForExit()]; the scheduled timer is recorded in [cleanupTimers]. *)
Definition markForExit (now : Z) (w : World) : World :=
  match currentSession w with
  | None => w
  | Some s =>
      match createdBy s with
      | telegram =>
          let s' := set_isOwned (set_marked s now) false in
          let w1 := saveSessionMetadata (set_currentSession w (Some s')) in
          let w2 := set_cleanupTimers w1 (cleanupTimers w1 ∪ {[sessionName s]}) in
          set_currentSession w2 None
      | cli =>
          let s' := set_isOwned s false in
          let w1 := saveSessionMetadata (set_currentSession w (Some s')) in
          set_currentSession w1 None
      end
  end.

(** [cleanupSession(sessionName)], run when a cleanup timer fires. *)
Definition cleanupSession (name : jsstring) (now : Z) (w : World) : World :=
  let '(sessions, w1) := listSessions now w in
  let w2 :=
    match List.find (fun s => Js.eqb (sessionName s) name) sessions with
    | Some session => if markedForExit session then killSession name w1 else w1
    | None => w1
    end in
  set_cleanupTimers w2 (cleanupTimers w2 ∖ {[name]}).

(** ** Message handling *)

(** [emitStatusCallback(block, statusCallback)] *)
Definition emitStatusCallback (block : ParsedBlock) (w : World)
  : result unit * World :=
  match type block with
  | BlockThinking => callStatus StatusThinking (content block) w
  | BlockTool => callStatus StatusTool (content block) w
  | BlockText =>
      if Js.truthy (Js.trim (content block))
      then callStatus StatusText (content block) w
      else (Ok tt, w)
  | BlockError => callStatus StatusTool (Js.lit "Error: " ++ content block) w
  | BlockPrompt => (Ok tt, w)
  end.

(** [for (const block of blocks) await this.emitStatusCallback(...)] *)
Fixpoint emitAll (blocks : list ParsedBlock) (w : World)
  : result unit * World :=
  match blocks with
  | [] => (Ok tt, w)
  | b :: bs =>
      match emitStatusCallback b w with
      | (Ok _, w') => emitAll bs w'
      | (Throw f, w') => (Throw f, w')
      end
  end.

(** The local variables of [pollForResponse] that live across
    iterations, together with the parser it was given. *)
Record PollState : Type := mkPoll {
  parser : Parser;
  lastOutput : jsstring;
  sawProcessing : bool;
  sawResponse : bool;
  lastSlicedContent : jsstring
}.

(** What one iteration of the loop reads from outside: the clock at the
    timeout check, the abort signal, and the clock at the calls of
    [feed] and of [isComplete]. *)
Record PollTick : Type := mkTick {
  tickNow : Z;
  tickAborted : bool;
  tickFeedNow : Z;
  tickCheckNow : Z
}.

(** The content after the sent message, or the overlap fallback when
    the anchor has scrolled out. *)
Definition extractNewContent (anchor paneContent : jsstring) (ps : PollState)
  : PollState * jsstring :=
  if Js.truthy anchor then
    let msgIndex := Js.lastIndexOf paneContent anchor in
    if msgIndex >=? 0 then
      let newContent := Js.slice (msgIndex + Js.len anchor) paneContent in
      (mkPoll (parser ps) (lastOutput ps) (sawProcessing ps) (sawResponse ps)
              newContent, newContent)
    else if Js.truthy (lastSlicedContent ps) then
      let tailLen := Z.min (Js.len (lastSlicedContent ps)) 500 in
      let tail := Js.slice (- tailLen) (lastSlicedContent ps) in
      let tailIdx := Js.lastIndexOf paneContent tail in
      if tailIdx >=? 0 then
        let newContent := Js.slice tailIdx paneContent in
        (mkPoll (parser ps) (lastOutput ps) (sawProcessing ps)
                (sawResponse ps) newContent, newContent)
      else
        (mkPoll (resetProcessedLength (parser ps)) (lastOutput ps)
                (sawProcessing ps) (sawResponse ps) paneContent, paneContent)
    else
      (mkPoll (parser ps) (lastOutput ps) (sawProcessing ps) (sawResponse ps)
              paneContent, paneContent)
  else (ps, paneContent).

(** The result of one iteration: go round again, or leave the loop. *)
Inductive Step : Type :=
| Next (ps : PollState)
| Leave (r : result jsstring).

(** The part of an iteration that runs when the pane content changed. *)
Definition processChange (anchor paneContent : jsstring) (tick : PollTick)
           (ps : PollState) (w : World) : Step * World :=
  let ps0 := mkPoll (parser ps) paneContent (sawProcessing ps)
                    (sawResponse ps) (lastSlicedContent ps) in
  let '(ps1, newContent) := extractNewContent anchor paneContent ps0 in
  (* revoke a completion that was detected before the content changed *)
  let parser1 :=
    if ParseState_eqb (getState (parser ps1)) COMPLETE
    then revokeCompletion (parser ps1) else parser ps1 in
  let startsProcessing :=
    negb (sawProcessing ps1) && Js.includes newContent PROCESSING_MARK in
  let '(r1, w1) :=
    if startsProcessing
    then callStatus StatusThinking (Js.lit "Processing...") w
    else (Ok tt, w) in
  match r1 with
  | Throw f => (Leave (Throw f), w1)
  | Ok _ =>
      let sawProcessing1 := sawProcessing ps1 || startsProcessing in
      let startsResponse :=
        negb (sawResponse ps1) && Js.includes newContent RESPONSE_MARK in
      let sawResponse1 := sawResponse ps1 || startsResponse in
      let parser2 := if startsResponse then reset parser1 else parser1 in
      if sawProcessing1 || sawResponse1 then
        let '(parser3, blocks) := feed (tickFeedNow tick) newContent parser2 in
        match emitAll blocks w1 with
        | (Throw f, w2) => (Leave (Throw f), w2)
        | (Ok _, w2) =>
            if sawResponse1 && isComplete (tickCheckNow tick) parser3 then
              let '(_, response) := getTextResponse parser3 in
              let w3 := set_lastKnownPaneContent w2 paneContent in
              match callStatus StatusDone [] w3 with
              | (Throw f, w4) => (Leave (Throw f), w4)
              | (Ok _, w4) => (Leave (Ok response), w4)
              end
            else
              (Next (mkPoll parser3 paneContent sawProcessing1 sawResponse1
                            (lastSlicedContent ps1)), w2)
        end
      else
        (Next (mkPoll parser2 paneContent sawProcessing1 sawResponse1
                      (lastSlicedContent ps1)), w1)
  end.

(** One iteration of the [while (true)] loop of [pollForResponse]. *)
Definition pollIteration (startTime : Z) (anchor : jsstring) (tick : PollTick)
           (ps : PollState) (w : World) : Step * World :=
  if tickNow tick - startTime >? maxPollTimeMs (config E)
  then (Leave (Throw ResponseTimeout), w)
  else if tickAborted tick then (Leave (Throw ResponseCancelled), w)
  else
    match capturePane w with
    | (Throw f, w1) => (Leave (Throw f), w1)
    | (Ok paneContent, w1) =>
        if negb (Js.eqb paneContent (lastOutput ps))
        then processChange anchor paneContent tick ps w1
        else (Next ps, w1)
    end.

Fixpoint pollLoop (startTime : Z) (anchor : jsstring) (ticks : list PollTick)
         (ps : PollState) (w : World) : Outcome jsstring PollState * World :=
  match ticks with
  | [] => (Running ps, w)
  | tick :: ticks' =>
      match pollIteration startTime anchor tick ps w with
      | (Next ps', w') => pollLoop startTime anchor ticks' ps' w'
      | (Leave r, w') => (Finished r, w')
      end
  end.

(** [pollForResponse(parser, statusCallback, sentMessage)]: the abort
    controller is installed for the duration of the loop and cleared by
    the [finally] block. *)
Definition pollForResponse (p : Parser) (sentMessage : jsstring)
           (startTime : Z) (ticks : list PollTick) (w : World)
  : Outcome jsstring PollState * World :=
  let w0 := set_pollAbortController w true in
  match pollLoop startTime sentMessage ticks (mkPoll p [] false false []) w0 with
  | (Finished r, w1) => (Finished r, set_pollAbortController w1 false)
  | (Running ps, w1) => (Running ps, w1)
  end.

(** The clock readings of [sendMessage] outside the polling loop. *)
Record SendClock : Type := mkClock {
  atAcquire : Z;
  atActivity : Z;
  atPollStart : Z
}.

(** The [try] block of [sendMessage]. *)
Definition sendMessageBody (message : jsstring) (clock : SendClock)
           (ticks : list PollTick) (w : World)
  : Outcome jsstring PollState * World :=
  match sendKeys message w with
  | (Throw f, w1) => (Finished (Throw f), w1)
  | (Ok _, w1) =>
      match sendKeys (Js.lit "Enter") w1 with
      | (Throw f, w2) => (Finished (Throw f), w2)
      | (Ok _, w2) =>
          match currentSession w2 with
          | None => (Finished (Throw NullSession), w2)
          | Some s =>
              let w3 :=
                saveSessionMetadata
                  (set_currentSession w2
                     (Some (set_lastActivity s (atActivity clock)))) in
              pollForResponse fresh message (atPollStart clock) ticks w3
          end
      end
  end.

(** [sendMessage(message, statusCallback)]; the [finally] block reads
    [this.currentSession] again when the [try] block is left. This is the
    turn during which no other caller uses the bridge; the turn in
    general is [sendMessageAmid] below. *)
Definition sendMessage (message : jsstring) (clock : SendClock)
           (ticks : list PollTick) (w : World)
  : Outcome jsstring PollState * World :=
  match currentSession w with
  | None => (Finished (Throw NoActiveSession), w)
  | Some s =>
      match acquireLock (sessionName s) (atAcquire clock) w with
      | (None, w1) => (Finished (Throw LockBusy), w1)
      | (Some _, w1) =>
          match sendMessageBody message clock ticks w1 with
          | (Running ps, w2) => (Running ps, w2)
          | (Finished r, w2) =>
              match currentSession w2 with
              | Some s2 => (Finished r, releaseLock (sessionName s2) w2)
              | None => (Finished (Throw NullSession), w2)
              end
          end
      end
  end.

(** ** Sequences of session operations *)

(** The world after an operation, whatever it returned or threw. *)
Definition runOp (w : World) (op : Op) : World :=
  match op with
  | CreateSession n r now waits => snd (createSession n r now waits w)
  | AttachToSession name now => snd (attachToSession name now w)
  | MarkForExit now => markForExit now w
  | KillSession name => killSession name w
  end.

Definition runOps (ops : list Op) (w : World) : World :=
  fold_left runOp ops w.

(** ** A turn amid other calls *)

(** [sendMessage] gives up control at each [await], and other callers
    of the bridge (a command handler that calls [markForExit],
    [killSession], [attachToSession] or [createSession]) may run
    meanwhile. The definitions below are [pollLoop], [pollForResponse],
    [sendMessageBody] and [sendMessage] again, with what the other
    callers do as an input: [beforePoll] lists the operations that run
    during [Bun.sleep(500)], and each tick comes with the operations
    that run during the [Bun.sleep(pollIntervalMs)] that ends its
    iteration. With no such operations they are the definitions above. *)
Fixpoint pollLoopAmid (startTime : Z) (anchor : jsstring)
         (ticks : list (PollTick * list Op)) (ps : PollState) (w : World)
  : Outcome jsstring PollState * World :=
  match ticks with
  | [] => (Running ps, w)
  | (tick, others) :: ticks' =>
      match pollIteration startTime anchor tick ps w with
      | (Next ps', w') =>
          pollLoopAmid startTime anchor ticks' ps' (runOps others w')
      | (Leave r, w') => (Finished r, w')
      end
  end.

Definition pollForResponseAmid (p : Parser) (sentMessage : jsstring)
           (startTime : Z) (ticks : list (PollTick * list Op)) (w : World)
  : Outcome jsstring PollState * World :=
  let w0 := set_pollAbortController w true in
  match pollLoopAmid startTime sentMessage ticks
                     (mkPoll p [] false false []) w0 with
  | (Finished r, w1) => (Finished r, set_pollAbortController w1 false)
  | (Running ps, w1) => (Running ps, w1)
  end.

Definition sendMessageBodyAmid (message : jsstring) (clock : SendClock)
           (beforePoll : list Op) (ticks : list (PollTick * list Op))
           (w : World) : Outcome jsstring PollState * World :=
  match sendKeys message w with
  | (Throw f, w1) => (Finished (Throw f), w1)
  | (Ok _, w1) =>
      match sendKeys (Js.lit "Enter") w1 with
      | (Throw f, w2) => (Finished (Throw f), w2)
      | (Ok _, w2) =>
          match currentSession w2 with
          | None => (Finished (Throw NullSession), w2)
          | Some s =>
              let w3 :=
                saveSessionMetadata
                  (set_currentSession w2
                     (Some (set_lastActivity s (atActivity clock)))) in
              pollForResponseAmid fresh message (atPollStart clock) ticks
                                  (runOps beforePoll w3)
          end
      end
  end.

(** The [finally] block reads [this.currentSession] when the [try]
    block is left: it releases the lock of the session that is current
    then, and throws a [TypeError] before [releaseLock] is called when
    there is none. *)
Definition sendMessageAmid (message : jsstring) (clock : SendClock)
           (beforePoll : list Op) (ticks : list (PollTick * list Op))
           (w : World) : Outcome jsstring PollState * World :=
  match currentSession w with
  | None => (Finished (Throw NoActiveSession), w)
  | Some s =>
      match acquireLock (sessionName s) (atAcquire clock) w with
      | (None, w1) => (Finished (Throw LockBusy), w1)
      | (Some _, w1) =>
          match sendMessageBodyAmid message clock beforePoll ticks w1 with
          | (Running ps, w2) => (Running ps, w2)
          | (Finished r, w2) =>
              match currentSession w2 with
              | Some s2 => (Finished r, releaseLock (sessionName s2) w2)
              | None => (Finished (Throw NullSession), w2)
              end
          end
      end
  end.

(** ** Status *)

(** [TmuxBridgeStatus] *)
Record TmuxBridgeStatus : Type := mkStatus {
  statusEnabled : bool;
  statusSession : option TmuxSession;
  statusIsResponding : bool;
  statusLock : option TmuxLock;
  statusLastActivity : option Z
}.

(** [getStatus()] *)
Definition getStatus (w : World) : TmuxBridgeStatus :=
  let locks := loadLocks w in
  let currentLock :=
    match currentSession w with
    | Some s => locks !! sessionName s
    | None => None
    end in
  mkStatus true (currentSession w) (pollAbortController w) currentLock
           (option_map lastActivity (currentSession w)).

(** ** Session summaries *)

(** [capturePaneByName(sessionName, lines)]: a failed capture gives the
    empty string. *)
Definition capturePaneByName (name : jsstring) (lines : Z) (w : World)
  : jsstring * World :=
  match executeTmux
          [Js.lit "capture-pane"; Js.lit "-t"; name ++ Js.lit ":0.0";
           Js.lit "-p"; Js.lit "-S"; Js.lit "-" ++ Js.ofNumber lines] w with
  | (Ok output, w') => (output, w')
  | (Throw _, w') => ([], w')
  end.

(** The two patterns of [getSessionSummary], a mark, [\s+] and [.+]
    (the second with a group around [.+]), without the [m] flag. *)
Definition SUMMARY_INPUT : Re.re :=
  Re.seqs [Re.Bol false; Re.units PROMPT_MARK; Re.plus Js.isSpace;
           Re.plus Re.dot].
Definition SUMMARY_RESPONSE : Re.re :=
  Re.seqs [Re.Bol false; Re.units RESPONSE_MARK; Re.plus Js.isSpace;
           Re.plus Re.dot].

(** [line.replace(/^mark\s+/, empty)]: the line without the match at its
    start, or the line itself when there is none. *)
Definition stripMarker (mark : jsstring) (line : jsstring) : jsstring :=
  match Re.run (Re.seqs [Re.Bol false; Re.units mark; Re.plus Js.isSpace])
               (fun _ rest => Some rest) None line with
  | Some rest => rest
  | None => line
  end.

(** One iteration of the loop of [getSessionSummary] over the lines. *)
Definition summaryLine (acc : jsstring * jsstring) (line : jsstring)
  : jsstring * jsstring :=
  let '(lastInput, lastResponse) := acc in
  let lastInput1 :=
    if Re.test SUMMARY_INPUT line
    then Js.trim (stripMarker PROMPT_MARK line) else lastInput in
  let lastResponse1 :=
    if Re.test SUMMARY_RESPONSE line
    then Js.trim (stripMarker RESPONSE_MARK line) else lastResponse in
  (lastInput1, lastResponse1).

(** The two fixed answers (18 and 15 code units) and the pieces of the
    template: four units and a space; a space, three units and a space. *)
Definition SUMMARY_UNREADABLE : jsstring :=
  [0xD4; 0xBA; 0xE0; 0xCA; 0xF3; 0x2020; 0xCA; 0x2265; 0xEF; 0xCB; 0xD8;
   0xAA; 0xC2; 0xE8; 0xF1; 0xD4; 0xBA; 0xE2]%N.
Definition SUMMARY_EMPTY : jsstring :=
  [0xD4; 0xBA; 0xE0; 0xC1; 0xA9; 0x222B; 0x2030; 0xBA; 0xF6; 0xCB; 0xD8;
   0xF9; 0xD4; 0xBA; 0xE2]%N.
Definition SUMMARY_HEAD : jsstring := [0xF8FF; 0xFC; 0xED; 0xA8; 0x20]%N.
Definition SUMMARY_ARROW : jsstring := [0x20; 0x201A; 0xDC; 0xED; 0x20]%N.

(** The text [getSessionSummary] builds from a captured pane. *)
Definition summaryOf (raw : jsstring) : jsstring :=
  if negb (Js.truthy raw) then SUMMARY_UNREADABLE
  else
    let lines := Js.split 0x0A raw in
    let '(lastInput, lastResponse) := fold_left summaryLine lines ([], []) in
    if Js.truthy lastInput then
      let inputPreview :=
        if Js.len lastInput >? 20
        then take 17 lastInput ++ Js.lit "..." else lastInput in
      let responsePreview :=
        if Js.truthy lastResponse
        then (if Js.len lastResponse >? 25
              then take 22 lastResponse ++ Js.lit "..." else lastResponse)
        else Js.lit "..." in
      SUMMARY_HEAD ++ inputPreview ++ SUMMARY_ARROW ++ responsePreview
    else SUMMARY_EMPTY.

(** [getSessionSummary(sessionName)] *)
Definition getSessionSummary (name : jsstring) (w : World)
  : jsstring * World :=
  let '(raw, w') := capturePaneByName name 50 w in
  (summaryOf raw, w').

(** ** CLI activity watcher *)

(** The two patterns of the watcher: the response mark and [\s+]; the
    prompt mark. *)
Definition WATCH_RESPONSE : Re.re :=
  Re.seqs [Re.Bol false; Re.units RESPONSE_MARK; Re.plus Js.isSpace].
Definition WATCH_PROMPT : Re.re :=
  Re.seqs [Re.Bol false; Re.units PROMPT_MARK].

(** One iteration of the loop of the watcher over the lines of the new
    pane; [oldLines] is the set of the known lines, and the accumulator
    holds [inNewResponse] and [newResponseLines]. *)
Definition watchLine (oldLines : list jsstring) (acc : bool * list jsstring)
           (line : jsstring) : bool * list jsstring :=
  let '(inNewResponse, newResponseLines) := acc in
  let trimmed := Js.trim line in
  if negb (Js.truthy trimmed) then acc
  else if existsb (Js.eqb trimmed) oldLines && negb inNewResponse then acc
  else if Re.test WATCH_RESPONSE line
       then (true, newResponseLines ++ [trimmed])
  else if inNewResponse then
    if Re.test WATCH_PROMPT line then (false, newResponseLines)
    else (inNewResponse, newResponseLines ++ [trimmed])
  else acc.

(** The lines the watcher reports for a change of the pane from
    [oldContent] to [paneContent]. *)
Definition newResponseLines (oldContent paneContent : jsstring)
  : list jsstring :=
  let oldLines :=
    List.filter Js.truthy (map Js.trim (Js.split 0x0A oldContent)) in
  let newLines := Js.split 0x0A paneContent in
  snd (fold_left (watchLine oldLines) newLines (false, [])).

(** One firing of the interval timer of [startCliWatcher] (the capture
    of the baseline when the watcher starts is a [capturePane] stored in
    [lastKnownPaneContent]): the content
    passed to the callback, if it is called, and the world afterwards.
    [hasCallback] tells whether [cliWatcherCallback] is set; the
    re-entrancy flag is clear, the firings being run one after the
    other; what the callback throws is caught and ignored. *)
Definition cliWatcherTick (hasCallback : bool) (w : World)
  : option jsstring * World :=
  if pollAbortController w then (None, w)
  else
    match currentSession w with
    | None => (None, w)
    | Some _ =>
        match capturePane w with
        | (Throw _, w1) => (None, w1)
        | (Ok paneContent, w1) =>
            if Js.eqb paneContent (lastKnownPaneContent w1) then (None, w1)
            else
              let oldContent := lastKnownPaneContent w1 in
              let w2 := set_lastKnownPaneContent w1 paneContent in
              let lines := newResponseLines oldContent paneContent in
              if (0 <? Z.of_nat (length lines)) && hasCallback
              then (Some (Js.join [0x0A]%N lines), w2)
              else (None, w2)
        end
    end.

End WithEnv.
End Bridge.

(** * Specification vocabulary *)

(** [sub] occurs in [s] at index [i]. *)
Definition occursAt (sub s : jsstring) (i : nat) : Prop :=
  exists before after, s = before ++ sub ++ after /\ length before = i.

Section ParserVocabulary.
Import Parser.

(** What a parsing step may do to a parser [p] and to the local block
    array [out]: the buffer, the cursor and the emitted-block list stay,
    the text accumulator and [out] only grow at the end, and the state
    becomes [COMPLETE] only together with a fresh prompt timestamp. *)
Record extends (now : Z) (p : Parser) (out : list ParsedBlock)
       (r : Parser * list ParsedBlock) : Prop := mkExtends {
  ext_buffer : buffer (fst r) = buffer p;
  ext_cursor : processedLength (fst r) = processedLength p;
  ext_blocks : blocks (fst r) = blocks p;
  ext_text : exists added, textAccumulator (fst r) = textAccumulator p ++ added;
  ext_out : exists more, snd r = out ++ more;
  ext_stamp : state (fst r) = COMPLETE ->
              promptDetectedAt (fst r) = now
              \/ (state p = COMPLETE /\ promptDetectedAt (fst r) = promptDetectedAt p)
}.

(** What [parseContent] and [checkCompletion] leave alone. *)
Record framed (now : Z) (p p' : Parser) : Prop := mkFramed {
  fr_buffer : buffer p' = buffer p;
  fr_cursor : processedLength p' = processedLength p;
  fr_text : exists added, textAccumulator p' = textAccumulator p ++ added;
  fr_blocks : exists more, blocks p' = blocks p ++ more;
  fr_stamp : state p' = COMPLETE ->
             promptDetectedAt p' = now
             \/ (state p = COMPLETE /\ promptDetectedAt p' = promptDetectedAt p)
}.

(** The parser states that the public methods can produce from a new
    parser, the clock never reading zero or less. *)
Inductive reachable : Parser -> Prop :=
| reach_fresh : reachable fresh
| reach_feed p now raw :
    reachable p -> 0 < now -> reachable (fst (feed now raw p))
| reach_getTextResponse p :
    reachable p -> reachable (fst (getTextResponse p))
| reach_revokeCompletion p : reachable p -> reachable (revokeCompletion p)
| reach_resetProcessedLength p :
    reachable p -> reachable (resetProcessedLength p)
| reach_reset p : reachable p -> reachable (reset p).

(** A prompt timestamp accompanies every [COMPLETE] state. *)
Definition stamped (p : Parser) : Prop :=
  state p = COMPLETE -> 0 < promptDetectedAt p.

(** The condition under which [feed] treats the new text as displaced. *)
Definition displaced (p : Parser) (cleaned : jsstring) : Prop :=
  Js.len cleaned <= processedLength p /\ buffer p <> [] /\ cleaned <> []
  /\ Js.slice (-200) (buffer p) <> Js.slice (-200) cleaned.

End ParserVocabulary.

Section LineVocabulary.
Import Re PATTERNS Parser.

(** The kinds of line of the revocation property, by the tests of
    [parseContent] in their order. A line is shown when none of the
    filters at the head of the loop drops it and it has no box-drawing
    unit (so that the cleaned line is the trimmed line). *)
Definition shown (line : jsstring) : bool :=
  Js.truthy (Js.trim line)
  && negb (test SEPARATOR line)
  && negb (test TABLE_BORDER (Js.trim line))
  && negb (test UI_CHROME (Js.trim line))
  && negb (test BOX_CHARS (Js.trim line))
  && negb (isStatusBar (Js.trim line)).

(** A tool-invocation line: the first branch after the filters. *)
Definition isToolCall (line : jsstring) : bool :=
  shown line && test CLAUDE_TOOL line.

(** No branch between the tool invocation and the response takes it. *)
Definition unmarked (line : jsstring) : bool :=
  negb (test CLAUDE_TOOL line)
  && negb (test COLLAPSED line)
  && negb (test EDIT_FILE (Js.trim line))
  && negb (test DIFF_LINE (Js.trim line))
  && negb (test PERMISSION_PROMPT (Js.trim line))
  && negb (test MENU_OPTION line)
  && negb (test PROCESSING line).

(** A response line, in any state of the parser: it is not taken for
    tool output, and the pattern [RESPONSE] captures a non-empty text. *)
Definition isResponseLine (line : jsstring) : bool :=
  shown line && unmarked line && negb (test TOOL_OUTPUT line)
  && match matchRESPONSE line with
     | Some responseText => Js.truthy responseText
     | None => false
     end.

(** A line of plain text: none of the patterns takes it, and it reaches
    the accumulation at the end of the loop body. *)
Definition isPlainText (line : jsstring) : bool :=
  shown line && unmarked line
  && match matchRESPONSE line with Some _ => false | None => true end
  && negb (test USER_INPUT line)
  && negb (test PROMPT line)
  && negb (test TOOL_START line)
  && negb (test TOOL_RUNNING line)
  && negb (test ERROR line)
  && negb (test USAGE line).

(** An empty prompt: the patterns before [PROMPT] do not take it. *)
Definition isPromptLine (line : jsstring) : bool :=
  shown line && unmarked line
  && match matchRESPONSE line with Some _ => false | None => true end
  && negb (test USER_INPUT line)
  && test PROMPT line.

(** The block [parseContent] emits for a tool-invocation line. *)
Definition toolBlock (line : jsstring) : ParsedBlock :=
  mkBlock BlockTool (replaceToolGlyph (Js.trim line)).

End LineVocabulary.

Section BridgeVocabulary.
Import Bridge.

(** A lock for [name] that has not expired at [now]. *)
Definition lockHeld (w : World) (name : jsstring) (now : Z) : Prop :=
  exists l, lockFile w !! name = Some l /\ now < expiresAt l.

(** An environment in which every tmux command succeeds and prints a
    lone prompt, and every callback returns. *)
Definition quietEnv : Env :=
  mkEnv (mkConfig (Js.lit "claude-tg") 100 300000 (Js.lit "claude")
                  (Js.lit "/work") (Js.lit "tmux") 10000 600000)
        60000 600000
        (fun _ _ => Some [PATTERNS.PROMPT_GLYPH])
        (fun _ _ _ => true).

(** The session file marks [name] as owned. *)
Definition ownedIn (w : World) (name : jsstring) : Prop :=
  exists m, sessionFile w !! name = Some m /\ metaIsOwned m = true.

Definition atMostOneOwned (w : World) : Prop :=
  forall a b, ownedIn w a -> ownedIn w b -> a = b.

(** Every session marked as owned is the bridge's current session. *)
Definition ownerIsCurrent (w : World) : Prop :=
  forall name, ownedIn w name ->
               exists s, currentSession w = Some s /\ sessionName s = name.

(** The caller lets go of the current session before it creates a
    session or attaches to another one. *)
Definition releasedFirst (w : World) (op : Op) : Prop :=
  match op with
  | CreateSession _ _ _ _ => currentSession w = None
  | AttachToSession name _ =>
      forall s, currentSession w = Some s -> sessionName s = name
  | MarkForExit _ | KillSession _ => True
  end.

Fixpoint disciplined (E : Env) (ops : list Op) (w : World) : Prop :=
  match ops with
  | [] => True
  | op :: ops' => releasedFirst w op /\ disciplined E ops' (runOp E w op)
  end.

(** Two worlds with the same bridge fields and files (the effect logs
    may differ). *)
Definition sameState (w w' : World) : Prop :=
  currentSession w' = currentSession w
  /\ sessionFile w' = sessionFile w
  /\ lockFile w' = lockFile w.

(** What the polling loop may do to the world: the current session and
    the lock file stay, and the only tmux commands it spawns are
    [capture-pane] commands. *)
Definition pollsOnly (w w' : World) : Prop :=
  currentSession w' = currentSession w
  /\ lockFile w' = lockFile w
  /\ exists cmds, tmuxLog w' = tmuxLog w ++ cmds
                  /\ Forall (fun args => hd [] args = Js.lit "capture-pane") cmds.

(** A lock file with one lock, of session [b], that expired at 10. *)
Definition staleLock : TmuxLock := mkLock (Js.lit "b") 0 10 (Js.lit "telegram-bot").
Definition staleWorld : World :=
  set_lockFile newBridge {[ Js.lit "b" := staleLock ]}.

End BridgeVocabulary.

(** ** Data of the worked examples *)

Section Scenario.
Import Parser Bridge.

Definition LF : jsstring := [0x0A]%N.
Definition promptLine : jsstring := [PATTERNS.PROMPT_GLYPH].
Definition echoLine (text : string) : jsstring :=
  PATTERNS.PROMPT_GLYPH :: Js.lit " " ++ Js.lit text.
Definition responseLine (text : string) : jsstring :=
  PATTERNS.RESPONSE_GLYPH :: Js.lit " " ++ Js.lit text.
Definition toolLine (text : string) : jsstring :=
  (0x25CF)%N :: Js.lit " " ++ Js.lit text.

(** Three successive captures of a turn: a first answer and a prompt;
    then a tool invocation; then a second answer and the final prompt. *)
Definition pane1 : jsstring :=
  echoLine "hi" ++ LF ++ responseLine "first" ++ LF ++ promptLine.
Definition pane2 : jsstring := pane1 ++ LF ++ toolLine "Read(a.ts)".
Definition pane3 : jsstring :=
  pane2 ++ LF ++ responseLine "second" ++ LF ++ promptLine.

(** The same turn on a screen where the bridge sees a response: the first
    answer is announced by the three-unit mark that [pollForResponse]
    looks for; the parser reads that line as text. *)
Definition markedLine (text : string) : jsstring :=
  Bridge.RESPONSE_MARK ++ Js.lit " " ++ Js.lit text.
Definition seen1 : jsstring :=
  echoLine "hi" ++ LF ++ markedLine "first" ++ LF ++ promptLine.
Definition seen2 : jsstring := seen1 ++ LF ++ toolLine "Read(a.ts)".
Definition seen3 : jsstring :=
  seen2 ++ LF ++ responseLine "second" ++ LF ++ promptLine.

(** An environment whose tmux commands succeed; the two key injections
    come first, and the [n]-th capture prints the [n]-th pane. *)
Definition scriptedEnv (panes : list jsstring) : Env :=
  mkEnv (config quietEnv) 60000 600000
        (fun n _ => Some (nth (n - 2) panes []))
        (fun _ _ _ => true).

(** The same with a tmux that fails from its [k]-th command on. *)
Definition failingEnv (k : nat) (panes : list jsstring) : Env :=
  mkEnv (config quietEnv) 60000 600000
        (fun n _ => if (n <? k)%nat then Some (nth (n - 2) panes []) else None)
        (fun _ _ _ => true).

(** The same with a status callback that throws. *)
Definition deafEnv (panes : list jsstring) : Env :=
  mkEnv (config quietEnv) 60000 600000
        (fun n _ => Some (nth (n - 2) panes []))
        (fun _ _ _ => false).

Definition attached : World :=
  set_currentSession newBridge
    (Some (mkSession (Js.lit "main") (Js.lit "0") (Js.lit "0") (Js.lit "/work")
                     true cli true false None 0)).

Definition clock0 : SendClock := mkClock 10 20 30.

(** The session of [attached]. *)
Definition mainSession : TmuxSession :=
  mkSession (Js.lit "main") (Js.lit "0") (Js.lit "0") (Js.lit "/work")
            true cli true false None 0.

(** An environment whose tmux commands succeed and print the listing of
    two sessions, [a] and [b]. *)
Definition listingEnv : Env :=
  mkEnv (config quietEnv) 60000 600000
        (fun _ _ => Some (Js.lit "a:@0:%0:/work:1" ++ LF
                          ++ Js.lit "b:@1:%1:/work:2"))
        (fun _ _ _ => true).

End Scenario.

(** ** Vocabulary of the session and screen properties *)

Section SessionVocabulary.
Import Bridge.

(** A listed session carries the flags of its saved metadata, or the
    defaults of a session seen for the first time. *)
Definition joinedWith (saved : gmap jsstring SessionMetadata) (now : Z)
           (s : TmuxSession) : Prop :=
  sessionName s <> [] /\ isRunning s = true
  /\ match saved !! sessionName s with
     | Some m => createdBy s = metaCreatedBy m /\ isOwned s = metaIsOwned m
                 /\ markedForExit s = metaMarkedForExit m
                 /\ markedAt s = metaMarkedAt m
                 /\ lastActivity s = metaLastActivity m
     | None => createdBy s = cli /\ isOwned s = false
               /\ markedForExit s = false /\ markedAt s = None
               /\ lastActivity s = now
     end.

(** The command of [listSessions]. *)
Definition listSessionsArgs : list jsstring :=
  [Js.lit "list-sessions"; Js.lit "-F";
   Js.lit "#{session_name}:#{window_id}:#{pane_id}:#{pane_current_path}:#{pane_pid}"].

(** A text of white space and line breaks only. *)
Definition blank (s : jsstring) : Prop :=
  Forall (fun c => Js.isSpace c = true) s.

(** A list of reported lines whose first line, if there is one, begins
    with the response mark of the bridge. *)
Definition headed (ls : list jsstring) : Prop :=
  match ls with
  | [] => True
  | l :: _ => exists rest, l = RESPONSE_MARK ++ rest
  end.

End SessionVocabulary.

(** * Properties *)

(** ** Strings *)

Section JsFacts.
Implicit Types (s sub a b : jsstring).

Lemma js_eqb_eq a b : Js.eqb a b = true <-> a = b.
Proof.
  revert b. induction a as [|x a IH]; intros [|y b]; simpl; try easy.
  rewrite andb_true_iff, N.eqb_eq, IH. split.
  - intros [-> ->]. reflexivity.
  - intros [= -> ->]. auto.
Qed.

Lemma js_eqb_refl a : Js.eqb a a = true.
Proof. apply js_eqb_eq. reflexivity. Qed.

Lemma truthy_false s : Js.truthy s = false <-> s = [].
Proof. destruct s; simpl; split; congruence. Qed.

Lemma startsWith_spec sub s :
  Js.startsWith sub s = true <-> exists rest, s = sub ++ rest.
Proof.
  revert s. induction sub as [|x sub IH]; intros s; simpl.
  - split; eauto.
  - destruct s as [|y s].
    + split; [discriminate | intros [rest H]; discriminate].
    + rewrite andb_true_iff, N.eqb_eq, IH. split.
      * intros [-> [rest ->]]. eauto.
      * intros [rest [= -> ->]]. eauto.
Qed.

Lemma occursAt_0 sub s : occursAt sub s 0 <-> Js.startsWith sub s = true.
Proof.
  rewrite startsWith_spec. split.
  - intros (b & a & -> & Hl). destruct b; [|discriminate]. eauto.
  - intros [rest ->]. exists [], rest. auto.
Qed.

Lemma occursAt_S sub c s i : occursAt sub (c :: s) (S i) <-> occursAt sub s i.
Proof.
  split.
  - intros (b & a & Heq & Hl). destruct b as [|x b]; [discriminate|].
    simpl in *. injection Heq as -> ->. exists b, a. split; [reflexivity | lia].
  - intros (b & a & -> & Hl). exists (c :: b), a. simpl. split; [reflexivity | lia].
Qed.

Lemma occursAt_nil sub i : occursAt sub [] i -> sub = [] /\ i = 0%nat.
Proof.
  intros (b & a & Heq & Hl). symmetry in Heq.
  apply app_eq_nil in Heq as [-> Heq]. apply app_eq_nil in Heq as [-> _].
  simpl in Hl. auto.
Qed.

Lemma lastIndexOfFrom_none sub s i found :
  (forall j, ~ occursAt sub s j) -> Js.lastIndexOfFrom i sub s found = found.
Proof.
  revert i found. induction s as [|c s IH]; intros i found Hno; simpl.
  - destruct (Js.startsWith sub []) eqn:Hs; [|reflexivity].
    exfalso. apply (Hno 0%nat). apply occursAt_0. exact Hs.
  - destruct (Js.startsWith sub (c :: s)) eqn:Hs.
    + exfalso. apply (Hno 0%nat). apply occursAt_0. exact Hs.
    + apply IH. intros j Hj. apply (Hno (S j)). apply occursAt_S. exact Hj.
Qed.

Lemma lastIndexOfFrom_last sub s i found j :
  occursAt sub s j -> (forall j', occursAt sub s j' -> (j' <= j)%nat) ->
  Js.lastIndexOfFrom i sub s found = i + Z.of_nat j.
Proof.
  revert i found j. induction s as [|c s IH]; intros i found j Hj Hmax.
  - apply occursAt_nil in Hj as [-> ->]. simpl. lia.
  - simpl. destruct j as [|j].
    + rewrite lastIndexOfFrom_none.
      * apply occursAt_0 in Hj. rewrite Hj. lia.
      * intros j' Hj'. apply occursAt_S with (c := c) in Hj'.
        apply Hmax in Hj'. lia.
    + rewrite (IH (i + 1) _ j).
      * lia.
      * apply occursAt_S in Hj. exact Hj.
      * intros j' Hj'. apply occursAt_S with (c := c) in Hj'.
        apply Hmax in Hj'. lia.
Qed.

(** [lastIndexOf] returns the greatest index of an occurrence... *)
Lemma lastIndexOf_last s sub j :
  occursAt sub s j -> (forall j', occursAt sub s j' -> (j' <= j)%nat) ->
  Js.lastIndexOf s sub = Z.of_nat j.
Proof. intros. unfold Js.lastIndexOf. erewrite lastIndexOfFrom_last; eauto. Qed.

(** ... and [-1] when there is none. *)
Lemma lastIndexOf_none s sub :
  (forall j, ~ occursAt sub s j) -> Js.lastIndexOf s sub = -1.
Proof. intros. unfold Js.lastIndexOf. apply lastIndexOfFrom_none. assumption. Qed.

Lemma occursAt_length sub s j :
  occursAt sub s j -> (j + length sub <= length s)%nat.
Proof.
  intros (b & a & -> & <-). rewrite !length_app. lia.
Qed.

Lemma lastIndexOf_self s : Js.lastIndexOf s s = 0.
Proof.
  apply (lastIndexOf_last s s 0).
  - exists [], []. rewrite app_nil_r. auto.
  - intros j' H. apply occursAt_length in H. lia.
Qed.

Lemma slice_neg {A} (n : Z) (l : list A) :
  0 < n -> Js.slice (- n) l = drop (length l - Z.to_nat n) l.
Proof.
  intros Hn. unfold Js.slice.
  destruct (Z.ltb_spec (- n) 0); [|lia].
  f_equal. lia.
Qed.

End JsFacts.

(** ** The parser *)

Section ParserFacts.
Import Parser.

Lemma extends_refl now p out : extends now p out (p, out).
Proof.
  split; simpl; auto.
  - exists []. symmetry. apply app_nil_r.
  - exists []. symmetry. apply app_nil_r.
Qed.

Lemma extends_trans now p out r r' :
  extends now p out r -> extends now (fst r) (snd r) r' -> extends now p out r'.
Proof.
  intros [Hb Hc Hk [a Ha] [m Hm] Hs] [Hb' Hc' Hk' [a' Ha'] [m' Hm'] Hs'].
  split.
  - congruence.
  - congruence.
  - congruence.
  - exists (a ++ a'). rewrite Ha', Ha. symmetry. apply app_assoc.
  - exists (m ++ m'). rewrite Hm', Hm. symmetry. apply app_assoc.
  - intros Hst. destruct (Hs' Hst) as [?|[Hst1 Hp1]]; [auto|].
    destruct (Hs Hst1) as [?|[? ?]]; [left|right; split]; congruence.
Qed.

(** Closing a leaf: the result is an explicit update of [p] and [out]. *)
Ltac extends_leaf :=
  repeat match goal with
         | |- context [if ?c then _ else _] => destruct c
         end;
  (split; simpl;
   [ reflexivity | reflexivity | reflexivity
   | first [ by (exists []; rewrite app_nil_r)
           | by (eexists; unfold appendLine; reflexivity) ]
   | first [ by (exists []; rewrite app_nil_r)
           | by (eexists; reflexivity)
           | by (eexists; rewrite <- !app_assoc; reflexivity) ]
   | first [ discriminate | by auto ] ]).

(** One case distinction on the head of the term under [extends]. *)
Ltac extends_step :=
  lazymatch goal with
  | |- extends _ _ _ (match (if ?c then _ else _) with _ => _ end) =>
      destruct c eqn:?
  | |- extends _ _ _ (if ?c then _ else _) => destruct c eqn:?
  | |- extends _ _ _ (match ?x with _ => _ end) => destruct x eqn:?
  end.

Lemma accumulate_extends now p out line cleanedLine :
  extends now p out (accumulate p out line cleanedLine).
Proof.
  unfold accumulate.
  destruct (state p) eqn:Hst;
    repeat extends_step; try apply extends_refl; extends_leaf.
Qed.

Lemma parseLine_extends now p out line :
  extends now p out (parseLine now (p, out) line).
Proof.
  unfold parseLine, flushAtPrompt, flushAtToolStart. cbv zeta.
  repeat extends_step;
    first [ apply extends_refl | apply accumulate_extends | extends_leaf ].
Qed.

Lemma fold_parseLine_extends now lines p out :
  extends now p out (fold_left (parseLine now) lines (p, out)).
Proof.
  revert p out. induction lines as [|l lines IH]; intros p out; cbn [fold_left].
  - apply extends_refl.
  - pose proof (parseLine_extends now p out l) as H1.
    destruct (parseLine now (p, out) l) as [p1 out1].
    eapply extends_trans; [exact H1 | apply IH].
Qed.

Lemma parseContent_blocks now content p :
  blocks (fst (parseContent now content p))
  = blocks p ++ snd (parseContent now content p).
Proof.
  unfold parseContent.
  pose proof (fold_parseLine_extends now (Js.split 10 content) p []) as H.
  destruct (fold_left _ _ _) as [p1 out]. simpl.
  f_equal. apply (ext_blocks _ _ _ _ H).
Qed.

Lemma parseContent_framed now content p :
  framed now p (fst (parseContent now content p)).
Proof.
  unfold parseContent.
  pose proof (fold_parseLine_extends now (Js.split 10 content) p []) as H.
  destruct (fold_left _ _ _) as [p1 out]. destruct H; simpl in *.
  split; simpl; eauto. rewrite ext_blocks0. eauto.
Qed.

(** [checkCompletion] touches the state and the prompt timestamp only. *)
Lemma checkCompletion_fields now buf p :
  let p' := checkCompletion now buf p in
  buffer p' = buffer p /\ processedLength p' = processedLength p
  /\ blocks p' = blocks p /\ textAccumulator p' = textAccumulator p
  /\ currentBlockContent p' = currentBlockContent p
  /\ (state p' = COMPLETE ->
      promptDetectedAt p' = now
      \/ (state p = COMPLETE /\ promptDetectedAt p' = promptDetectedAt p)).
Proof.
  unfold checkCompletion. cbv zeta.
  repeat match goal with
         | |- context [if ?c then _ else _] => destruct c
         end; simpl; auto 10.
Qed.

End ParserFacts.

Section FeedFacts.
Import Parser.

Lemma slice_tail_suffix (pre c : jsstring) (n : Z) :
  0 < n -> n <= Js.len c -> Js.slice (- n) (pre ++ c) = Js.slice (- n) c.
Proof.
  intros Hn Hc. unfold Js.len in Hc. rewrite !slice_neg by assumption.
  rewrite length_app, skipn_app.
  rewrite skipn_all2 by lia. simpl. f_equal. lia.
Qed.

Lemma slice_whole_suffix (pre c : jsstring) :
  0 < Js.len c -> Js.slice (- Js.len c) (pre ++ c) = c.
Proof.
  intros Hc. unfold Js.len in *. rewrite slice_neg by assumption.
  rewrite length_app, skipn_app, skipn_all2 by lia. simpl.
  replace (_ - _)%nat with 0%nat by lia. reflexivity.
Qed.

(** After the first [feed] of a fresh parser the buffer is the cleaned
    input and the cursor is at its end. *)
Lemma feed_fresh_cursor now raw :
  let p1 := fst (feed now raw fresh) in
  buffer p1 = Sanitizer.cleanOutput raw
  /\ processedLength p1 = Js.len (Sanitizer.cleanOutput raw).
Proof.
  unfold feed, displacement. cbv zeta.
  change (buffer fresh) with (@nil N). change (processedLength fresh) with 0.
  change (Js.truthy []) with false. rewrite !andb_false_r.
  set (c := Sanitizer.cleanOutput raw).
  destruct (Z.leb_spec (Js.len c) 0) as [Hle|Hgt]; cbn [fst].
  - destruct (checkCompletion_fields now c (set_processedLength fresh 0))
      as (Hb & Hc & _). rewrite Hb, Hc. simpl.
    assert (c = []) as ->; [|auto].
    unfold Js.len in Hle. destruct c; [reflexivity | simpl in Hle; lia].
  - set (p2 := set_buffer _ c).
    pose proof (parseContent_framed now (Js.slice 0 c) p2) as [Hb Hc _ _ _].
    destruct (parseContent now (Js.slice 0 c) p2) as [p3 bs]. cbn [fst] in *.
    destruct (checkCompletion_fields now c p3) as (Hb' & Hc' & _).
    rewrite Hb', Hc', Hb, Hc. auto.
Qed.

(** Feeding a suffix of the buffer to a parser whose cursor is at the
    end of its buffer parses nothing: only [checkCompletion] runs. *)
Lemma feed_suffix_parses_nothing now raw p pre :
  buffer p = pre ++ Sanitizer.cleanOutput raw ->
  processedLength p = Js.len (buffer p) ->
  exists p', feed now raw p
             = (checkCompletion now (Sanitizer.cleanOutput raw) p', [])
             /\ blocks p' = blocks p
             /\ textAccumulator p' = textAccumulator p
             /\ currentBlockContent p' = currentBlockContent p.
Proof.
  set (c := Sanitizer.cleanOutput raw). intros Hbuf Hcur.
  assert (Hlen : Js.len c <= processedLength p).
  { rewrite Hcur, Hbuf. unfold Js.len. rewrite length_app. lia. }
  unfold feed, displacement. fold c.
  destruct (Z.leb_spec (Js.len c) (processedLength p)) as [_|]; [|lia].
  destruct (Js.truthy (buffer p)) eqn:Htr; simpl andb; cbv iota.
  - destruct (negb (Js.eqb (Js.slice (-200) (buffer p)) (Js.slice (-200) c))
              && (Js.len c >? 0)) eqn:Hdisp.
    + apply andb_true_iff in Hdisp as [Hne Hpos].
      apply Z.gtb_lt in Hpos.
      assert (Hshort : Js.len c < 200).
      { destruct (Z.lt_ge_cases (Js.len c) 200) as [|Hge]; [assumption|].
        change (-200) with (Z.opp 200) in Hne.
        rewrite Hbuf in Hne. rewrite slice_tail_suffix in Hne by lia.
        rewrite js_eqb_refl in Hne. discriminate. }
      assert (Hmin : Z.min (Z.min (Js.len (buffer p)) (Js.len c)) 500 = Js.len c)
        by lia.
      rewrite Hmin, Hbuf, slice_whole_suffix, lastIndexOf_self by assumption.
      change (0 >=? 0) with true. cbv iota. rewrite Z.add_0_l, Z.leb_refl.
      eexists. split; [reflexivity | simpl; auto].
    + eexists. split; [reflexivity | auto].
  - destruct (Z.leb_spec (Js.len c) (processedLength p)) as [_|]; [|lia].
    eexists. split; [reflexivity | simpl; auto].
Qed.

End FeedFacts.

Section ParserInvariants.
Import Parser.

Lemma ParseState_eqb_eq a b : ParseState_eqb a b = true <-> a = b.
Proof. destruct a, b; simpl; split; congruence. Qed.

Lemma feed_grows now raw p :
  let p' := fst (feed now raw p) in
  (exists added, textAccumulator p' = textAccumulator p ++ added)
  /\ blocks p' = blocks p ++ snd (feed now raw p)
  /\ (state p' = COMPLETE ->
      promptDetectedAt p' = now
      \/ (state p = COMPLETE /\ promptDetectedAt p' = promptDetectedAt p)).
Proof.
  cbv zeta. unfold feed.
  set (c := Sanitizer.cleanOutput raw).
  assert (Hcc : forall q,
    textAccumulator q = textAccumulator p -> blocks q = blocks p ->
    state q = state p -> promptDetectedAt q = promptDetectedAt p ->
    (exists added, textAccumulator (checkCompletion now c q)
                   = textAccumulator p ++ added)
    /\ blocks (checkCompletion now c q) = blocks p ++ []
    /\ (state (checkCompletion now c q) = COMPLETE ->
        promptDetectedAt (checkCompletion now c q) = now
        \/ (state p = COMPLETE
            /\ promptDetectedAt (checkCompletion now c q) = promptDetectedAt p))).
  { intros q Ht Hb Hs Hp.
    destruct (checkCompletion_fields now c q) as (_ & _ & Hk & Htx & _ & Hst).
    rewrite Htx, Hk, Ht, Hb, app_nil_r. split; [|split].
    - exists []. symmetry. apply app_nil_r.
    - reflexivity.
    - intros H. destruct (Hst H) as [?|[? ?]]; [auto|right]. split; congruence. }
  destruct (displacement p c) as [|cursor]; cbn [fst snd].
  - apply Hcc; reflexivity.
  - destruct (Js.len c <=? cursor); cbn [fst snd].
    + apply Hcc; reflexivity.
    + set (p2 := set_buffer _ c).
      pose proof (parseContent_framed now (Js.slice cursor c) p2) as [_ _ [a Ha] _ Hs].
      pose proof (parseContent_blocks now (Js.slice cursor c) p2) as Hb.
      destruct (parseContent now (Js.slice cursor c) p2) as [p3 bs].
      cbn [fst snd] in *.
      destruct (checkCompletion_fields now c p3) as (_ & _ & Hk & Htx & _ & Hst).
      rewrite Htx, Hk, Ha, Hb. split; [|split].
      * exists a. reflexivity.
      * reflexivity.
      * intros H. destruct (Hst H) as [?|[H3 Hp3]]; [auto|].
        destruct (Hs H3) as [?|[Hp2 Hq2]];
          [left; congruence
          |right; split; [exact Hp2 | rewrite Hp3; exact Hq2]].
Qed.

Lemma reachable_stamped p : reachable p -> stamped p.
Proof.
  induction 1 as [|p now raw _ IH Hnow|p _ IH|p _ IH|p _ IH|p _ IH];
    unfold stamped in *.
  - discriminate.
  - intros Hst. destruct (feed_grows now raw p) as (_ & _ & Hs).
    destruct (Hs Hst) as [->|[Hp ->]]; auto.
  - unfold getTextResponse. cbn [fst].
    destruct (Js.truthy (currentBlockContent p)); simpl; auto.
  - unfold revokeCompletion.
    destruct (ParseState_eqb (state p) COMPLETE) eqn:He; simpl.
    + discriminate.
    + intros Hst. apply IH. exact Hst.
  - simpl. exact IH.
  - simpl. discriminate.
Qed.

(** C3. Right after [reset()] the completion check answers false although
    the prompt timestamp is zero; and in every state the parser can reach
    a zero timestamp never lets [isComplete] answer true. *)
Theorem reset_is_not_complete :
  (forall p now,
      promptDetectedAt (reset p) = 0 /\ isComplete now (reset p) = false)
  /\ (forall p now,
         reachable p -> promptDetectedAt p = 0 -> isComplete now p = false).
Proof.
  split.
  - intros p now. split; reflexivity.
  - intros p now Hr Hz. unfold isComplete.
    destruct (ParseState_eqb (state p) COMPLETE) eqn:He; [|reflexivity].
    apply ParseState_eqb_eq in He.
    apply reachable_stamped in Hr. specialize (Hr He). lia.
Qed.

(** C1. Feeding [T1] and then a suffix [T2] of it to a new parser leaves
    the emitted blocks, the accumulators and the text response as they
    are after [T1] alone. *)
Theorem suffix_refeed_changes_nothing (now1 now2 : Z) (T1 T2 pre : jsstring) :
  Sanitizer.cleanOutput T1 = pre ++ Sanitizer.cleanOutput T2 ->
  let p1 := fst (feed now1 T1 fresh) in
  let p2 := fst (feed now2 T2 p1) in
  snd (feed now2 T2 p1) = []
  /\ getBlocks p2 = getBlocks p1
  /\ textAccumulator p2 = textAccumulator p1
  /\ currentBlockContent p2 = currentBlockContent p1
  /\ snd (getTextResponse p2) = snd (getTextResponse p1).
Proof.
  intros Hsuf p1 p2.
  destruct (feed_fresh_cursor now1 T1) as [Hb Hc]. fold p1 in Hb, Hc.
  destruct (feed_suffix_parses_nothing now2 T2 p1 pre) as (p' & Hf & Hk & Ht & Hcb).
  { rewrite Hb. exact Hsuf. }
  { rewrite Hc, Hb. reflexivity. }
  subst p2. rewrite Hf. cbn [fst snd].
  destruct (checkCompletion_fields now2 (Sanitizer.cleanOutput T2) p')
    as (_ & _ & Hk' & Ht' & Hcb' & _).
  unfold getBlocks, getTextResponse. cbn [snd].
  rewrite Hk', Ht', Hcb', Hk, Ht, Hcb.
  repeat split.
  destruct (Js.truthy (currentBlockContent p1)); simpl; congruence.
Qed.

End ParserInvariants.

Section TrimFacts.

Lemma dropWhile_suffix p (l : jsstring) :
  exists w, l = w ++ Js.dropWhile p l.
Proof.
  induction l as [|c l [w IH]]; simpl.
  - exists []. reflexivity.
  - destruct (p c).
    + exists (c :: w). simpl. congruence.
    + exists []. reflexivity.
Qed.

Lemma dropWhile_app p (u v : jsstring) :
  Js.dropWhile p (u ++ v)
  = match Js.dropWhile p u with
    | [] => Js.dropWhile p v
    | d => d ++ v
    end.
Proof.
  induction u as [|c u IH]; simpl.
  - destruct (Js.dropWhile p v); reflexivity.
  - destruct (p c); [exact IH | reflexivity].
Qed.

Lemma trimEnd_prefix (x : jsstring) : exists w, x = Js.trimEnd x ++ w.
Proof.
  unfold Js.trimEnd.
  destruct (dropWhile_suffix Js.isSpace (rev x)) as [w Hw].
  exists (rev w). rewrite <- rev_app_distr, <- Hw. symmetry. apply rev_involutive.
Qed.

Lemma trimEnd_app (x y : jsstring) :
  exists z, Js.trimEnd (x ++ y) = Js.trimEnd x ++ z.
Proof.
  unfold Js.trimEnd at 1. rewrite rev_app_distr, dropWhile_app.
  destruct (Js.dropWhile Js.isSpace (rev y)) as [|d ds] eqn:Hd.
  - exists []. rewrite app_nil_r. reflexivity.
  - rewrite rev_app_distr, rev_involutive.
    destruct (trimEnd_prefix x) as [w Hw].
    exists (w ++ rev (d :: ds)). rewrite app_assoc, <- Hw. reflexivity.
Qed.

(** The trimmed text of a prefix starts the trimmed text of the whole. *)
Lemma trim_app (a b : jsstring) :
  exists rest, Js.trim (a ++ b) = Js.trim a ++ rest.
Proof.
  unfold Js.trim, Js.trimStart. rewrite dropWhile_app.
  destruct (Js.dropWhile Js.isSpace a) as [|c a'] eqn:Ha.
  - exists (Js.trimEnd (Js.dropWhile Js.isSpace b)). reflexivity.
  - apply trimEnd_app.
Qed.

End TrimFacts.

Section Revocation.
Import Parser.

(** C2 (the code departs from the claim). With a pending block the second
    call of [getTextResponse] appends the block once more and returns a
    longer text than the first. *)
Theorem getTextResponse_appends_again :
  let p := fst (feed 1000 (Js.lit "hello") fresh) in
  let '(p1, first) := getTextResponse p in
  let '(_, second) := getTextResponse p1 in
  first = Js.lit "hello" ++ [0x0A]%N ++ Js.lit "hello"
  /\ second = Js.lit "hello" ++ [0x0A]%N ++ Js.lit "hello" ++ [0x0A]%N ++ Js.lit "hello"
  /\ first <> second.
Proof. vm_compute. repeat split. discriminate. Qed.

End Revocation.

Section Displacement.
Import Parser.

Lemma js_eqb_neq (a b : jsstring) : a <> b -> Js.eqb a b = false.
Proof.
  intros H. destruct (Js.eqb a b) eqn:He; [|reflexivity].
  apply js_eqb_eq in He. contradiction.
Qed.

Lemma no_occurrence_same_length (sub s : jsstring) :
  length s = length sub -> Js.startsWith sub s = false ->
  forall i, ~ occursAt sub s i.
Proof.
  intros Hl Hs i Hi. pose proof (occursAt_length _ _ _ Hi) as Hle.
  assert (i = 0%nat) as -> by lia.
  apply occursAt_0 in Hi. congruence.
Qed.

(** The displacement block in general. On displacement [feed] looks for
    one tail of the old buffer only, the one of length
    [min(old, new, 500)]: when that
    tail occurs in the new buffer the cursor is put just after its last
    occurrence, when it does not occur the cursor is reset to zero; the
    text after the cursor is what [feed] then parses. *)
Theorem displacement_probes_one_tail (p : Parser) (cleaned : jsstring) :
  displaced p cleaned ->
  let k := Z.min (Z.min (Js.len (buffer p)) (Js.len cleaned)) 500 in
  let oldTail := drop (length (buffer p) - Z.to_nat k) (buffer p) in
  (forall i, occursAt oldTail cleaned i ->
             (forall j, occursAt oldTail cleaned j -> (j <= i)%nat) ->
             displacement p cleaned = Continue (Z.of_nat i + k))
  /\ ((forall i, ~ occursAt oldTail cleaned i) ->
      displacement p cleaned = Continue 0)
  /\ (forall now raw cursor,
         Sanitizer.cleanOutput raw = cleaned ->
         displacement p cleaned = Continue cursor ->
         feed now raw p
         = if Js.len cleaned <=? cursor
           then (checkCompletion now cleaned (set_processedLength p cursor), [])
           else
             let '(p3, newBlocks) :=
               parseContent now (Js.slice cursor cleaned)
                 (set_buffer (set_processedLength p (Js.len cleaned)) cleaned) in
             (checkCompletion now cleaned p3, newBlocks)).
Proof.
  intros (Hlen & Hbuf & Hcl & Htail) k oldTail.
  assert (Hk : 0 < k).
  { unfold k, Js.len. destruct (buffer p); [congruence|].
    destruct cleaned; [congruence|]. simpl length. lia. }
  assert (Hd : displacement p cleaned
               = if Js.lastIndexOf cleaned oldTail >=? 0
                 then Continue (Js.lastIndexOf cleaned oldTail + k)
                 else Continue 0).
  { unfold displacement.
    destruct (Z.leb_spec (Js.len cleaned) (processedLength p)); [|lia].
    destruct (Js.truthy (buffer p)) eqn:Htr;
      [|apply truthy_false in Htr; congruence].
    simpl andb. cbv iota.
    rewrite (js_eqb_neq _ _ Htail). simpl negb. simpl andb.
    destruct (Z.gtb_spec (Js.len cleaned) 0) as [_|Hz].
    - fold k. rewrite (slice_neg k) by exact Hk. reflexivity.
    - unfold Js.len in Hz. destruct cleaned; [congruence | simpl in Hz; lia]. }
  split; [|split].
  - intros i Hi Hmax. rewrite Hd, (lastIndexOf_last _ _ i Hi Hmax).
    destruct (Z.geb_spec (Z.of_nat i) 0); [reflexivity | lia].
  - intros Hno. rewrite Hd, (lastIndexOf_none _ _ Hno). reflexivity.
  - intros now raw cursor Hraw Hcur. unfold feed. rewrite Hraw, Hcur.
    reflexivity.
Qed.

(** C5 (the code departs from the claim). The screen showed [ABCDEFGHIJ];
    six units scroll out at the top and four arrive at the bottom,
    [GHIJKLMN]. The old buffer and the new one overlap in [GHIJ], but
    [feed] probes the last 8 units of the old buffer only, does not find
    them, takes its no-overlap branch and parses the whole new buffer:
    the cursor is 0 and not 4, and the retained [GHIJ] is accumulated a
    second time. *)
Theorem displacement_reparses_retained_text :
  let p := fst (feed 1 (Js.lit "ABCDEFGHIJ") fresh) in
  let cleaned := Sanitizer.cleanOutput (Js.lit "GHIJKLMN") in
  let p' := fst (feed 2 (Js.lit "GHIJKLMN") p) in
  displaced p cleaned
  /\ buffer p = Js.lit "ABCDEF" ++ Js.lit "GHIJ"
  /\ cleaned = Js.lit "GHIJ" ++ Js.lit "KLMN"
  /\ displacement p cleaned = Continue 0
  /\ textAccumulator p = Js.lit "ABCDEFGHIJ"
  /\ textAccumulator p' = Js.lit "ABCDEFGHIJ" ++ [0x0A]%N ++ Js.lit "GHIJKLMN".
Proof.
  cbv zeta. split.
  - repeat split; vm_compute; discriminate.
  - vm_compute. repeat split.
Qed.

(** The same input against the general statement: a suffix of the old
    buffer occurs in the new one, and the cursor is reset all the same. *)
Lemma displacement_resets_despite_overlap :
  let p := fst (feed 1 (Js.lit "ABCDEFGHIJ") fresh) in
  let cleaned := Js.lit "GHIJKLMN" in
  displaced p cleaned
  /\ displacement p cleaned = Continue 0
  /\ exists suffix, suffix <> []
                    /\ (exists pre, buffer p = pre ++ suffix)
                    /\ occursAt suffix cleaned 0.
Proof.
  cbv zeta. split; [|split].
  - repeat split; vm_compute; discriminate.
  - vm_compute. reflexivity.
  - exists (Js.lit "GHIJ"). split; [discriminate|]. split.
    + exists (Js.lit "ABCDEF"). vm_compute. reflexivity.
    + exists [], (Js.lit "KLMN"). split; reflexivity.
Qed.

(** The tail of length 8 does not occur in the new buffer. *)
Lemma displacement_probes_one_tail_witness :
  displaced (fst (feed 1 (Js.lit "ABCDEFGHIJ") fresh)) (Js.lit "GHIJKLMN")
  /\ displacement (fst (feed 1 (Js.lit "ABCDEFGHIJ") fresh)) (Js.lit "GHIJKLMN")
     = Continue 0.
Proof.
  assert (H : displaced (fst (feed 1 (Js.lit "ABCDEFGHIJ") fresh))
                        (Js.lit "GHIJKLMN"))
    by (repeat split; vm_compute; discriminate).
  split; [exact H|].
  apply (proj1 (proj2 (displacement_probes_one_tail _ _ H))).
  apply no_occurrence_same_length; vm_compute; reflexivity.
Defined.

(** The rebase at work on buffers longer than the probe: 50 units have
    scrolled out at the top and 50 new ones have arrived at the bottom;
    the last 500 units of the old buffer are found at index 50 and only
    the new units are parsed. *)
Example displacement_rebases_after_overlap :
  let old := repeat 0x61%N 100 ++ repeat 0x62%N 499 ++ [0x63%N] in
  let new := drop 50 old ++ repeat 0x64%N 50 in
  let p := fst (feed 1 old fresh) in
  displacement p new = Continue 550
  /\ textAccumulator (fst (feed 2 new p)) = old ++ [0x0A%N] ++ repeat 0x64%N 50.
Proof. vm_compute. split; reflexivity. Qed.

End Displacement.

Section LockThms.
Import Bridge.
Variable E : Env.

(** C7. [acquireLock] refuses exactly when the lock file holds a lock for
    the session whose expiry lies in the future, and then changes
    nothing; otherwise it stores a lock that expires [TMUX_LOCK_TIMEOUT]
    after the time of acquisition. *)
Theorem acquireLock_refuses_iff_held (name : jsstring) (now : Z) (w : World) :
  (fst (acquireLock E name now w) = None <-> lockHeld w name now)
  /\ (lockHeld w name now -> snd (acquireLock E name now w) = w)
  /\ (~ lockHeld w name now ->
      let lock := mkLock name now (now + TMUX_LOCK_TIMEOUT E)
                         (Js.lit "telegram-bot") in
      fst (acquireLock E name now w) = Some lock
      /\ expiresAt lock = acquiredAt lock + TMUX_LOCK_TIMEOUT E
      /\ lockFile (snd (acquireLock E name now w))
         = <[name := lock]> (lockFile w)).
Proof.
  unfold acquireLock, loadLocks, saveLocks, lockHeld.
  destruct (lockFile w !! name) as [existing|] eqn:Hl.
  - destruct (Z.gtb_spec (expiresAt existing) now) as [Hgt|Hle]; cbn [fst snd].
    + split; [|split].
      * split; [|reflexivity]. intros _. exists existing. split; [reflexivity|lia].
      * reflexivity.
      * intros Hn. exfalso. apply Hn. exists existing. split; [reflexivity|lia].
    + split; [|split].
      * split; [discriminate|]. intros (l & [= <-] & Hlt). lia.
      * intros (l & [= <-] & Hlt). lia.
      * intros _. repeat split.
  - cbn [fst snd]. split; [|split].
    + split; [discriminate|]. intros (l & Hx & _). discriminate.
    + intros (l & Hx & _). discriminate.
    + intros _. repeat split.
Qed.

(** C8, as the code has it: an acquire leaves the locks of all other
    sessions as they are, expired or not. The session's own entry, when
    there is one afterwards, is the lock that was held and has not
    expired, or the new lock, which expires [TMUX_LOCK_TIMEOUT] after the
    acquire; so with a positive timeout the own entry is never left
    expired. *)
Theorem acquireLock_touches_own_entry_only (name : jsstring) (now : Z) (w : World) :
  let w' := snd (acquireLock E name now w) in
  (forall other, other <> name -> lockFile w' !! other = lockFile w !! other)
  /\ (forall l, lockFile w' !! name = Some l ->
        (lockFile w !! name = Some l /\ now < expiresAt l)
        \/ (acquiredAt l = now /\ expiresAt l = now + TMUX_LOCK_TIMEOUT E))
  /\ (0 < TMUX_LOCK_TIMEOUT E ->
      forall l, lockFile w' !! name = Some l -> now < expiresAt l).
Proof.
  cbv zeta.
  assert (Hother : forall other, other <> name ->
            lockFile (snd (acquireLock E name now w)) !! other
            = lockFile w !! other).
  { intros other Hne. unfold acquireLock, loadLocks, saveLocks.
    destruct (match lockFile w !! name with Some _ => _ | None => _ end);
      cbn [snd lockFile set_lockFile]; [reflexivity|].
    apply lookup_insert_ne. congruence. }
  assert (Hown : forall l,
            lockFile (snd (acquireLock E name now w)) !! name = Some l ->
            (lockFile w !! name = Some l /\ now < expiresAt l)
            \/ (acquiredAt l = now
                /\ expiresAt l = now + TMUX_LOCK_TIMEOUT E)).
  { intros l. unfold acquireLock, loadLocks, saveLocks.
    destruct (lockFile w !! name) as [existing|] eqn:Hl.
    - destruct (Z.gtb_spec (expiresAt existing) now) as [Hgt|Hle];
        cbn [snd lockFile set_lockFile].
      + rewrite Hl. intros [= <-]. left. split; [reflexivity | lia].
      + rewrite lookup_insert_eq. intros [= <-]. right. split; reflexivity.
    - cbn [snd lockFile set_lockFile]. rewrite lookup_insert_eq.
      intros [= <-]. right. split; reflexivity. }
  split; [exact Hother|]. split; [exact Hown|].
  intros Hpos l Hl. destruct (Hown l Hl) as [[_ H]|[_ H]]; lia.
Qed.

End LockThms.

Section LockExamples.
Import Bridge.

(** C8, as the spec has it, fails: the lock of session [b] expired at 10
    and is still in the lock file after an acquire for [a] at 100. *)
Lemma acquireLock_keeps_expired_lock :
  let '(r, w') := acquireLock quietEnv (Js.lit "a") 100 staleWorld in
  r <> None
  /\ exists l, lockFile w' !! Js.lit "b" = Some l /\ expiresAt l <= 100.
Proof.
  vm_compute. split; [discriminate|].
  eexists. split; [reflexivity|]. discriminate.
Qed.

(** The condition on the timeout is needed: with a timeout of zero the new
    lock has expired as soon as it is stored. *)
Example acquireLock_zero_timeout_expires_at_once :
  let E0 := mkEnv (config quietEnv) 0 600000 (tmux quietEnv)
                  (statusCallback quietEnv) in
  let w' := snd (acquireLock E0 (Js.lit "a") 100 newBridge) in
  (exists l, lockFile w' !! Js.lit "a" = Some l /\ expiresAt l = 100)
  /\ ~ lockHeld w' (Js.lit "a") 100.
Proof.
  cbv zeta. split.
  - eexists. split; vm_compute; reflexivity.
  - intros (l & Hl & Hlt). vm_compute in Hl. injection Hl as <-.
    vm_compute in Hlt. discriminate.
Qed.

(** C8, witness: the stale lock of [b] is still there after the acquire
    for [a], and the lock of [a] has not expired. *)
Lemma acquireLock_touches_own_entry_only_witness :
  0 < TMUX_LOCK_TIMEOUT quietEnv
  /\ lockFile (snd (acquireLock quietEnv (Js.lit "a") 100 staleWorld)) !! Js.lit "b"
     = lockFile staleWorld !! Js.lit "b"
  /\ forall l,
       lockFile (snd (acquireLock quietEnv (Js.lit "a") 100 staleWorld))
         !! Js.lit "a" = Some l ->
       100 < expiresAt l.
Proof.
  split; [reflexivity|].
  destruct (acquireLock_touches_own_entry_only quietEnv (Js.lit "a") 100
              staleWorld) as (Hother & _ & Hown).
  split.
  - apply Hother. discriminate.
  - apply Hown. reflexivity.
Defined.

(** C7, witness: at time 5 the lock of [b] has not expired, the acquire is
    refused and nothing changes. *)
Lemma acquireLock_refuses_iff_held_witness :
  lockHeld staleWorld (Js.lit "b") 5
  /\ snd (acquireLock quietEnv (Js.lit "b") 5 staleWorld) = staleWorld.
Proof.
  assert (H : lockHeld staleWorld (Js.lit "b") 5).
  { exists staleLock. split; [reflexivity | reflexivity]. }
  split; [exact H|].
  apply (proj1 (proj2 (acquireLock_refuses_iff_held quietEnv (Js.lit "b") 5 staleWorld))).
  exact H.
Defined.

End LockExamples.

Section OpsThms.
Import Bridge.
Variable E : Env.

Lemma executeTmux_state args w :
  sameState w (snd (executeTmux E args w)).
Proof.
  unfold executeTmux. destruct (tmux E _ args); repeat split.
Qed.

Lemma capturePane_state w : sameState w (snd (capturePane E w)).
Proof.
  unfold capturePane. destruct (currentSession w).
  - apply executeTmux_state.
  - repeat split.
Qed.

Lemma waitForPrompt_state startWait waits w :
  sameState w (snd (waitForPrompt E startWait waits w)).
Proof.
  revert w. induction waits as [|t waits IH]; intros w; simpl.
  - repeat split.
  - destruct (t - startWait <? 30000); [|repeat split].
    pose proof (capturePane_state w) as Hc.
    destruct (capturePane E w) as [[pane|f] w1]; cbn [snd] in *.
    + destruct (Js.includes pane _); [exact Hc|].
      destruct Hc as (H1 & H2 & H3), (IH w1) as (H1' & H2' & H3').
      repeat split; congruence.
    + exact Hc.
Qed.

Lemma ownerIsCurrent_save w s :
  (forall name, ownedIn w name -> name = sessionName s) ->
  currentSession w = Some s ->
  ownerIsCurrent (saveSessionMetadata w).
Proof.
  intros Hown Hcur name (m & Hm & Ho). unfold saveSessionMetadata in *.
  rewrite Hcur in *. simpl in *. exists s. split; [exact Hcur|].
  destruct (decide (sessionName s = name)) as [|Hne]; [assumption|].
  rewrite lookup_insert_ne in Hm by assumption.
  symmetry. apply Hown. exists m. auto.
Qed.

Lemma createSession_ownerIsCurrent n r now waits w :
  ownerIsCurrent w -> currentSession w = None ->
  ownerIsCurrent (snd (createSession E n r now waits w)).
Proof.
  intros Hinv Hnone. unfold createSession.
  set (name := match n with Some _ => _ | None => _ end).
  set (cmd := match r with Some _ => _ | None => _ end).
  assert (Hkeep : forall w', sameState w w' -> ownerIsCurrent w').
  { intros w' (H1 & H2 & _) k (m & Hm & Ho). rewrite H2 in Hm.
    destruct (Hinv k) as (s & Hs & _); [exists m; auto|]. congruence. }
  pose proof (executeTmux_state
                [Js.lit "new-session"; Js.lit "-d"; Js.lit "-s"; name;
                 Js.lit "-c"; configWorkingDir (config E); Js.lit "-x";
                 Js.lit "200"; Js.lit "-y"; Js.lit "50"; cmd] w) as H1.
  destruct (executeTmux E _ w) as [[o1|f1] w1]; cbn [snd] in *;
    [|apply Hkeep; exact H1].
  pose proof (executeTmux_state
                [Js.lit "set-option"; Js.lit "-t"; name; Js.lit "history-limit";
                 Js.ofNumber (historyLimit (config E))] w1) as H2.
  destruct (executeTmux E _ w1) as [[o2|f2] w2]; cbn [snd] in *.
  2:{ apply Hkeep. destruct H1 as (?&?&?), H2 as (?&?&?). repeat split; congruence. }
  set (session := mkSession name _ _ _ _ _ _ _ _ _).
  set (w3 := saveSessionMetadata (set_currentSession w2 (Some session))).
  assert (H3 : ownerIsCurrent w3).
  { apply (ownerIsCurrent_save _ session); [|reflexivity].
    intros k (m & Hm & Ho). exfalso.
    destruct H1 as (Hc1 & Hs1 & _), H2 as (Hc2 & Hs2 & _).
    simpl in Hm. rewrite Hs2, Hs1 in Hm.
    destruct (Hinv k) as (s & Hs & _); [exists m; auto|]. congruence. }
  pose proof (waitForPrompt_state now waits w3) as H4.
  assert (H5 : ownerIsCurrent (snd (waitForPrompt E now waits w3))).
  { destruct H4 as (Hc4 & Hs4 & _). intros k (m & Hm & Ho).
    rewrite Hs4 in Hm. rewrite Hc4. apply H3. exists m. auto. }
  destruct (waitForPrompt E now waits w3) as [[[[]|f]|[]] w4]; exact H5.
Qed.

Lemma listSessions_state now w : sameState w (snd (listSessions E now w)).
Proof.
  unfold listSessions.
  pose proof (executeTmux_state
    [Js.lit "list-sessions"; Js.lit "-F";
     Js.lit "#{session_name}:#{window_id}:#{pane_id}:#{pane_current_path}:#{pane_pid}"]
    w) as H.
  destruct (executeTmux E _ w) as [[o|f] w1]; exact H.
Qed.

Lemma find_name sessions name s :
  List.find (fun s => Js.eqb (sessionName s) name) sessions = Some s ->
  sessionName s = name.
Proof. intros H. apply find_some in H as [_ H]. apply js_eqb_eq. exact H. Qed.

Lemma attachToSession_ownerIsCurrent name now w :
  ownerIsCurrent w ->
  (forall s, currentSession w = Some s -> sessionName s = name) ->
  ownerIsCurrent (snd (attachToSession E name now w)).
Proof.
  intros Hinv Hrel. unfold attachToSession.
  pose proof (listSessions_state now w) as (Hc1 & Hs1 & _).
  destruct (listSessions E now w) as [sessions w1]. cbn [snd] in *.
  destruct (List.find _ sessions) as [target|] eqn:Hf; cbn [snd].
  - set (target' := set_lastActivity _ now).
    set (w2 := set_currentSession w1 (Some target')).
    pose proof (executeTmux_state
      [Js.lit "set-option"; Js.lit "-t"; name; Js.lit "history-limit";
       Js.ofNumber (historyLimit (config E))] w2) as (Hc3 & Hs3 & _).
    destruct (executeTmux E _ w2) as [o3 w3]. cbn [snd] in *.
    apply (ownerIsCurrent_save _ target').
    + intros k (m & Hm & Ho). rewrite Hs3 in Hm. simpl in Hm. rewrite Hs1 in Hm.
      destruct (Hinv k) as (s & Hs & Hn); [exists m; auto|].
      simpl. rewrite (find_name _ _ _ Hf). rewrite <- Hn.
      apply Hrel. exact Hs.
    + rewrite Hc3. reflexivity.
  - intros k (m & Hm & Ho). rewrite Hs1 in Hm. rewrite Hc1.
    apply Hinv. exists m. auto.
Qed.

Lemma markForExit_ownerIsCurrent now w :
  ownerIsCurrent w -> ownerIsCurrent (markForExit now w).
Proof.
  intros Hinv. unfold markForExit.
  destruct (currentSession w) as [s|] eqn:Hcur; [|exact Hinv].
  assert (Hnone : forall s' : TmuxSession,
             sessionName s' = sessionName s -> isOwned s' = false ->
             forall k m, <[sessionName s' := metadataOf s']> (sessionFile w) !! k = Some m ->
                         metaIsOwned m = true -> False).
  { intros s' Hn Hf k m Hm Ho.
    destruct (decide (sessionName s' = k)) as [<-|Hne].
    - rewrite lookup_insert_eq in Hm. injection Hm as <-. simpl in Ho. congruence.
    - rewrite lookup_insert_ne in Hm by assumption.
      destruct (Hinv k) as (s0 & Hs0 & Hn0); [exists m; auto|]. congruence. }
  destruct (createdBy s); intros k (m & Hm & Ho); exfalso;
    unfold saveSessionMetadata in Hm; simpl in Hm;
    eapply Hnone; try exact Hm; try exact Ho; reflexivity.
Qed.

Lemma killSession_ownerIsCurrent name w :
  ownerIsCurrent w -> ownerIsCurrent (killSession E name w).
Proof.
  intros Hinv. unfold killSession.
  pose proof (executeTmux_state [Js.lit "kill-session"; Js.lit "-t"; name] w)
    as (Hc1 & Hs1 & _).
  destruct (executeTmux E _ w) as [[o|f] w1]; cbn [snd] in *.
  - intros k (m & Hm & Ho). simpl in Hm.
    assert (Hne : name <> k).
    { intros ->. rewrite lookup_delete_eq in Hm. discriminate. }
    rewrite lookup_delete_ne in Hm by assumption.
    assert (Hm1 : sessionFile w !! k = Some m).
    { destruct (currentSession w1) as [s|]; [destruct (Js.eqb _ _)|];
        simpl in Hm; rewrite Hs1 in Hm; exact Hm. }
    destruct (Hinv k) as (s0 & Hs0 & Hn0); [exists m; auto|].
    exists s0. split; [|exact Hn0]. simpl. rewrite Hc1, Hs0.
    destruct (Js.eqb (sessionName s0) name) eqn:He.
    + apply js_eqb_eq in He. congruence.
    + rewrite Hc1. exact Hs0.
  - intros k (m & Hm & Ho). rewrite Hs1 in Hm. rewrite Hc1.
    apply Hinv. exists m. auto.
Qed.

Lemma ownerIsCurrent_atMostOne w : ownerIsCurrent w -> atMostOneOwned w.
Proof.
  intros H a b Ha Hb.
  destruct (H a Ha) as (s & Hs & <-), (H b Hb) as (s' & Hs' & <-). congruence.
Qed.

(** What holds of the owned flags. Creating or attaching sets the owned
    flag of the target and clears no other; so the session file has at
    most one owned session, the current one, only as long as the caller
    releases the current session (by [markForExit] or [killSession])
    before it creates a session or attaches to a different one. *)
Theorem one_owner_when_released_first (ops : list (Op)) (w : World) :
  ownerIsCurrent w -> disciplined E ops w ->
  ownerIsCurrent (runOps E ops w) /\ atMostOneOwned (runOps E ops w).
Proof.
  intros Hinv Hd.
  enough (ownerIsCurrent (runOps E ops w)) by (split; [|apply ownerIsCurrent_atMostOne]; assumption).
  revert w Hinv Hd. unfold runOps.
  induction ops as [|op ops IH]; intros w Hinv Hd; simpl.
  - exact Hinv.
  - destruct Hd as [Hrel Hd]. apply IH; [|exact Hd].
    destruct op as [n r now waits|name now|now|name]; simpl in *.
    + apply createSession_ownerIsCurrent; assumption.
    + apply attachToSession_ownerIsCurrent; assumption.
    + apply markForExit_ownerIsCurrent; assumption.
    + apply killSession_ownerIsCurrent; assumption.
Qed.

End OpsThms.

Section OpsExamples.
Import Bridge.

(** C9 (the code departs from the claim). The bridge creates session [a]
    and is then told to attach to session [b], or to create [b]: [b]
    becomes the current session and is marked as owned, and [a] is still
    marked as owned in the session file. *)
Theorem switching_leaves_two_owners :
  let created := runOps listingEnv
                   [CreateSession (Some (Js.lit "a")) None 0 [1000; 31000]]
                   newBridge in
  let afterAttach := runOps listingEnv [AttachToSession (Js.lit "b") 40000]
                            created in
  let afterCreate := runOps listingEnv
                       [CreateSession (Some (Js.lit "b")) None 40000
                                      [41000; 71000]] created in
  (forall name, ownedIn created name -> name = Js.lit "a")
  /\ (exists s, currentSession afterAttach = Some s
                /\ sessionName s = Js.lit "b")
  /\ ownedIn afterAttach (Js.lit "a") /\ ownedIn afterAttach (Js.lit "b")
  /\ ~ atMostOneOwned afterAttach
  /\ ownedIn afterCreate (Js.lit "a") /\ ownedIn afterCreate (Js.lit "b")
  /\ ~ atMostOneOwned afterCreate.
Proof.
  cbv zeta.
  set (created := runOps listingEnv _ newBridge).
  set (afterAttach := runOps listingEnv [AttachToSession _ _] created).
  set (afterCreate := runOps listingEnv
                        [CreateSession (Some (Js.lit "b")) _ _ _] created).
  assert (Hc : sessionFile created
               = {[ Js.lit "a" := mkMeta telegram true false None 0 ]}).
  { vm_compute. reflexivity. }
  assert (Haa : ownedIn afterAttach (Js.lit "a")).
  { eexists. split; [vm_compute; reflexivity | reflexivity]. }
  assert (Hab : ownedIn afterAttach (Js.lit "b")).
  { eexists. split; [vm_compute; reflexivity | reflexivity]. }
  assert (Hra : ownedIn afterCreate (Js.lit "a")).
  { eexists. split; [vm_compute; reflexivity | reflexivity]. }
  assert (Hrb : ownedIn afterCreate (Js.lit "b")).
  { eexists. split; [vm_compute; reflexivity | reflexivity]. }
  split.
  { intros name (m & Hm & _). rewrite Hc in Hm.
    destruct (decide (name = Js.lit "a")) as [->|Hne]; [reflexivity|].
    rewrite lookup_singleton_ne in Hm by congruence. discriminate. }
  split; [eexists; split; vm_compute; reflexivity|].
  split; [exact Haa|]. split; [exact Hab|].
  split; [intros H; specialize (H _ _ Haa Hab); discriminate|].
  split; [exact Hra|]. split; [exact Hrb|].
  intros H. specialize (H _ _ Hra Hrb). discriminate.
Qed.

(** The same with two [createSession] calls on an environment whose
    readiness loop ends at once. *)
Lemma two_created_sessions_both_owned :
  let w := runOps quietEnv
             [CreateSession (Some (Js.lit "a")) None 1 [2];
              CreateSession (Some (Js.lit "b")) None 3 [4]] newBridge in
  ownedIn w (Js.lit "a") /\ ownedIn w (Js.lit "b") /\ ~ atMostOneOwned w.
Proof.
  cbv zeta.
  assert (Ha : ownedIn (runOps quietEnv
             [CreateSession (Some (Js.lit "a")) None 1 [2];
              CreateSession (Some (Js.lit "b")) None 3 [4]] newBridge) (Js.lit "a")).
  { eexists. split; [vm_compute; reflexivity | reflexivity]. }
  assert (Hb : ownedIn (runOps quietEnv
             [CreateSession (Some (Js.lit "a")) None 1 [2];
              CreateSession (Some (Js.lit "b")) None 3 [4]] newBridge) (Js.lit "b")).
  { eexists. split; [vm_compute; reflexivity | reflexivity]. }
  split; [exact Ha|]. split; [exact Hb|].
  intros H. specialize (H _ _ Ha Hb). discriminate.
Qed.

(** A sequence that releases first: create [a], release it, create [b]. *)
Lemma one_owner_when_released_first_witness :
  let ops := [CreateSession (Some (Js.lit "a")) None 1 [2]; MarkForExit 5;
              CreateSession (Some (Js.lit "b")) None 6 [7]] in
  ownerIsCurrent newBridge /\ disciplined quietEnv ops newBridge
  /\ atMostOneOwned (runOps quietEnv ops newBridge).
Proof.
  cbv zeta.
  assert (H0 : ownerIsCurrent newBridge).
  { intros name (m & Hm & _). cbn [sessionFile newBridge] in Hm.
    rewrite lookup_empty in Hm. discriminate. }
  assert (Hd : disciplined quietEnv
                 [CreateSession (Some (Js.lit "a")) None 1 [2]; MarkForExit 5;
                  CreateSession (Some (Js.lit "b")) None 6 [7]] newBridge).
  { simpl. repeat split. }
  split; [exact H0|]. split; [exact Hd|].
  exact (proj2 (one_owner_when_released_first quietEnv _ _ H0 Hd)).
Defined.

End OpsExamples.

Section SendThms.
Import Bridge Parser.
Variable E : Env.

(** Case distinction on the condition at the head of the resulting world. *)
Ltac case_head :=
  lazymatch goal with
  | |- pollsOnly _ (snd (if ?c then _ else _)) => destruct c
  end.

Lemma pollsOnly_refl w : pollsOnly w w.
Proof.
  repeat split. exists []. split; [symmetry; apply app_nil_r | constructor].
Qed.

Lemma pollsOnly_trans w1 w2 w3 :
  pollsOnly w1 w2 -> pollsOnly w2 w3 -> pollsOnly w1 w3.
Proof.
  intros (Hc & Hl & c1 & Hg & Hf) (Hc' & Hl' & c2 & Hg' & Hf').
  split; [congruence|]. split; [congruence|].
  exists (c1 ++ c2). split.
  - rewrite Hg', Hg. symmetry. apply app_assoc.
  - apply Forall_app. auto.
Qed.

Lemma callStatus_pollsOnly kind text w :
  pollsOnly w (snd (callStatus E kind text w)).
Proof.
  unfold callStatus. destruct (statusCallback E _ kind text); cbn [snd];
    repeat split; exists []; (split; [symmetry; apply app_nil_r | constructor]).
Qed.

Lemma emitStatusCallback_pollsOnly b w :
  pollsOnly w (snd (emitStatusCallback E b w)).
Proof.
  unfold emitStatusCallback.
  destruct (type b); try apply callStatus_pollsOnly; try apply pollsOnly_refl.
  destruct (Js.truthy _); [apply callStatus_pollsOnly | apply pollsOnly_refl].
Qed.

Lemma emitAll_pollsOnly bs w : pollsOnly w (snd (emitAll E bs w)).
Proof.
  revert w. induction bs as [|b bs IH]; intros w; simpl.
  - apply pollsOnly_refl.
  - pose proof (emitStatusCallback_pollsOnly b w) as H.
    destruct (emitStatusCallback E b w) as [[[]|f] w1]; cbn [snd] in *.
    + eapply pollsOnly_trans; [exact H | apply IH].
    + exact H.
Qed.

Lemma capturePane_pollsOnly w : pollsOnly w (snd (capturePane E w)).
Proof.
  unfold capturePane. destruct (currentSession w) as [s|]; [|apply pollsOnly_refl].
  unfold executeTmux. destruct (tmux E _ _); cbn [snd]; repeat split;
    (eexists; split; [reflexivity | repeat constructor]).
Qed.

Lemma processChange_pollsOnly anchor pane tick ps w :
  pollsOnly w (snd (processChange E anchor pane tick ps w)).
Proof.
  unfold processChange.
  destruct (extractNewContent anchor pane _) as [ps1 newContent].
  set (starts := negb (sawProcessing ps1) && _).
  assert (H1 : pollsOnly w (snd (if starts
                 then callStatus E StatusThinking (Js.lit "Processing...") w
                 else (Ok tt, w)))).
  { destruct starts; [apply callStatus_pollsOnly | apply pollsOnly_refl]. }
  destruct (if starts then _ else _) as [[[]|f] w1]; cbn [snd] in *; [|exact H1].
  case_head; [|exact H1].
  destruct (feed _ _ _) as [parser3 blocks].
  pose proof (emitAll_pollsOnly blocks w1) as H2.
  destruct (emitAll E blocks w1) as [[[]|f] w2]; cbn [snd] in *.
  - case_head.
    + destruct (getTextResponse parser3) as [p4 response].
      pose proof (callStatus_pollsOnly StatusDone []
                    (set_lastKnownPaneContent w2 pane)) as H3.
      destruct (callStatus E StatusDone [] _) as [[[]|f] w4]; cbn [snd] in *;
        (eapply pollsOnly_trans; [exact H1|];
         eapply pollsOnly_trans; [exact H2|]; exact H3).
    + eapply pollsOnly_trans; [exact H1 | exact H2].
  - eapply pollsOnly_trans; [exact H1 | exact H2].
Qed.

Lemma pollIteration_pollsOnly startTime anchor tick ps w :
  pollsOnly w (snd (pollIteration E startTime anchor tick ps w)).
Proof.
  unfold pollIteration.
  case_head; [apply pollsOnly_refl|].
  case_head; [apply pollsOnly_refl|].
  pose proof (capturePane_pollsOnly w) as H.
  destruct (capturePane E w) as [[pane|f] w1]; cbn [snd] in *; [|exact H].
  case_head; [|exact H].
  eapply pollsOnly_trans; [exact H | apply processChange_pollsOnly].
Qed.

Lemma pollLoop_pollsOnly startTime anchor ticks ps w :
  pollsOnly w (snd (pollLoop E startTime anchor ticks ps w)).
Proof.
  revert ps w. induction ticks as [|t ticks IH]; intros ps w; simpl.
  - apply pollsOnly_refl.
  - pose proof (pollIteration_pollsOnly startTime anchor t ps w) as H.
    destruct (pollIteration E startTime anchor t ps w) as [[ps'|r] w1];
      cbn [snd] in *.
    + eapply pollsOnly_trans; [exact H | apply IH].
    + exact H.
Qed.

Lemma pollForResponse_pollsOnly p msg startTime ticks w :
  pollsOnly w (snd (pollForResponse E p msg startTime ticks w)).
Proof.
  unfold pollForResponse.
  pose proof (pollLoop_pollsOnly startTime msg ticks (mkPoll p [] false false [])
                (set_pollAbortController w true)) as H.
  destruct (pollLoop E _ _ _ _ _) as [[r|ps] w1]; cbn [snd] in *; exact H.
Qed.

(** The [try] block of [sendMessage]: the session keeps its name, the
    lock file is not touched, and the tmux commands are the injection of
    the text, the Enter key, and pane captures. *)
Lemma sendKeys_log text w s :
  currentSession w = Some s ->
  currentSession (snd (sendKeys E text w)) = Some s
  /\ lockFile (snd (sendKeys E text w)) = lockFile w
  /\ tmuxLog (snd (sendKeys E text w))
     = tmuxLog w ++ [sendKeysArgs (paneTarget s) text].
Proof.
  intros Hcur. unfold sendKeys, executeTmux. rewrite Hcur.
  destruct (tmux E _ _); cbn [snd]; simpl; auto.
Qed.

Lemma sendMessageBody_effects message clock ticks w s o w' :
  currentSession w = Some s ->
  sendMessageBody E message clock ticks w = (o, w') ->
  (exists s', currentSession w' = Some s' /\ sessionName s' = sessionName s)
  /\ lockFile w' = lockFile w
  /\ exists rest,
       tmuxLog w' = tmuxLog w ++ sendKeysArgs (paneTarget s) message :: rest
       /\ Forall (fun args => args = sendKeysArgs (paneTarget s) (Js.lit "Enter")
                              \/ hd [] args = Js.lit "capture-pane") rest.
Proof.
  intros Hcur. unfold sendMessageBody.
  destruct (sendKeys_log message w s Hcur) as (Hc1 & Hl1 & Hg1).
  destruct (sendKeys E message w) as [[[]|f1] w1]; cbn [snd] in *.
  2:{ intros [= <- <-]. split; [eauto|]. split; [assumption|].
      exists []. split; [assumption | constructor]. }
  destruct (sendKeys_log (Js.lit "Enter") w1 s Hc1) as (Hc2 & Hl2 & Hg2).
  destruct (sendKeys E (Js.lit "Enter") w1) as [[[]|f2] w2]; cbn [snd] in *.
  2:{ intros [= <- <-]. split; [eauto|]. split; [congruence|].
      eexists. split.
      - rewrite Hg2, Hg1, <- app_assoc. reflexivity.
      - repeat constructor. }
  rewrite Hc2.
  set (w3 := saveSessionMetadata _).
  destruct (pollForResponse_pollsOnly fresh message (atPollStart clock) ticks w3)
    as (Hc & Hl & cmds & Hg & Hf).
  destruct (pollForResponse E fresh message _ ticks w3) as [o' w4].
  cbn [snd] in *. intros [= <- <-].
  split; [|split].
  - rewrite Hc. eexists. split; reflexivity.
  - rewrite Hl. simpl. congruence.
  - exists (sendKeysArgs (paneTarget s) (Js.lit "Enter") :: cmds). split.
    + rewrite Hg. simpl. rewrite Hg2, Hg1, <- !app_assoc. reflexivity.
    + constructor; [left; reflexivity|].
      eapply Forall_impl; [exact Hf|]. intros a Ha. right. exact Ha.
Qed.

Lemma not_held_acquires name now w :
  ~ lockHeld w name now ->
  exists lock, acquireLock E name now w
               = (Some lock, set_lockFile w (<[name := lock]> (lockFile w))).
Proof.
  intros Hn. unfold acquireLock, loadLocks, saveLocks.
  destruct (lockFile w !! name) as [existing|] eqn:Hl.
  - destruct (Z.gtb_spec (expiresAt existing) now) as [Hgt|Hle].
    + exfalso. apply Hn. exists existing. split; [exact Hl | lia].
    + eexists. reflexivity.
  - eexists. reflexivity.
Qed.

(** In a turn during which no other caller uses the bridge: once the
    lock has been acquired, whenever [sendMessage] returns or throws, the
    lock file has no entry for the session. *)
Theorem sendMessage_releases_lock (message : jsstring) (clock : SendClock)
        (ticks : list PollTick) (w w' : World) (s : TmuxSession)
        (r : result jsstring) :
  currentSession w = Some s ->
  ~ lockHeld w (sessionName s) (atAcquire clock) ->
  sendMessage E message clock ticks w = (Finished r, w') ->
  lockFile w' !! sessionName s = None.
Proof.
  intros Hcur Hfree. unfold sendMessage. rewrite Hcur.
  destruct (not_held_acquires _ _ _ Hfree) as [lock ->].
  set (w1 := set_lockFile w _).
  destruct (sendMessageBody E message clock ticks w1) as [[r0|ps] w2] eqn:Hbody;
    [|discriminate].
  destruct (sendMessageBody_effects message clock ticks w1 s _ w2 Hcur Hbody)
    as ((s' & Hs' & Hn) & _ & _).
  rewrite Hs'. intros [= <- <-]. unfold releaseLock, saveLocks, loadLocks.
  simpl. rewrite Hn. apply lookup_delete_eq.
Qed.

(** While the polling loop is still running the session stays locked. *)
Lemma sendMessage_holds_lock_while_running (message : jsstring)
      (clock : SendClock) (ticks : list PollTick) (w w' : World)
      (s : TmuxSession) (ps : PollState) :
  currentSession w = Some s ->
  ~ lockHeld w (sessionName s) (atAcquire clock) ->
  sendMessage E message clock ticks w = (Running ps, w') ->
  exists lock, lockFile w' !! sessionName s = Some lock
               /\ expiresAt lock = atAcquire clock + TMUX_LOCK_TIMEOUT E.
Proof.
  intros Hcur Hfree. unfold sendMessage. rewrite Hcur.
  destruct (not_held_acquires _ _ _ Hfree) as [lock Hacq].
  pose proof Hacq as Hacq'. unfold acquireLock in Hacq'.
  destruct (match loadLocks w !! sessionName s with Some _ => _ | None => _ end);
    [discriminate|]. injection Hacq' as Hlock _.
  rewrite Hacq.
  set (w1 := set_lockFile w _).
  destruct (sendMessageBody E message clock ticks w1) as [[r0|ps0] w2] eqn:Hbody.
  all: destruct (sendMessageBody_effects message clock ticks w1 s _ w2 Hcur Hbody)
    as (_ & Hl & _).
  - destruct (currentSession w2); discriminate.
  - intros [= <- <-]. exists lock. rewrite Hl. simpl.
    rewrite lookup_insert_eq. split; [reflexivity|]. rewrite <- Hlock. reflexivity.
Qed.

(** C10. [sendMessage] injects the message with the literal flag [-l],
    except that the message [Enter] is sent as the Enter key; no command
    it spawns delivers the text [Enter] literally. *)
Theorem sendMessage_sends_text_literally (message : jsstring)
        (clock : SendClock) (ticks : list PollTick) (w : World)
        (s : TmuxSession) :
  currentSession w = Some s ->
  ~ lockHeld w (sessionName s) (atAcquire clock) ->
  exists rest,
    tmuxLog (snd (sendMessage E message clock ticks w))
    = tmuxLog w ++ sendKeysArgs (paneTarget s) message :: rest
    /\ (message <> Js.lit "Enter" ->
        sendKeysArgs (paneTarget s) message
        = [Js.lit "send-keys"; Js.lit "-t"; paneTarget s; Js.lit "-l"; message])
    /\ (message = Js.lit "Enter" ->
        sendKeysArgs (paneTarget s) message
        = [Js.lit "send-keys"; Js.lit "-t"; paneTarget s; Js.lit "Enter"])
    /\ ~ In [Js.lit "send-keys"; Js.lit "-t"; paneTarget s; Js.lit "-l";
             Js.lit "Enter"]
            (sendKeysArgs (paneTarget s) message :: rest).
Proof.
  intros Hcur Hfree. unfold sendMessage. rewrite Hcur.
  destruct (not_held_acquires _ _ _ Hfree) as [lock ->].
  set (w1 := set_lockFile w _).
  destruct (sendMessageBody E message clock ticks w1) as [o w2] eqn:Hbody.
  destruct (sendMessageBody_effects message clock ticks w1 s _ w2 Hcur Hbody)
    as (_ & _ & rest & Hg & Hf).
  exists rest. split; [|split; [|split]].
  - destruct o as [r0|ps]; [destruct (currentSession w2)|]; exact Hg.
  - intros Hne. unfold sendKeysArgs.
    destruct (Js.eqb message (Js.lit "Enter")) eqn:He; [|reflexivity].
    apply js_eqb_eq in He. contradiction.
  - intros ->. reflexivity.
  - intros [Hin|Hin].
    + unfold sendKeysArgs in Hin.
      destruct (Js.eqb message (Js.lit "Enter")) eqn:He; [discriminate|].
      injection Hin as ->. discriminate.
    + rewrite List.Forall_forall in Hf. destruct (Hf _ Hin) as [H|H]; discriminate.
Qed.

End SendThms.

(** ** A turn amid other calls *)

Section AmidThms.
Import Bridge Parser.
Variable E : Env.

(** No session operation touches the lock file. *)
Lemma runOp_lockFile (w : World) (op : Op) :
  lockFile (runOp E w op) = lockFile w.
Proof.
  destruct op as [n r now waits|name now|now|name]; cbn [runOp].
  - unfold createSession.
    set (name := match n with Some _ => _ | None => _ end).
    set (cmd := match r with Some _ => _ | None => _ end).
    destruct (executeTmux_state E
                [Js.lit "new-session"; Js.lit "-d"; Js.lit "-s"; name;
                 Js.lit "-c"; configWorkingDir (config E); Js.lit "-x";
                 Js.lit "200"; Js.lit "-y"; Js.lit "50"; cmd] w)
      as (_ & _ & H1).
    destruct (executeTmux E _ w) as [[o1|f1] w1]; cbn [snd] in *; [|exact H1].
    destruct (executeTmux_state E
                [Js.lit "set-option"; Js.lit "-t"; name;
                 Js.lit "history-limit";
                 Js.ofNumber (historyLimit (config E))] w1) as (_ & _ & H2).
    destruct (executeTmux E _ w1) as [[o2|f2] w2]; cbn [snd] in *;
      [|congruence].
    set (w3 := saveSessionMetadata _).
    destruct (waitForPrompt_state E now waits w3) as (_ & _ & H3).
    assert (H4 : lockFile w3 = lockFile w2) by reflexivity.
    destruct (waitForPrompt E now waits w3) as [[[[]|f]|[]] w4];
      cbn [snd] in *; congruence.
  - unfold attachToSession.
    destruct (listSessions_state E now w) as (_ & _ & H1).
    destruct (listSessions E now w) as [sessions w1]; cbn [snd] in *.
    destruct (List.find _ sessions) as [target|]; cbn [snd]; [|exact H1].
    set (w2 := set_currentSession w1 _).
    destruct (executeTmux_state E
                [Js.lit "set-option"; Js.lit "-t"; name;
                 Js.lit "history-limit";
                 Js.ofNumber (historyLimit (config E))] w2) as (_ & _ & H2).
    destruct (executeTmux E _ w2) as [o w3]; cbn [snd] in *.
    unfold saveSessionMetadata. destruct (currentSession w3);
      cbn; rewrite H2; exact H1.
  - unfold markForExit. destruct (currentSession w) as [s|]; [|reflexivity].
    destruct (createdBy s); reflexivity.
  - unfold killSession.
    destruct (executeTmux_state E [Js.lit "kill-session"; Js.lit "-t"; name] w)
      as (_ & _ & H1).
    destruct (executeTmux E _ w) as [[o|f] w1]; cbn [snd] in *; [|exact H1].
    destruct (currentSession w1) as [s|]; [destruct (Js.eqb _ _)|];
      cbn; exact H1.
Qed.

Lemma runOps_lockFile (ops : list Op) (w : World) :
  lockFile (runOps E ops w) = lockFile w.
Proof.
  unfold runOps. revert w. induction ops as [|op ops IH]; intros w;
    cbn [fold_left]; [reflexivity|].
  rewrite IH. apply runOp_lockFile.
Qed.

Lemma pollLoopAmid_lockFile startTime anchor ticks ps w :
  lockFile (snd (pollLoopAmid E startTime anchor ticks ps w)) = lockFile w.
Proof.
  revert ps w. induction ticks as [|[tick others] ticks IH]; intros ps w;
    cbn [pollLoopAmid]; [reflexivity|].
  destruct (pollIteration_pollsOnly E startTime anchor tick ps w)
    as (_ & Hl & _).
  destruct (pollIteration E startTime anchor tick ps w) as [[ps'|r] w1];
    cbn [snd] in *; [|exact Hl].
  rewrite IH, runOps_lockFile. exact Hl.
Qed.

Lemma sendMessageBodyAmid_lockFile message clock beforePoll ticks w s :
  currentSession w = Some s ->
  lockFile (snd (sendMessageBodyAmid E message clock beforePoll ticks w))
  = lockFile w.
Proof.
  intros Hcur. unfold sendMessageBodyAmid.
  destruct (sendKeys_log E message w s Hcur) as (Hc1 & Hl1 & _).
  destruct (sendKeys E message w) as [[[]|f1] w1]; cbn [snd] in *;
    [|exact Hl1].
  destruct (sendKeys_log E (Js.lit "Enter") w1 s Hc1) as (Hc2 & Hl2 & _).
  destruct (sendKeys E (Js.lit "Enter") w1) as [[[]|f2] w2]; cbn [snd] in *;
    [|congruence].
  rewrite Hc2. unfold pollForResponseAmid.
  set (w3 := saveSessionMetadata _).
  assert (H3 : lockFile w3 = lockFile w2) by reflexivity.
  pose proof (pollLoopAmid_lockFile (atPollStart clock) message ticks
                (mkPoll fresh [] false false [])
                (set_pollAbortController (runOps E beforePoll w3) true)) as H4.
  cbn [lockFile set_pollAbortController] in H4.
  rewrite runOps_lockFile in H4.
  destruct (pollLoopAmid E _ _ _ _ _) as [[r|ps] w4];
    cbn [snd lockFile set_pollAbortController] in *; congruence.
Qed.

(** A turn during which nobody else uses the bridge is a turn of
    [sendMessage]. *)
Lemma pollLoopAmid_alone startTime anchor ticks ps w :
  pollLoopAmid E startTime anchor (map (fun t => (t, [])) ticks) ps w
  = pollLoop E startTime anchor ticks ps w.
Proof.
  revert ps w. induction ticks as [|t ticks IH]; intros ps w;
    cbn [map pollLoopAmid pollLoop]; [reflexivity|].
  destruct (pollIteration E startTime anchor t ps w) as [[ps'|r] w1];
    [apply IH | reflexivity].
Qed.

Lemma sendMessageAmid_alone message clock ticks w :
  sendMessageAmid E message clock [] (map (fun t => (t, [])) ticks) w
  = sendMessage E message clock ticks w.
Proof.
  unfold sendMessageAmid, sendMessage, sendMessageBodyAmid, sendMessageBody,
    pollForResponseAmid, pollForResponse.
  cbn [runOps fold_left].
  destruct (currentSession w); [|reflexivity].
  destruct (acquireLock E _ _ w) as [[lock|] w1]; [|reflexivity].
  destruct (sendKeys E message w1) as [[[]|f1] w2]; [|reflexivity].
  destruct (sendKeys E (Js.lit "Enter") w2) as [[[]|f2] w3]; [|reflexivity].
  destruct (currentSession w3); [|reflexivity].
  rewrite pollLoopAmid_alone. reflexivity.
Qed.

(** In general the lock taken for a turn is gone at its end exactly when
    the session of the turn is still the current one: the [finally]
    block releases the lock of whatever session is current then, and
    nothing when there is none. *)
Lemma sendMessageAmid_releases_iff_session_kept (message : jsstring)
      (clock : SendClock) (beforePoll : list Op)
      (ticks : list (PollTick * list Op)) (w w' : World) (s : TmuxSession)
      (r : result jsstring) :
  currentSession w = Some s ->
  ~ lockHeld w (sessionName s) (atAcquire clock) ->
  sendMessageAmid E message clock beforePoll ticks w = (Finished r, w') ->
  (lockFile w' !! sessionName s = None
   <-> exists s', currentSession w' = Some s'
                  /\ sessionName s' = sessionName s)
  /\ (currentSession w' = None -> r = Throw NullSession)
  /\ (forall lock, lockFile w' !! sessionName s = Some lock ->
        acquiredAt lock = atAcquire clock
        /\ expiresAt lock = atAcquire clock + TMUX_LOCK_TIMEOUT E).
Proof.
  intros Hcur Hfree. unfold sendMessageAmid. rewrite Hcur.
  destruct (not_held_acquires E _ _ _ Hfree) as [lock Hacq].
  pose proof Hacq as Hacq'. unfold acquireLock in Hacq'.
  destruct (match loadLocks w !! sessionName s with Some _ => _ | None => _ end);
    [discriminate|]. injection Hacq' as Hlock _.
  rewrite Hacq. set (w1 := set_lockFile w _).
  pose proof (sendMessageBodyAmid_lockFile message clock beforePoll ticks w1 s
                Hcur) as Hl.
  destruct (sendMessageBodyAmid E message clock beforePoll ticks w1)
    as [[r0|ps] w2]; [|discriminate].
  cbn [snd] in Hl.
  assert (Hheld : lockFile w2 !! sessionName s = Some lock).
  { rewrite Hl. unfold w1. cbn. apply lookup_insert_eq. }
  destruct (currentSession w2) as [s2|] eqn:Hc2; intros [= <- <-].
  - unfold releaseLock, saveLocks, loadLocks.
    cbn [currentSession lockFile set_lockFile]. rewrite Hc2.
    destruct (decide (sessionName s2 = sessionName s)) as [Heq|Hne].
    + rewrite Heq, lookup_delete_eq. split; [|split].
      * split; [eauto | reflexivity].
      * discriminate.
      * discriminate.
    + rewrite lookup_delete_ne by exact Hne. rewrite Hheld. split; [|split].
      * split; [discriminate|]. intros (s' & [= <-] & Hn). contradiction.
      * discriminate.
      * intros l [= <-]. rewrite <- Hlock. split; reflexivity.
  - rewrite Hc2, Hheld. split; [|split].
    + split; [discriminate|]. intros (s' & Hs' & _). discriminate.
    + reflexivity.
    + intros l [= <-]. rewrite <- Hlock. split; reflexivity.
Qed.

End AmidThms.

Section AmidExamples.
Import Bridge Parser.

(** C6 (the code departs from the claim). The user sends [/new] while a
    turn is running: the handler aborts the polling and calls
    [markForExit] while the loop sleeps. The loop then throws its
    cancellation, the [finally] block finds no current session and throws
    before it releases, and the lock of the session stays in the lock
    file, not expired; a turn on the same session, attached again, is
    refused. The same happens when the turn ends by its timeout. *)
Theorem sendMessage_keeps_lock_after_markForExit :
  let cancelled :=
    sendMessageAmid (scriptedEnv [seen1]) (Js.lit "hi") clock0 []
      [(mkTick 100 false 1000 1001, [MarkForExit 150]);
       (mkTick 200 true 2000 2001, [])] attached in
  let timedOut :=
    sendMessageAmid (scriptedEnv [seen1]) (Js.lit "hi") clock0 []
      [(mkTick 100 false 1000 1001, [MarkForExit 150]);
       (mkTick 400000 false 400000 400001, [])] attached in
  let lock := mkLock (Js.lit "main") 10 60010 (Js.lit "telegram-bot") in
  fst cancelled = Finished (Throw NullSession)
  /\ lockFile (snd cancelled) !! Js.lit "main" = Some lock
  /\ fst (sendMessage (scriptedEnv [seen1]) (Js.lit "again")
            (mkClock 3000 3001 3002) []
            (set_currentSession (snd cancelled) (Some mainSession)))
     = Finished (Throw LockBusy)
  /\ fst timedOut = Finished (Throw NullSession)
  /\ lockFile (snd timedOut) !! Js.lit "main" = Some lock.
Proof. vm_compute. repeat split. Qed.

End AmidExamples.

Section Witnesses.
Import Parser Bridge.

(** C1, witness: a response line and a text line, then the text line
    alone (the displacement branch of [feed] is taken). *)
Lemma suffix_refeed_changes_nothing_witness :
  Sanitizer.cleanOutput (responseLine "hi" ++ LF ++ Js.lit "more")
  = (responseLine "hi" ++ LF) ++ Sanitizer.cleanOutput (Js.lit "more")
  /\ snd (getTextResponse
            (fst (feed 2 (Js.lit "more")
                    (fst (feed 1 (responseLine "hi" ++ LF ++ Js.lit "more") fresh)))))
     = snd (getTextResponse
              (fst (feed 1 (responseLine "hi" ++ LF ++ Js.lit "more") fresh))).
Proof.
  split; [reflexivity|].
  apply (suffix_refeed_changes_nothing 1 2
           (responseLine "hi" ++ LF ++ Js.lit "more") (Js.lit "more")
           (responseLine "hi" ++ LF)).
  reflexivity.
Defined.

(** C3, witness: a reachable parser whose timestamp is zero, a completion
    having been revoked. *)
Lemma reset_is_not_complete_witness :
  reachable (revokeCompletion (fst (feed 1000 pane1 fresh)))
  /\ promptDetectedAt (revokeCompletion (fst (feed 1000 pane1 fresh))) = 0
  /\ isComplete 5000 (revokeCompletion (fst (feed 1000 pane1 fresh))) = false.
Proof.
  assert (H : reachable (revokeCompletion (fst (feed 1000 pane1 fresh)))).
  { apply reach_revokeCompletion, reach_feed; [apply reach_fresh | lia]. }
  split; [exact H|]. split; [reflexivity|].
  apply (proj2 reset_is_not_complete _ 5000 H). reflexivity.
Defined.

(** The revocation scenario end to end: complete after the first prompt,
    back to work at the tool line, and both answers in the final text. *)
Example revocation_scenario :
  let p1 := fst (feed 1000 pane1 fresh) in
  let p2 := fst (feed 2000 pane2 (revokeCompletion p1)) in
  let p3 := fst (feed 3000 pane3 (revokeCompletion p2)) in
  state p1 = COMPLETE
  /\ state p2 = TOOL_USE
  /\ state p3 = COMPLETE
  /\ snd (getTextResponse p3) = Js.lit "first" ++ LF ++ Js.lit "second".
Proof. vm_compute. repeat split. Qed.

(** The same through the polling loop of the bridge: the second tick
    revokes the completion seen by the first. *)
Example revocation_in_poll_loop :
  match sendMessage (scriptedEnv [seen1; seen2; seen3]) (Js.lit "hi") clock0
          [mkTick 100 false 1000 1001; mkTick 200 false 2000 2001;
           mkTick 300 false 3000 6000] attached with
  | (Finished (Ok text), w') =>
      text = markedLine "first" ++ LF ++ Js.lit "second"
      /\ lockFile w' !! Js.lit "main" = None
  | _ => False
  end.
Proof. vm_compute. split; reflexivity. Qed.

(** An undisturbed turn that ends with a reply. *)
Lemma sendMessage_releases_lock_witness :
  currentSession attached
  = Some (mkSession (Js.lit "main") (Js.lit "0") (Js.lit "0") (Js.lit "/work")
                    true cli true false None 0)
  /\ ~ lockHeld attached (Js.lit "main") 10
  /\ lockFile (snd (sendMessage (scriptedEnv [seen1]) (Js.lit "hi") clock0
                      [mkTick 100 false 1000 3000] attached))
       !! Js.lit "main" = None.
Proof.
  assert (Hfree : ~ lockHeld attached (Js.lit "main") 10).
  { intros (l & Hl & _). discriminate. }
  split; [reflexivity|]. split; [exact Hfree|].
  apply (sendMessage_releases_lock (scriptedEnv [seen1]) (Js.lit "hi") clock0
           [mkTick 100 false 1000 3000] attached
           (snd (sendMessage (scriptedEnv [seen1]) (Js.lit "hi") clock0
                   [mkTick 100 false 1000 3000] attached))
           (mkSession (Js.lit "main") (Js.lit "0") (Js.lit "0") (Js.lit "/work")
                      true cli true false None 0)
           (Ok (markedLine "first"))).
  - reflexivity.
  - exact Hfree.
  - vm_compute. reflexivity.
Defined.

(** Every way out of [sendMessage]: a reply, a timeout, a cancellation,
    a failing key injection, a failing capture, a throwing callback; the
    lock file is empty each time. While the loop runs the lock is held. *)
Example sendMessage_exit_paths :
  let run E ticks := sendMessage E (Js.lit "hi") clock0 ticks attached in
  let unlocked (w : World) := lockFile w !! Js.lit "main" = None in
  (fst (run (scriptedEnv [seen1]) [mkTick 100 false 1000 3000])
   = Finished (Ok (markedLine "first"))
   /\ unlocked (snd (run (scriptedEnv [seen1]) [mkTick 100 false 1000 3000])))
  /\ (fst (run (scriptedEnv [seen1]) [mkTick 400000 false 1000 3000])
      = Finished (Throw ResponseTimeout)
      /\ unlocked (snd (run (scriptedEnv [seen1]) [mkTick 400000 false 1000 3000])))
  /\ (fst (run (scriptedEnv [seen1]) [mkTick 100 true 1000 3000])
      = Finished (Throw ResponseCancelled)
      /\ unlocked (snd (run (scriptedEnv [seen1]) [mkTick 100 true 1000 3000])))
  /\ (fst (run (failingEnv 0 [seen1]) [mkTick 100 false 1000 3000])
      = Finished (Throw (TmuxFailed (Js.lit "send-keys")))
      /\ unlocked (snd (run (failingEnv 0 [seen1]) [mkTick 100 false 1000 3000])))
  /\ (fst (run (failingEnv 2 [seen1]) [mkTick 100 false 1000 3000])
      = Finished (Throw (TmuxFailed (Js.lit "capture-pane")))
      /\ unlocked (snd (run (failingEnv 2 [seen1]) [mkTick 100 false 1000 3000])))
  /\ (fst (run (deafEnv [seen1]) [mkTick 100 false 1000 3000])
      = Finished (Throw CallbackFailed)
      /\ unlocked (snd (run (deafEnv [seen1]) [mkTick 100 false 1000 3000])))
  /\ (exists ps lock,
         fst (run (scriptedEnv [seen1]) [mkTick 100 false 1000 1001]) = Running ps
         /\ lockFile (snd (run (scriptedEnv [seen1]) [mkTick 100 false 1000 1001]))
              !! Js.lit "main" = Some lock).
Proof.
  cbv zeta. repeat split; try (vm_compute; reflexivity).
  eexists. eexists. split; vm_compute; reflexivity.
Qed.

(** C10, witness: the message [Enter] is sent as the Enter key. *)
Lemma sendMessage_sends_text_literally_witness :
  ~ lockHeld attached (Js.lit "main") 10
  /\ exists rest,
       tmuxLog (snd (sendMessage (scriptedEnv [pane1]) (Js.lit "Enter") clock0
                       [mkTick 100 false 1000 3000] attached))
       = [Js.lit "send-keys"; Js.lit "-t"; Js.lit "main:0.0"; Js.lit "Enter"]
           :: rest.
Proof.
  assert (Hfree : ~ lockHeld attached (Js.lit "main") 10).
  { intros (l & Hl & _). discriminate. }
  split; [exact Hfree|].
  destruct (sendMessage_sends_text_literally (scriptedEnv [pane1])
              (Js.lit "Enter") clock0 [mkTick 100 false 1000 3000] attached
              (mkSession (Js.lit "main") (Js.lit "0") (Js.lit "0")
                         (Js.lit "/work") true cli true false None 0)
              eq_refl Hfree) as (rest & Hlog & _).
  exists rest. exact Hlog.
Defined.

End Witnesses.

(** * Further properties of the code *)

(** ** Cleaning of the captured text *)

Section SanitizerFacts.
Import Re PATTERNS Sanitizer.

Lemma includes_unit (s : jsstring) (c : N) :
  Js.includes s [c] = true <-> In c s.
Proof.
  induction s as [|x s IH]; simpl.
  - split; [discriminate | tauto].
  - rewrite orb_true_iff, IH, andb_true_r, N.eqb_eq. intuition congruence.
Qed.

Lemma split_parts_in (sep : N) (s part : jsstring) (c : N) :
  In part (Js.split sep s) -> In c part -> In c s /\ c <> sep.
Proof.
  revert part. induction s as [|x s IH]; intros part; simpl.
  - intros [<-|[]] [].
  - destruct (N.eqb_spec x sep) as [->|Hne].
    + intros [<-|Hin] Hc; [destruct Hc|].
      destruct (IH _ Hin Hc). auto.
    + destruct (Js.split sep s) as [|l ls] eqn:Hs.
      * intros [<-|[]] [<-|[]]. auto.
      * intros [<-|Hin] Hc.
        -- destruct Hc as [<-|Hc]; [auto|].
           destruct (IH l (or_introl eq_refl) Hc). auto.
        -- destruct (IH part (or_intror Hin) Hc). auto.
Qed.

Lemma split_nonempty (sep : N) (s : jsstring) : Js.split sep s <> [].
Proof.
  destruct s as [|x s]; simpl; [discriminate|].
  destruct (N.eqb x sep); [discriminate|].
  destruct (Js.split sep s); discriminate.
Qed.

Lemma last_in {A} (l : list A) (d : A) : l <> [] -> In (List.last l d) l.
Proof.
  induction l as [|x [|y l] IH]; intros H; [congruence | left; reflexivity |].
  right. apply IH. discriminate.
Qed.

Lemma join_in (sep : jsstring) (parts : list jsstring) (c : N) :
  In c (Js.join sep parts) ->
  In c sep \/ exists part, In part parts /\ In c part.
Proof.
  induction parts as [|p [|q parts] IH]; simpl.
  - intros [].
  - intros H. right. exists p. auto.
  - intros H. apply in_app_or in H as [H|H]; [right; exists p; auto|].
    apply in_app_or in H as [H|H]; [auto|].
    destruct (IH H) as [?|(part & Hp & Hc)]; [auto|].
    right. exists part. auto.
Qed.

Lemma afterLastCR_no_cr (line : jsstring) : ~ In 0x0D%N (afterLastCR line).
Proof.
  unfold afterLastCR.
  destruct (Js.includes line [0x0D%N]) eqn:Hi.
  - intros H.
    pose proof (last_in (Js.split 0x0D line) [] (split_nonempty _ _)) as Hl.
    destruct (split_parts_in _ _ _ _ Hl H) as [_ Hne]. congruence.
  - intros H. apply includes_unit in H. congruence.
Qed.

(** X1. The cleaned output never contains a carriage return. *)
Theorem cleanOutput_has_no_carriage_return (text : jsstring) :
  Js.includes (cleanOutput text) [0x0D]%N = false.
Proof.
  destruct (Js.includes (cleanOutput text) [0x0D]%N) eqn:Hi; [|reflexivity].
  exfalso. apply includes_unit in Hi. unfold cleanOutput in Hi.
  apply join_in in Hi as [[H|[]]|(part & Hp & Hc)]; [discriminate|].
  apply in_map_iff in Hp as (line & <- & _).
  exact (afterLastCR_no_cr line Hc).
Qed.

Lemma join_split (sep : N) (s : jsstring) :
  Js.join [sep] (Js.split sep s) = s.
Proof.
  induction s as [|x s IH]; simpl; [reflexivity|].
  destruct (N.eqb_spec x sep) as [->|Hne].
  - pose proof (split_nonempty sep s) as Hn.
    destruct (Js.split sep s) as [|l ls]; [congruence|].
    simpl in *. rewrite IH. reflexivity.
  - destruct (Js.split sep s) as [|l ls] eqn:Hs.
    + exfalso. exact (split_nonempty sep s Hs).
    + destruct ls; simpl in *; rewrite <- IH; reflexivity.
Qed.

Lemma ANSI_needs_escape {A} (k : @cont A) prev (c : N) (s : jsstring) :
  c <> 0x1B%N -> run ANSI k prev (c :: s) = None.
Proof.
  intros Hc. unfold ANSI, chr. cbn [run].
  destruct (N.eqb_spec 0x1B c); [congruence | reflexivity].
Qed.

Lemma stripAnsiFrom_plain (pre s : jsstring) :
  ~ In 0x1B%N pre ->
  stripAnsiFrom 0 (pre ++ s) = pre ++ stripAnsiFrom 0 s.
Proof.
  induction pre as [|c pre IH]; intros Hn; [reflexivity|].
  cbn [app stripAnsiFrom].
  rewrite ANSI_needs_escape by (intros ->; apply Hn; left; reflexivity).
  rewrite IH by (intros H; apply Hn; right; exact H). reflexivity.
Qed.

Lemma stripAnsi_plain (s : jsstring) : ~ In 0x1B%N s -> stripAnsi s = s.
Proof.
  intros H. unfold stripAnsi.
  rewrite <- (app_nil_r s) at 1. rewrite stripAnsiFrom_plain by exact H.
  simpl. apply app_nil_r.
Qed.

(** X2. Text without escape characters and carriage returns passes
    through [cleanOutput] unchanged. *)
Theorem cleanOutput_keeps_plain_text (text : jsstring) :
  Js.includes text [0x1B]%N = false ->
  Js.includes text [0x0D]%N = false ->
  cleanOutput text = text.
Proof.
  intros He Hr.
  assert (He' : ~ In 0x1B%N text) by (rewrite <- includes_unit; congruence).
  assert (Hr' : ~ In 0x0D%N text) by (rewrite <- includes_unit; congruence).
  unfold cleanOutput. rewrite stripAnsi_plain by exact He'.
  rewrite <- (join_split 0x0A text) at 2. f_equal.
  rewrite <- (map_id (Js.split 10 text)) at 2.
  apply map_ext_in. intros line Hl. unfold afterLastCR.
  destruct (Js.includes line [0x0D%N]) eqn:Hi; [|reflexivity].
  apply includes_unit in Hi.
  destruct (split_parts_in _ _ _ _ Hl Hi) as [H _]. contradiction.
Qed.

Lemma stripAnsiFrom_skip (a s : jsstring) :
  stripAnsiFrom (length a) (a ++ s) = stripAnsiFrom 0 s.
Proof. induction a as [|c a IH]; [reflexivity | exact IH]. Qed.

Lemma stripAnsiFrom_match (c : N) (s rest : jsstring) :
  run ANSI (fun _ r => Some r) None (c :: s) = Some rest ->
  stripAnsiFrom 0 (c :: s)
  = stripAnsiFrom (length (c :: s) - length rest - 1) s.
Proof. intros H. cbn [stripAnsiFrom]. rewrite H. reflexivity. Qed.

Lemma star_consumes {A} (p : N -> bool) (k : @cont A) (ps t : jsstring)
      (r : A) prev :
  Forall (fun c => p c = true) ps ->
  (forall prev', star p k prev' t = Some r) ->
  star p k prev (ps ++ t) = Some r.
Proof.
  intros Hps Ht. revert prev.
  induction Hps as [|c ps Hc _ IH]; intros prev; [apply Ht|].
  cbn [app star]. rewrite Hc, IH. reflexivity.
Qed.

(** X3. A CSI sequence - escape, bracket, parameter units from [0] to
    [?], one final unit from [@] to [~] - is removed whole, and the text
    before it is kept when it has no escape character. *)
Theorem stripAnsi_removes_csi (pre params rest : jsstring) (final : N) :
  Js.includes pre [0x1B]%N = false ->
  forallb (fun c => (0x30 <=? c)%N && (c <=? 0x3F)%N) params = true ->
  (0x40 <=? final)%N && (final <=? 0x7E)%N = true ->
  stripAnsi (pre ++ [0x1B; 0x5B]%N ++ params ++ final :: rest)
  = pre ++ stripAnsi rest.
Proof.
  intros Hpre' Hparams' Hfinal.
  assert (Hpre : ~ In 0x1B%N pre) by (rewrite <- includes_unit; congruence).
  assert (Hparams : Forall (fun c => (0x30 <=? c)%N && (c <=? 0x3F)%N = true)
                           params).
  { apply List.Forall_forall. intros c Hc.
    rewrite forallb_forall in Hparams'. apply Hparams'. exact Hc. }
  clear Hpre' Hparams'. unfold stripAnsi.
  rewrite stripAnsiFrom_plain by exact Hpre. f_equal.
  apply andb_true_iff in Hfinal as [Hlo Hhi].
  apply N.leb_le in Hlo, Hhi.
  assert (Hrun : run ANSI (fun _ r => Some r) None
                     ([0x1B; 0x5B]%N ++ params ++ final :: rest) = Some rest).
  { unfold ANSI, chr, seqs. cbn [app run]. cbn [N.eqb Pos.eqb].
    replace ((64 <=? 91)%N && (91 <=? 90)%N || (92 <=? 91)%N && (91 <=? 95)%N)
      with false by reflexivity.
    apply star_consumes; [exact Hparams|]. intros prev'.
    cbn [star].
    replace ((48 <=? final)%N && (final <=? 63)%N) with false
      by (symmetry; apply andb_false_iff; right; apply N.leb_gt; lia).
    cbn [run star].
    replace ((32 <=? final)%N && (final <=? 47)%N) with false
      by (symmetry; apply andb_false_iff; right; apply N.leb_gt; lia).
    cbn [run].
    replace ((64 <=? final)%N && (final <=? 126)%N) with true
      by (symmetry; apply andb_true_iff; split; apply N.leb_le; lia).
    reflexivity. }
  cbn [app] in *. rewrite (stripAnsiFrom_match _ _ _ Hrun).
  replace (length (27%N :: 91%N :: params ++ final :: rest) - length rest - 1)%nat
    with (length (91%N :: params ++ [final]))
    by (simpl; rewrite !length_app; simpl; lia).
  replace (91%N :: params ++ final :: rest)
    with ((91%N :: params ++ [final]) ++ rest)
    by (simpl; rewrite <- app_assoc; reflexivity).
  exact (stripAnsiFrom_skip (91%N :: params ++ [final]) rest).
Qed.

End SanitizerFacts.

(** ** Feeding the parser *)

Section BlankScreen.
Import Re PATTERNS Parser.

Lemma dropWhile_blank (s : jsstring) : blank s -> Js.dropWhile Js.isSpace s = [].
Proof.
  induction 1 as [|c s Hc _ IH]; simpl; [reflexivity|]. rewrite Hc. exact IH.
Qed.

Lemma trim_blank (s : jsstring) : blank s -> Js.trim s = [].
Proof.
  intros H. unfold Js.trim, Js.trimEnd, Js.trimStart.
  rewrite (dropWhile_blank s H). reflexivity.
Qed.

Lemma blank_lines (s : jsstring) :
  blank s -> List.Forall blank (Js.split 0x0A s).
Proof.
  intros H. apply List.Forall_forall. intros part Hp.
  apply List.Forall_forall. intros c Hc.
  unfold blank in H. rewrite List.Forall_forall in H.
  destruct (split_parts_in _ _ _ _ Hp Hc) as [Hin _]. apply H. exact Hin.
Qed.

Lemma blank_slice (start : Z) (s : jsstring) : blank s -> blank (Js.slice start s).
Proof.
  intros H. unfold Js.slice. unfold blank in *.
  rewrite List.Forall_forall in *. intros c Hc. apply H.
  apply list_elem_of_In. apply list_elem_of_In in Hc.
  eapply (subseteq_drop _ s); eassumption.
Qed.

Lemma parseLine_blank now acc line : blank line -> parseLine now acc line = acc.
Proof.
  intros H. unfold parseLine. destruct acc as [p out].
  rewrite (trim_blank line H). reflexivity.
Qed.

Lemma parseLines_blank now lines acc :
  List.Forall blank lines -> fold_left (parseLine now) lines acc = acc.
Proof.
  induction 1 as [|l ls Hl _ IH]; simpl; [reflexivity|].
  rewrite (parseLine_blank now acc l Hl). exact IH.
Qed.

Lemma filter_blank lines :
  List.Forall blank lines ->
  List.filter (fun l => Js.truthy (Js.trim l)) lines = [].
Proof.
  induction 1 as [|l ls Hl _ IH]; simpl; [reflexivity|].
  rewrite (trim_blank l Hl). exact IH.
Qed.

Lemma checkCompletion_blank now buf p :
  blank buf -> checkCompletion now buf p = p.
Proof.
  intros H. unfold checkCompletion.
  rewrite (filter_blank _ (blank_lines buf H)).
  cbv zeta. change (Js.slice (-5) (@nil jsstring)) with (@nil jsstring).
  change (Js.slice (-4) (@nil jsstring)) with (@nil jsstring).
  change (Js.join [10%N] []) with (@nil N).
  replace (test PROMPT []) with false by (vm_compute; reflexivity).
  cbn [existsb andb]. destruct (ParseState_eqb _ _); reflexivity.
Qed.

(** X4. A screen that is blank after cleaning (white space and line
    breaks only) is ignored: [feed] returns no block and leaves the
    state, the prompt timestamp, the blocks and both accumulators as
    they were; no completion is detected on it. *)
Theorem feed_ignores_blank_screen (now : Z) (raw : jsstring) (p : Parser) :
  blank (Sanitizer.cleanOutput raw) ->
  let p' := fst (feed now raw p) in
  snd (feed now raw p) = []
  /\ getBlocks p' = getBlocks p
  /\ getState p' = getState p
  /\ promptDetectedAt p' = promptDetectedAt p
  /\ textAccumulator p' = textAccumulator p
  /\ currentBlockContent p' = currentBlockContent p.
Proof.
  intros H. cbv zeta. unfold feed, getBlocks, getState.
  set (c := Sanitizer.cleanOutput raw) in *.
  destruct (displacement p c) as [|cursor].
  - rewrite (checkCompletion_blank now c p H). cbn. auto 10.
  - destruct (Js.len c <=? cursor).
    + rewrite (checkCompletion_blank now c _ H). cbn. auto 10.
    + unfold parseContent.
      rewrite (parseLines_blank now _ _ (blank_lines _ (blank_slice cursor c H))).
      rewrite (checkCompletion_blank now c _ H). cbn.
      rewrite app_nil_r. auto 10.
Qed.

End BlankScreen.

(** ** Revocation of a completion *)

Section RevocationResumes.
Import Re PATTERNS Parser.

Lemma negb_true (b : bool) : negb b = true -> b = false.
Proof. destruct b; [discriminate | reflexivity]. Qed.

Lemma shown_filters (line : jsstring) :
  shown line = true ->
  Js.truthy (Js.trim line) = true
  /\ test SEPARATOR line = false
  /\ test TABLE_BORDER (Js.trim line) = false
  /\ test UI_CHROME (Js.trim line) = false
  /\ test BOX_CHARS (Js.trim line) = false
  /\ isStatusBar (Js.trim line) = false.
Proof.
  unfold shown. rewrite !andb_true_iff.
  intros [[[[[F1 F2] F3] F4] F5] F6].
  repeat split; try apply negb_true; assumption.
Qed.

Lemma unmarked_tests (line : jsstring) :
  unmarked line = true ->
  test CLAUDE_TOOL line = false
  /\ test COLLAPSED line = false
  /\ test EDIT_FILE (Js.trim line) = false
  /\ test DIFF_LINE (Js.trim line) = false
  /\ test PERMISSION_PROMPT (Js.trim line) = false
  /\ test MENU_OPTION line = false
  /\ test PROCESSING line = false.
Proof.
  unfold unmarked. rewrite !andb_true_iff.
  intros [[[[[[U1 U2] U3] U4] U5] U6] U7].
  repeat split; apply negb_true; assumption.
Qed.

(** The three kinds of line in [parseLine]. *)
Lemma parseLine_toolCall now p out line :
  isToolCall line = true ->
  parseLine now (p, out) line
  = (set_state (if Js.truthy (currentBlockContent p)
                then set_currentBlockContent p [] else p) TOOL_USE,
     (out ++ (if Js.truthy (currentBlockContent p)
              then [mkBlock BlockText (Js.trim (currentBlockContent p))]
              else []))
       ++ [toolBlock line]).
Proof.
  unfold isToolCall. intros H. apply andb_true_iff in H as [Hs Ht].
  destruct (shown_filters line Hs) as (F1 & F2 & F3 & F4 & F5 & F6).
  unfold parseLine. rewrite F1, F2, F3, F4, F5, F6, Ht. cbn [negb orb andb].
  destruct (Js.truthy (currentBlockContent p)); [reflexivity|].
  rewrite app_nil_r. reflexivity.
Qed.

Lemma parseLine_response now p out line r :
  isResponseLine line = true -> matchRESPONSE line = Some r ->
  parseLine now (p, out) line
  = (set_state
       (set_currentBlockContent
          (set_textAccumulator p (appendLine (textAccumulator p) r)) r)
       TEXT_OUTPUT,
     out ++ [mkBlock BlockText r]).
Proof.
  unfold isResponseLine. intros H Hr. rewrite Hr, !andb_true_iff in H.
  destruct H as [[[Hs Hu] Ho] Hm]. apply negb_true in Ho.
  destruct (shown_filters line Hs) as (F1 & F2 & F3 & F4 & F5 & F6).
  destruct (unmarked_tests line Hu) as (U1 & U2 & U3 & U4 & U5 & U6 & U7).
  unfold parseLine.
  rewrite F1, F2, F3, F4, F5, F6, U1, Ho, U2, U3, U4, U5, U6, U7, Hr, Hm.
  cbn [negb orb andb]. rewrite andb_false_r. reflexivity.
Qed.

Lemma parseLine_plain now p out line :
  isPlainText line = true -> state p = TEXT_OUTPUT ->
  parseLine now (p, out) line
  = (set_state
       (set_textAccumulator
          (set_currentBlockContent p
             (appendLine (currentBlockContent p) (Js.trim line)))
          (appendLine (textAccumulator p) (Js.trim line)))
       TEXT_OUTPUT,
     out).
Proof.
  unfold isPlainText. intros H Hst. rewrite !andb_true_iff in H.
  destruct H as [[[[[[[[Hs Hu] Hm] Hui] Hp] Hts] Htr] He] Hus].
  apply negb_true in Hui, Hp, Hts, Htr, He, Hus.
  destruct (shown_filters line Hs) as (F1 & F2 & F3 & F4 & F5 & F6).
  destruct (unmarked_tests line Hu) as (U1 & U2 & U3 & U4 & U5 & U6 & U7).
  destruct (matchRESPONSE line) eqn:Hr; [discriminate|].
  unfold parseLine.
  rewrite F1, F2, F3, F4, F5, F6, U1, U2, U3, U4, U5, U6, U7, Hr, Hst.
  cbn [negb orb andb ParseState_eqb].
  rewrite Hui, Hp, Hts, Htr, He. cbn [orb andb].
  unfold accumulate. rewrite Hst, F1, Hus. reflexivity.
Qed.

Lemma parseLine_prompt now p out line :
  isPromptLine line = true -> state p = TEXT_OUTPUT ->
  parseLine now (p, out) line
  = (set_promptDetectedAt
       (set_state (fst (flushAtPrompt p out)) COMPLETE) now,
     snd (flushAtPrompt p out) ++ [mkBlock BlockPrompt (Js.trim line)]).
Proof.
  unfold isPromptLine. intros H Hst. rewrite !andb_true_iff in H.
  destruct H as [[[[Hs Hu] Hm] Hui] Hp]. apply negb_true in Hui.
  destruct (shown_filters line Hs) as (F1 & F2 & F3 & F4 & F5 & F6).
  destruct (unmarked_tests line Hu) as (U1 & U2 & U3 & U4 & U5 & U6 & U7).
  destruct (matchRESPONSE line) eqn:Hr; [discriminate|].
  unfold parseLine.
  rewrite F1, F2, F3, F4, F5, F6, U1, U2, U3, U4, U5, U6, U7, Hr, Hst.
  cbn [negb orb andb ParseState_eqb]. rewrite Hui, Hp.
  destruct (flushAtPrompt p out). reflexivity.
Qed.

(** Runs of lines of one kind. *)
Lemma parseLines_tools now tools p out :
  forallb isToolCall tools = true ->
  textAccumulator (fst (fold_left (parseLine now) tools (p, out)))
  = textAccumulator p
  /\ snd (fold_left (parseLine now) tools (p, out))
     = out ++ match tools with
              | [] => []
              | _ :: _ =>
                  if Js.truthy (currentBlockContent p)
                  then [mkBlock BlockText (Js.trim (currentBlockContent p))]
                  else []
              end
           ++ map toolBlock tools.
Proof.
  revert p out. induction tools as [|t ts IH]; intros p out H.
  - cbn. rewrite app_nil_r. auto.
  - cbn [forallb] in H. apply andb_true_iff in H as [Ht Hts].
    cbn [fold_left]. rewrite (parseLine_toolCall now p out t Ht).
    set (p' := set_state _ TOOL_USE).
    assert (Hcb : Js.truthy (currentBlockContent p') = false).
    { unfold p'. destruct (Js.truthy (currentBlockContent p)) eqn:Hc;
        [reflexivity | exact Hc]. }
    assert (Hta : textAccumulator p' = textAccumulator p).
    { unfold p'. destruct (Js.truthy (currentBlockContent p)); reflexivity. }
    destruct (IH p' ((out ++ (if Js.truthy (currentBlockContent p)
                              then [mkBlock BlockText
                                      (Js.trim (currentBlockContent p))]
                              else [])) ++ [toolBlock t]) Hts) as [I1 I2].
    split; [congruence|]. rewrite I2, Hcb. cbn [map].
    destruct ts; cbn [app]; rewrite <- !app_assoc; reflexivity.
Qed.

Lemma parseLines_plain now plains p out :
  forallb isPlainText plains = true -> state p = TEXT_OUTPUT ->
  state (fst (fold_left (parseLine now) plains (p, out))) = TEXT_OUTPUT
  /\ textAccumulator (fst (fold_left (parseLine now) plains (p, out)))
     = fold_left appendLine (map Js.trim plains) (textAccumulator p)
  /\ currentBlockContent (fst (fold_left (parseLine now) plains (p, out)))
     = fold_left appendLine (map Js.trim plains) (currentBlockContent p)
  /\ snd (fold_left (parseLine now) plains (p, out)) = out.
Proof.
  revert p. induction plains as [|l ls IH]; intros p H Hst.
  - cbn. auto.
  - cbn [forallb] in H. apply andb_true_iff in H as [Hl Hls].
    cbn [fold_left map]. rewrite (parseLine_plain now p out l Hl Hst).
    apply IH; [exact Hls | reflexivity].
Qed.

Lemma appendLine_truthy (a l : jsstring) :
  Js.truthy a = true -> Js.truthy (appendLine a l) = true.
Proof. destruct a; [discriminate | reflexivity]. Qed.

Lemma fold_appendLine_truthy (ls : list jsstring) (a : jsstring) :
  Js.truthy a = true -> Js.truthy (fold_left appendLine ls a) = true.
Proof.
  revert a. induction ls as [|l ls IH]; intros a H; [exact H|].
  cbn [fold_left]. apply IH, appendLine_truthy, H.
Qed.

Lemma slice_nonempty_cursor (cursor : Z) (s : jsstring) :
  Js.slice cursor s <> [] -> cursor < Js.len s.
Proof.
  unfold Js.slice, Js.len. intros H.
  destruct (Z.ltb_spec cursor 0) as [Hneg|Hpos]; [lia|].
  destruct (Z.lt_ge_cases cursor (Z.of_nat (length s))) as [Hlt|Hge];
    [exact Hlt|].
  exfalso. apply H. rewrite Z.min_r by lia. rewrite Nat2Z.id.
  apply drop_all.
Qed.

Lemma checkCompletion_complete now buf p :
  state p = COMPLETE -> checkCompletion now buf p = p.
Proof.
  intros Hst. unfold checkCompletion. rewrite Hst. cbn [ParseState_eqb negb].
  destruct (test PROMPT _); reflexivity.
Qed.

(** C4. Revoking a completion puts the parser back into [TEXT_OUTPUT]
    with the prompt timestamp cleared, so that it is not complete, and
    the feed that follows keeps every emitted block and all accumulated
    text. When the new content is any number of tool-invocation lines, a
    response line and lines of plain text, with or without a closing
    prompt, the tool invocations are emitted as blocks, the text of the
    response and the plain lines are appended to the accumulated text,
    and [getTextResponse] returns the text of before the revocation
    followed by them; with the closing prompt the parser is complete
    again, 2000 ms after the feed. *)
Theorem revocation_resumes_accumulation (p : Parser) (now : Z) (raw : jsstring) :
  state p = COMPLETE ->
  let p1 := revokeCompletion p in
  let p2 := fst (feed now raw p1) in
  (state p1 = TEXT_OUTPUT /\ promptDetectedAt p1 = 0
   /\ forall t, isComplete t p1 = false)
  /\ blocks p2 = blocks p ++ snd (feed now raw p1)
  /\ (exists added pending,
         textAccumulator p2 = textAccumulator p ++ added
         /\ snd (getTextResponse p2)
            = Js.trim (textAccumulator p ++ added ++ pending))
  /\ (exists rest,
         snd (getTextResponse p2) = Js.trim (textAccumulator p) ++ rest)
  /\ (forall (blanks tools : list jsstring) (response : jsstring)
             (plains : list jsstring) (closing : option jsstring)
             (r : jsstring),
        Js.split 0x0A (Js.slice (processedLength p) (Sanitizer.cleanOutput raw))
        = blanks ++ tools ++ response :: plains
            ++ match closing with Some c => [c] | None => [] end ->
        List.Forall blank blanks ->
        forallb isToolCall tools = true ->
        isResponseLine response = true ->
        matchRESPONSE response = Some r ->
        forallb isPlainText plains = true ->
        match closing with Some c => isPromptLine c = true | None => True end ->
        let said := fold_left appendLine (map Js.trim plains) r in
        let text := fold_left appendLine (map Js.trim plains)
                              (appendLine (textAccumulator p) r) in
        snd (feed now raw p1)
        = match tools with
          | [] => []
          | _ :: _ =>
              if Js.truthy (currentBlockContent p)
              then [mkBlock BlockText (Js.trim (currentBlockContent p))]
              else []
          end
          ++ map toolBlock tools ++ [mkBlock BlockText r]
          ++ match closing with
             | Some c =>
                 (if Js.truthy (Js.trim said)
                  then [mkBlock BlockText (Js.trim said)] else [])
                 ++ [mkBlock BlockPrompt (Js.trim c)]
             | None => []
             end
        /\ textAccumulator p2 = text
        /\ snd (getTextResponse p2)
           = Js.trim (match closing with
                      | Some _ => text
                      | None => appendLine text said
                      end)
        /\ match closing with
           | Some _ => forall t, isComplete t p2 = (t - now >=? 2000)
           | None => True
           end).
Proof.
  intros Hst p1 p2.
  assert (Hp1 : p1 = set_promptDetectedAt (set_state p TEXT_OUTPUT) 0).
  { unfold p1, revokeCompletion. rewrite Hst. reflexivity. }
  destruct (feed_grows now raw p1) as ([added Ha] & Hb & _). fold p2 in Ha, Hb.
  assert (Ht1 : textAccumulator p1 = textAccumulator p) by (rewrite Hp1; reflexivity).
  assert (Hb1 : blocks p1 = blocks p) by (rewrite Hp1; reflexivity).
  rewrite Ht1 in Ha. rewrite Hb1 in Hb.
  assert (Hresp : exists pending,
             snd (getTextResponse p2)
             = Js.trim (textAccumulator p ++ added ++ pending)).
  { unfold getTextResponse. cbn [snd].
    destruct (Js.truthy (currentBlockContent p2)); simpl.
    - eexists. unfold appendLine. rewrite Ha, <- app_assoc. reflexivity.
    - exists []. rewrite Ha, app_nil_r. reflexivity. }
  split; [rewrite Hp1; repeat split|].
  split; [exact Hb|].
  split; [destruct Hresp as [pending Hr]; exists added, pending; auto|].
  split; [destruct Hresp as [pending ->]; apply trim_app|].
  clear added Ha Hresp.
  intros blanks tools response plains closing r Hsplit Hblanks Htools Hresp
         Hr Hplains Hclosing said text.
  set (c := Sanitizer.cleanOutput raw) in *.
  assert (Hrt : Js.truthy r = true).
  { unfold isResponseLine in Hresp. rewrite Hr in Hresp.
    apply andb_true_iff in Hresp as [_ H]. exact H. }
  assert (Hne : Js.slice (processedLength p) c <> []).
  { intros Hnil. rewrite Hnil in Hsplit. cbn [Js.split] in Hsplit.
    destruct blanks as [|b [|b' bs]]; cbn [app] in Hsplit.
    - destruct tools as [|t [|t' ts]]; cbn [app] in Hsplit.
      + injection Hsplit as <- _. discriminate Hresp.
      + discriminate Hsplit.
      + discriminate Hsplit.
    - destruct tools; discriminate Hsplit.
    - discriminate Hsplit. }
  pose proof (slice_nonempty_cursor _ _ Hne) as Hcur.
  (* the feed takes the parsing branch *)
  assert (Hfeed : feed now raw p1
            = let '(p3, newBlocks) :=
                parseContent now (Js.slice (processedLength p) c)
                  (set_buffer (set_processedLength
                                 (set_processedLength p1 (processedLength p))
                                 (Js.len c)) c) in
              (checkCompletion now c p3, newBlocks)).
  { unfold feed, displacement. fold c.
    replace (processedLength p1) with (processedLength p)
      by (rewrite Hp1; reflexivity).
    destruct (Z.leb_spec (Js.len c) (processedLength p)) as [Hle|_]; [lia|].
    cbn [andb]. destruct (Z.leb_spec (Js.len c) (processedLength p)); [lia|].
    reflexivity. }
  set (q := set_buffer _ c) in Hfeed.
  assert (Hq : state q = TEXT_OUTPUT /\ textAccumulator q = textAccumulator p
               /\ currentBlockContent q = currentBlockContent p).
  { unfold q. rewrite Hp1. repeat split. }
  destruct Hq as (Hqs & Hqt & Hqc).
  (* the lines, run by run *)
  unfold parseContent in Hfeed. rewrite Hsplit in Hfeed.
  rewrite !fold_left_app in Hfeed.
  rewrite (parseLines_blank now blanks (q, []) Hblanks) in Hfeed.
  destruct (parseLines_tools now tools q [] Htools) as [HTt HTo].
  destruct (fold_left (parseLine now) tools (q, [])) as [pT outT].
  cbn [fst snd] in HTt, HTo. cbn [fold_left] in Hfeed.
  rewrite (parseLine_response now pT outT response r Hresp Hr) in Hfeed.
  rewrite fold_left_app in Hfeed.
  set (pR := set_state _ TEXT_OUTPUT) in Hfeed.
  destruct (parseLines_plain now plains pR (outT ++ [mkBlock BlockText r])
              Hplains eq_refl) as (HPs & HPt & HPc & HPo).
  destruct (fold_left (parseLine now) plains (pR, _)) as [pP outP].
  cbn [fst snd] in HPs, HPt, HPc, HPo.
  assert (HPt' : textAccumulator pP = text).
  { rewrite HPt. unfold pR, text. cbn. rewrite HTt, Hqt. reflexivity. }
  assert (HPc' : currentBlockContent pP = said).
  { rewrite HPc. reflexivity. }
  assert (Hsaid : Js.truthy said = true).
  { apply fold_appendLine_truthy, Hrt. }
  assert (HoutP : outP
            = match tools with
              | [] => []
              | _ :: _ =>
                  if Js.truthy (currentBlockContent p)
                  then [mkBlock BlockText (Js.trim (currentBlockContent p))]
                  else []
              end ++ map toolBlock tools ++ [mkBlock BlockText r]).
  { rewrite HPo, HTo, Hqc. cbn [app]. rewrite <- !app_assoc. reflexivity. }
  destruct closing as [cl|].
  - (* a closing prompt *)
    cbn [fold_left] in Hfeed.
    rewrite (parseLine_prompt now pP outP cl Hclosing HPs) in Hfeed.
    unfold flushAtPrompt in Hfeed. rewrite HPc', Hsaid, HPs in Hfeed.
    cbn [ParseState_eqb fst snd] in Hfeed.
    rewrite checkCompletion_complete in Hfeed by reflexivity.
    unfold p2. rewrite Hfeed. cbn [fst snd].
    split; [|split; [|split]].
    + rewrite HoutP. destruct (Js.truthy (Js.trim said));
        rewrite <- !app_assoc; reflexivity.
    + cbn. exact HPt'.
    + unfold getTextResponse. cbn. rewrite HPt'. reflexivity.
    + intros t. unfold isComplete. reflexivity.
  - (* no prompt yet *)
    cbn [fold_left] in Hfeed. unfold p2. rewrite Hfeed. cbn [fst snd].
    set (p3 := set_blocks pP _).
    destruct (checkCompletion_fields now c p3) as (_ & _ & _ & Ct & Cc & _).
    split; [|split; [|split]].
    + rewrite HoutP, app_nil_r. reflexivity.
    + rewrite Ct. exact HPt'.
    + unfold getTextResponse. rewrite Cc, Ct. cbn [currentBlockContent
        textAccumulator p3 set_blocks]. rewrite HPc', Hsaid.
      cbn [snd textAccumulator set_textAccumulator]. rewrite HPt'. reflexivity.
    + exact I.
Qed.

End RevocationResumes.

(** C4, witness: the first capture completes; after the revocation the
    screen has grown by a tool invocation, a second answer, a line of
    text and the prompt. *)
Lemma revocation_resumes_accumulation_witness :
  let raw := pane2 ++ LF ++ responseLine "second" ++ LF ++ Js.lit "and more"
               ++ LF ++ promptLine in
  let p := fst (Parser.feed 1000 pane1 Parser.fresh) in
  Parser.state p = Parser.COMPLETE
  /\ snd (Parser.getTextResponse
            (fst (Parser.feed 2000 raw (Parser.revokeCompletion p))))
     = Js.lit "first" ++ LF ++ Js.lit "second" ++ LF ++ Js.lit "and more".
Proof.
  intros raw p. split; [reflexivity|].
  destruct (revocation_resumes_accumulation p 2000 raw eq_refl)
    as (_ & _ & _ & _ & H).
  destruct (H [[]] [toolLine "Read(a.ts)"] (responseLine "second")
              [Js.lit "and more"] (Some promptLine) (Js.lit "second"))
    as (_ & _ & Htext & _).
  - reflexivity.
  - repeat constructor.
  - reflexivity.
  - reflexivity.
  - reflexivity.
  - reflexivity.
  - reflexivity.
  - exact Htext.
Defined.

Section FeedExtras.
Import Re PATTERNS Parser.

(** X5. Emitted blocks are never retracted and accumulated text is never
    lost: after a [feed] the block list is the old one followed by the
    returned blocks, and the old text accumulator is a prefix of the new. *)
Theorem feed_appends_only (now : Z) (raw : jsstring) (p : Parser) :
  getBlocks (fst (feed now raw p)) = getBlocks p ++ snd (feed now raw p)
  /\ exists added,
       textAccumulator (fst (feed now raw p)) = textAccumulator p ++ added.
Proof.
  destruct (feed_grows now raw p) as (Ht & Hb & _). split; assumption.
Qed.

Lemma displacement_ext (p q : Parser) (c : jsstring) :
  buffer p = buffer q -> processedLength p = processedLength q ->
  displacement p c = displacement q c.
Proof. intros Hb Hl. unfold displacement. rewrite Hb, Hl. reflexivity. Qed.

(** After a [feed] that parsed, the buffer is the cleaned text and the
    cursor is at its end. *)
Lemma feed_parsed_cursor now c p cursor :
  let p2 := set_buffer (set_processedLength (set_processedLength p cursor)
                                            (Js.len c)) c in
  let r := parseContent now (Js.slice cursor c) p2 in
  buffer (checkCompletion now c (fst r)) = c
  /\ processedLength (checkCompletion now c (fst r)) = Js.len c
  /\ blocks (checkCompletion now c (fst r)) = blocks p ++ snd r.
Proof.
  intros p2 r.
  destruct (checkCompletion_fields now c (fst r)) as (Hb & Hc & Hk & _).
  destruct (parseContent_framed now (Js.slice cursor c) p2) as [Hb' Hc' _ _ _].
  pose proof (parseContent_blocks now (Js.slice cursor c) p2) as Hk'.
  fold r in Hb', Hc', Hk'. rewrite Hb, Hc, Hk, Hb', Hc', Hk'. auto.
Qed.

(** X6. A re-poll is a no-op: feeding the same text a second time, in
    whatever state the parser was before the first feed, returns no
    block and leaves the blocks and both accumulators as they are. *)
Theorem refeed_same_text_is_noop (now1 now2 : Z) (raw : jsstring) (p : Parser) :
  let p1 := fst (feed now1 raw p) in
  snd (feed now2 raw p1) = []
  /\ getBlocks (fst (feed now2 raw p1)) = getBlocks p1
  /\ textAccumulator (fst (feed now2 raw p1)) = textAccumulator p1
  /\ currentBlockContent (fst (feed now2 raw p1)) = currentBlockContent p1.
Proof.
  intros p1.
  set (c := Sanitizer.cleanOutput raw).
  assert (Hidle : forall q, blocks q = blocks p1 ->
            textAccumulator q = textAccumulator p1 ->
            currentBlockContent q = currentBlockContent p1 ->
            feed now2 raw p1 = (checkCompletion now2 c q, []) ->
            snd (feed now2 raw p1) = []
            /\ getBlocks (fst (feed now2 raw p1)) = getBlocks p1
            /\ textAccumulator (fst (feed now2 raw p1)) = textAccumulator p1
            /\ currentBlockContent (fst (feed now2 raw p1))
               = currentBlockContent p1).
  { intros q Hk Ht Hcb ->. cbn [fst snd]. unfold getBlocks.
    destruct (checkCompletion_fields now2 c q) as (_ & _ & Hk' & Ht' & Hcb' & _).
    rewrite Hk', Ht', Hcb'. auto. }
  (* the shape of the parser after the first feed *)
  assert (Hfirst :
    (exists q, p1 = checkCompletion now1 c q
               /\ buffer q = buffer p
               /\ displacement q c = displacement p c
               /\ (displacement p c = NoChange
                   \/ exists cursor, displacement q c = Continue cursor
                                     /\ Js.len c <= cursor))
    \/ (buffer p1 = c /\ processedLength p1 = Js.len c
        /\ exists cursor, displacement p c = Continue cursor
                          /\ cursor < Js.len c)).
  { unfold p1, feed. fold c.
    destruct (displacement p c) as [|cursor] eqn:Hd.
    - left. exists p. cbn [fst]. auto.
    - destruct (Z.leb_spec (Js.len c) cursor) as [Hle|Hgt]; cbn [fst].
      + left. exists (set_processedLength p cursor).
        split; [reflexivity|]. split; [reflexivity|].
        assert (Hq : displacement (set_processedLength p cursor) c
                     = Continue cursor).
        { unfold displacement in Hd |- *.
          cbn [buffer processedLength set_processedLength].
          destruct (Js.truthy (buffer p)).
          2:{ rewrite !andb_false_r. reflexivity. }
          rewrite andb_true_r in Hd |- *.
          destruct (Z.leb_spec (Js.len c) (processedLength p)) as [H1|H1].
          2:{ injection Hd as <-. lia. }
          destruct (Z.leb_spec (Js.len c) cursor) as [H2|H2]; [exact Hd | lia]. }
        rewrite Hq. split; [reflexivity|]. right. exists cursor. auto.
      + right.
        destruct (feed_parsed_cursor now1 c p cursor) as (Hb & Hc & _).
        destruct (parseContent now1 (Js.slice cursor c) _) as [p3 bs].
        cbn [fst] in *. split; [exact Hb|]. split; [exact Hc|].
        exists cursor. auto. }
  destruct Hfirst as [(q & Hp1 & Hbq & Hdq & Hcase)|(Hb & Hc & cursor & Hd & Hlt)].
  - (* the first feed parsed nothing; the second takes the same branch *)
    destruct (checkCompletion_fields now1 c q) as (Hb1 & Hc1 & _).
    assert (Hd1 : displacement p1 c = displacement q c).
    { apply displacement_ext; rewrite Hp1; assumption. }
    destruct Hcase as [Hn|(cursor & Hcur & Hle)].
    + apply (Hidle p1); try reflexivity.
      unfold feed. fold c. rewrite Hd1, Hdq, Hn. reflexivity.
    + apply (Hidle (set_processedLength p1 cursor)); try reflexivity.
      unfold feed. fold c. rewrite Hd1, Hcur.
      destruct (Z.leb_spec (Js.len c) cursor); [reflexivity | lia].
  - (* the first feed parsed; now buffer and text are the same *)
    destruct (Js.truthy c) eqn:Htr.
    + apply (Hidle p1); try reflexivity.
      unfold feed, displacement. fold c. rewrite Hb, Hc, Z.leb_refl, Htr.
      cbn [andb]. rewrite js_eqb_refl. reflexivity.
    + apply (Hidle (set_processedLength p1 (Js.len c))); try reflexivity.
      unfold feed, displacement. fold c. rewrite Hb, Hc, Z.leb_refl, Htr.
      cbn [andb]. rewrite Z.leb_refl. reflexivity.
Qed.

End FeedExtras.

(** ** Locks over time *)

Section LockComposition.
Import Bridge.
Variable E : Env.

Lemma world_eta (w : World) :
  mkWorld (currentSession w) (pollAbortController w) (cleanupTimers w)
          (lastKnownPaneContent w) (lockFile w) (sessionFile w) (tmuxLog w)
          (events w) = w.
Proof. destruct w. reflexivity. Qed.

(** X7. Releasing is safe without a lock and idempotent: with no entry for
    the session the world is unchanged, a second release changes nothing,
    and the locks of other sessions are never touched. *)
Theorem releaseLock_idempotent (name : jsstring) (w : World) :
  (lockFile w !! name = None -> releaseLock name w = w)
  /\ releaseLock name (releaseLock name w) = releaseLock name w
  /\ lockFile (releaseLock name w) !! name = None
  /\ (forall other, other <> name ->
        lockFile (releaseLock name w) !! other = lockFile w !! other).
Proof.
  unfold releaseLock, saveLocks, loadLocks, set_lockFile. simpl.
  split; [|split; [|split]].
  - intros Hn. rewrite delete_id by exact Hn. apply world_eta.
  - rewrite delete_delete_eq. reflexivity.
  - apply lookup_delete_eq.
  - intros other Hne. apply lookup_delete_ne. congruence.
Qed.

(** X8. Mutual exclusion and recovery by expiry: after a successful
    acquire at [t], an acquire for the same session is refused at every
    time before [t + TMUX_LOCK_TIMEOUT] and succeeds from then on. *)
Theorem acquireLock_excludes_until_expiry (name : jsstring) (t t' : Z)
        (w : World) (lock : TmuxLock) :
  fst (acquireLock E name t w) = Some lock ->
  let w1 := snd (acquireLock E name t w) in
  (t' < t + TMUX_LOCK_TIMEOUT E ->
   acquireLock E name t' w1 = (None, w1))
  /\ (t + TMUX_LOCK_TIMEOUT E <= t' ->
      exists lock', fst (acquireLock E name t' w1) = Some lock'
                    /\ acquiredAt lock' = t'
                    /\ lockFile (snd (acquireLock E name t' w1)) !! name
                       = Some lock').
Proof.
  intros Hacq w1.
  assert (Hw1 : lockFile w1 !! name
                = Some (mkLock name t (t + TMUX_LOCK_TIMEOUT E)
                               (Js.lit "telegram-bot"))).
  { subst w1. unfold acquireLock, loadLocks, saveLocks in *.
    destruct (match lockFile w !! name with Some _ => _ | None => _ end);
      [discriminate|]. simpl. apply lookup_insert_eq. }
  clearbody w1. clear Hacq.
  unfold acquireLock, loadLocks, saveLocks. rewrite Hw1. simpl expiresAt.
  split.
  - intros Hlt. destruct (Z.gtb_spec (t + TMUX_LOCK_TIMEOUT E) t'); [reflexivity|lia].
  - intros Hge. destruct (Z.gtb_spec (t + TMUX_LOCK_TIMEOUT E) t'); [lia|].
    eexists. split; [reflexivity|]. split; [reflexivity|].
    simpl. apply lookup_insert_eq.
Qed.

(** X9. After a release the session can be locked again at once, at any
    time and whatever the lock file held before. *)
Theorem acquireLock_after_release (name : jsstring) (now : Z) (w : World) :
  exists lock,
    acquireLock E name now (releaseLock name w)
    = (Some lock,
       set_lockFile w (<[name := lock]> (lockFile w)))
    /\ expiresAt lock = now + TMUX_LOCK_TIMEOUT E.
Proof.
  unfold acquireLock, releaseLock, loadLocks, saveLocks.
  cbn [lockFile set_lockFile]. rewrite lookup_delete_eq.
  eexists. split.
  - f_equal. unfold set_lockFile. cbn. f_equal. apply insert_delete_eq.
  - reflexivity.
Qed.

End LockComposition.

(** ** Session operations one by one *)

Section SessionFacts.
Import Bridge.
Variable E : Env.

Lemma sessionOfLine_joined saved now line s :
  sessionOfLine E saved now line = Some s -> joinedWith saved now s.
Proof.
  unfold sessionOfLine, joinedWith.
  destruct (Js.truthy (nth 0 (Js.split 58 line) [])) eqn:Ht; cbn [negb];
    [|discriminate].
  intros [= <-]. cbn [sessionName isRunning createdBy isOwned markedForExit
                      markedAt lastActivity].
  split; [|split; [reflexivity|]].
  - intros H. rewrite H in Ht. discriminate.
  - destruct (saved !! _); auto.
Qed.

Lemma listSessions_shape now w :
  exists lines,
    listSessions E now w
    = (omap (sessionOfLine E (sessionFile w) now) lines,
       set_tmuxLog w (tmuxLog w ++ [listSessionsArgs]))
    /\ (tmux E (length (tmuxLog w)) listSessionsArgs = None -> lines = []).
Proof.
  unfold listSessions, executeTmux. fold listSessionsArgs.
  destruct (tmux E (length (tmuxLog w)) listSessionsArgs) as [out|].
  - eexists. split; [reflexivity | discriminate].
  - exists []. split; reflexivity.
Qed.

(** X10. [listSessions] only spawns its one tmux command; every session
    it returns is running, has a non-empty name and carries the saved
    flags of that name, or [cli], not owned, not marked when nothing is
    saved; when tmux fails the list is empty. *)
Theorem listSessions_joins_metadata (now : Z) (w : World) :
  snd (listSessions E now w) = set_tmuxLog w (tmuxLog w ++ [listSessionsArgs])
  /\ Forall (joinedWith (sessionFile w) now) (fst (listSessions E now w))
  /\ (tmux E (length (tmuxLog w)) listSessionsArgs = None ->
      fst (listSessions E now w) = []).
Proof.
  destruct (listSessions_shape now w) as (lines & -> & Hfail). cbn [fst snd].
  split; [reflexivity|]. split.
  - induction lines as [|l lines IH] in Hfail |- *; simpl; [constructor|].
    destruct (sessionOfLine E (sessionFile w) now l) eqn:Hs.
    + constructor; [eapply sessionOfLine_joined; exact Hs|].
      apply IH. intros H. specialize (Hfail H). discriminate.
    + apply IH. intros H. specialize (Hfail H). discriminate.
  - intros H. rewrite (Hfail H). reflexivity.
Qed.

Lemma find_joined saved now lines name s :
  List.find (fun s => Js.eqb (sessionName s) name)
            (omap (sessionOfLine E saved now) lines) = Some s ->
  sessionName s = name /\ joinedWith saved now s.
Proof.
  intros H. apply find_some in H as [Hin Hn]. split.
  - apply js_eqb_eq. exact Hn.
  - apply list_elem_of_In, list_elem_of_omap in Hin as (l & _ & Hl).
    eapply sessionOfLine_joined. exact Hl.
Qed.

(** X11. A successful [attachToSession] makes the named session the current
    one, owned, with the activity time of the call, and saves it; it
    keeps the exit mark that was saved for the session and the cleanup
    timers, and changes no other entry of the session file. When the
    session is not listed it throws and the bridge state stays. *)
Theorem attachToSession_takes_ownership (name : jsstring) (now : Z) (w : World) :
  match attachToSession E name now w with
  | (Ok r, w') =>
      exists s, r = Some s /\ currentSession w' = Some s
                /\ sessionName s = name /\ isOwned s = true
                /\ lastActivity s = now
                /\ markedForExit s
                   = match sessionFile w !! name with
                     | Some m => metaMarkedForExit m
                     | None => false
                     end
                /\ sessionFile w' = <[name := metadataOf s]> (sessionFile w)
                /\ cleanupTimers w' = cleanupTimers w
  | (Throw f, w') =>
      f = SessionNotFound name
      /\ w' = set_tmuxLog w (tmuxLog w ++ [listSessionsArgs])
  end.
Proof.
  unfold attachToSession.
  destruct (listSessions_shape now w) as (lines & -> & _).
  destruct (List.find _ _) as [target|] eqn:Hf.
  - apply find_joined in Hf as (Hn & _ & _ & Hj).
    unfold executeTmux. cbn [tmuxLog set_currentSession length].
    destruct (tmux E _ _);
      (eexists; split; [reflexivity|]; split; [reflexivity|];
       cbn; rewrite Hn in *; repeat split; auto;
       destruct (sessionFile w !! name); tauto).
  - split; reflexivity.
Qed.

(** X12. [killSession] never touches the lock file or the metadata of
    other sessions, and it only ever clears the current session; after a
    kill that tmux carried out the session has no metadata, no cleanup
    timer and is not the current session. *)
Theorem killSession_removes_only_target (name : jsstring) (w : World) :
  let w' := killSession E name w in
  lockFile w' = lockFile w
  /\ (forall other, other <> name ->
        sessionFile w' !! other = sessionFile w !! other)
  /\ (forall s, currentSession w' = Some s -> currentSession w = Some s)
  /\ (tmux E (length (tmuxLog w)) [Js.lit "kill-session"; Js.lit "-t"; name]
      <> None ->
      sessionFile w' !! name = None
      /\ (name ∉ cleanupTimers w')
      /\ (forall s, currentSession w' = Some s -> sessionName s <> name)).
Proof.
  unfold killSession, executeTmux. cbv zeta.
  destruct (tmux E _ _) as [out|]; cbn [snd fst].
  - cbn [currentSession set_tmuxLog].
    destruct (currentSession w) as [s0|] eqn:Hc;
      [destruct (Js.eqb (sessionName s0) name) eqn:He|];
      cbn; rewrite ?Hc; repeat split;
      try (intros other Hne; apply lookup_delete_ne; congruence);
      try apply lookup_delete_eq;
      try (apply not_elem_of_difference; right; apply elem_of_singleton;
           reflexivity);
      try discriminate; auto.
    intros s [= <-] Hn. rewrite Hn, js_eqb_refl in He. discriminate.
  - cbn. repeat split; auto; congruence.
Qed.

(** X13. [markForExit] always lets go of the current session and saves it
    as not owned. A session the bridge created is marked for exit at the
    time of the call and gets a cleanup timer; a session created outside
    keeps its mark as it was and gets no timer. No tmux command is
    spawned in either case. *)
Theorem markForExit_marks_own_sessions_only (now : Z) (w : World)
        (s : TmuxSession) :
  currentSession w = Some s ->
  let w' := markForExit now w in
  currentSession w' = None
  /\ tmuxLog w' = tmuxLog w
  /\ (forall other, other <> sessionName s ->
        sessionFile w' !! other = sessionFile w !! other)
  /\ match createdBy s with
     | telegram =>
         sessionFile w' !! sessionName s
         = Some (mkMeta telegram false true (Some now) (lastActivity s))
         /\ cleanupTimers w' = cleanupTimers w ∪ {[sessionName s]}
     | cli =>
         sessionFile w' !! sessionName s
         = Some (mkMeta cli false (markedForExit s) (markedAt s)
                        (lastActivity s))
         /\ cleanupTimers w' = cleanupTimers w
     end.
Proof.
  intros Hs. unfold markForExit. rewrite Hs.
  destruct (createdBy s) eqn:Hc; cbn; unfold metadataOf; cbn; rewrite ?Hc.
  - repeat split; try apply lookup_insert_eq.
    intros other Hne. apply lookup_insert_ne. congruence.
  - repeat split; try apply lookup_insert_eq.
    intros other Hne. apply lookup_insert_ne. congruence.
Qed.

(** X14. The cleanup timer destroys marked sessions only: when the saved
    metadata of the session is missing or not marked for exit,
    [cleanupSession] spawns nothing but the listing, and leaves the
    session file and the current session alone; the timer is removed. *)
Theorem cleanupSession_spares_unmarked (name : jsstring) (now : Z) (w : World) :
  match sessionFile w !! name with
  | Some m => metaMarkedForExit m = false
  | None => True
  end ->
  let w' := cleanupSession E name now w in
  tmuxLog w' = tmuxLog w ++ [listSessionsArgs]
  /\ sessionFile w' = sessionFile w
  /\ currentSession w' = currentSession w
  /\ lockFile w' = lockFile w
  /\ cleanupTimers w' = cleanupTimers w ∖ {[name]}.
Proof.
  intros Hm. unfold cleanupSession.
  destruct (listSessions_shape now w) as (lines & -> & _).
  destruct (List.find _ _) as [session|] eqn:Hf.
  - apply find_joined in Hf as (Hn & _ & _ & Hj). rewrite Hn in Hj.
    assert (Hmark : markedForExit session = false).
    { destruct (sessionFile w !! name); [destruct Hj as (_ & _ & -> & _)|]; tauto. }
    rewrite Hmark. cbn. auto.
  - cbn. auto.
Qed.

End SessionFacts.

(** ** Sending and polling *)

Section PollFacts.
Import Parser Bridge.
Variable E : Env.

(** X15. [sendMessage] fails fast: without a current session it throws and
    changes nothing; when the session is locked it throws, spawns no tmux
    command, calls no callback and leaves the lock file as it is. *)
Theorem sendMessage_fails_fast (message : jsstring) (clock : SendClock)
        (ticks : list PollTick) (w : World) :
  (currentSession w = None ->
   sendMessage E message clock ticks w = (Finished (Throw NoActiveSession), w))
  /\ (forall s, currentSession w = Some s ->
        lockHeld w (sessionName s) (atAcquire clock) ->
        sendMessage E message clock ticks w = (Finished (Throw LockBusy), w)).
Proof.
  split.
  - intros Hn. unfold sendMessage. rewrite Hn. reflexivity.
  - intros s Hs (l & Hl & Hlt). unfold sendMessage, acquireLock, loadLocks.
    rewrite Hs, Hl.
    destruct (Z.gtb_spec (expiresAt l) (atAcquire clock)); [reflexivity|lia].
Qed.

Lemma revoked_not_complete p :
  state (if ParseState_eqb (getState p) COMPLETE
         then revokeCompletion p else p) <> COMPLETE.
Proof.
  unfold getState, revokeCompletion.
  destruct (ParseState_eqb (state p) COMPLETE) eqn:He.
  - simpl. discriminate.
  - intros H. rewrite H in He. discriminate.
Qed.

Lemma processChange_reply anchor pane tick ps w response w' :
  processChange E anchor pane tick ps w = (Leave (Ok response), w') ->
  2000 <= tickCheckNow tick - tickFeedNow tick.
Proof.
  unfold processChange.
  destruct (extractNewContent anchor pane _) as [ps1 newContent].
  set (parser1 := if ParseState_eqb _ _ then _ else _).
  assert (H1 : state parser1 <> COMPLETE) by apply revoked_not_complete.
  destruct (if negb (sawProcessing ps1) && _ then _ else _) as [[[]|f] w1];
    [|discriminate].
  set (startsResponse := negb (sawResponse ps1) && _).
  set (parser2 := if startsResponse then reset parser1 else parser1).
  assert (H2 : state parser2 <> COMPLETE).
  { unfold parser2. destruct startsResponse; [discriminate | exact H1]. }
  destruct (_ || _); [|discriminate].
  destruct (feed_grows (tickFeedNow tick) newContent parser2) as (_ & _ & Hst).
  destruct (feed (tickFeedNow tick) newContent parser2) as [parser3 blocks].
  cbn [fst snd] in Hst.
  destruct (emitAll E blocks w1) as [[[]|f] w2]; [|discriminate].
  destruct (sawResponse ps1 || startsResponse); cbn [andb]; [|discriminate].
  unfold isComplete.
  destruct (ParseState_eqb (state parser3) COMPLETE) eqn:He; cbn [negb];
    [|discriminate].
  apply ParseState_eqb_eq in He.
  destruct (Hst He) as [Hp|[Hc _]]; [|contradiction].
  rewrite Hp.
  destruct (Z.geb_spec (tickCheckNow tick - tickFeedNow tick) 2000);
    [intros _; lia | discriminate].
Qed.

Lemma pollIteration_reply startTime anchor tick ps w response w' :
  pollIteration E startTime anchor tick ps w = (Leave (Ok response), w') ->
  2000 <= tickCheckNow tick - tickFeedNow tick.
Proof.
  unfold pollIteration.
  destruct (_ >? _); [discriminate|].
  destruct (tickAborted tick); [discriminate|].
  destruct (capturePane E w) as [[pane|f] w1]; [|discriminate].
  destruct (negb _); [|discriminate].
  apply processChange_reply.
Qed.

Lemma pollLoop_reply startTime anchor ticks ps w response w' :
  pollLoop E startTime anchor ticks ps w = (Finished (Ok response), w') ->
  Exists (fun t => 2000 <= tickCheckNow t - tickFeedNow t) ticks.
Proof.
  revert ps w. induction ticks as [|t ticks IH]; intros ps w; simpl.
  - discriminate.
  - destruct (pollIteration E startTime anchor t ps w) as [[ps1|r] w1] eqn:Hit.
    + intros H. right. eapply IH. exact H.
    + intros [= -> ->]. left. eapply pollIteration_reply. exact Hit.
Qed.

(** X16. A reply is only returned by a tick in which at least 2000 ms lie
    between the clock reading of [feed] and that of [isComplete]: every
    changed capture revokes an earlier completion, so the prompt timestamp
    that [isComplete] compares with is always the one of the same tick. *)
Theorem sendMessage_reply_needs_stable_tick (message : jsstring)
        (clock : SendClock) (ticks : list PollTick) (w w' : World)
        (response : jsstring) :
  sendMessage E message clock ticks w = (Finished (Ok response), w') ->
  Exists (fun t => 2000 <= tickCheckNow t - tickFeedNow t) ticks.
Proof.
  unfold sendMessage.
  destruct (currentSession w) as [s|]; [|discriminate].
  destruct (acquireLock E (sessionName s) (atAcquire clock) w) as [[lock|] w1];
    [|discriminate].
  unfold sendMessageBody.
  destruct (sendKeys E message w1) as [[[]|f] w2].
  2:{ destruct (currentSession w2); discriminate. }
  destruct (sendKeys E (Js.lit "Enter") w2) as [[[]|f] w3].
  2:{ destruct (currentSession w3); discriminate. }
  destruct (currentSession w3) as [s3|] eqn:Hc3. 2:{ rewrite Hc3. discriminate. }
  unfold pollForResponse.
  destruct (pollLoop E _ message ticks _ _) as [[r|ps] w4] eqn:Hloop;
    [|discriminate].
  cbn [snd]. destruct (currentSession (set_pollAbortController w4 false));
    [|discriminate].
  intros [= -> _]. eapply pollLoop_reply. exact Hloop.
Qed.

(** X17. When the pane does not change, the polling loop does nothing but
    capture: as long as no tick is past the deadline or aborted, it keeps
    running in the same poll state, however long the prompt has been
    showing. *)
Theorem pollLoop_quiet_pane_keeps_running (startTime : Z)
        (anchor pane : jsstring) (ticks : list PollTick) (ps : PollState)
        (w : World) (s : TmuxSession) :
  currentSession w = Some s ->
  (forall n args, tmux E n args = Some pane) ->
  lastOutput ps = pane ->
  Forall (fun t => tickNow t - startTime <= maxPollTimeMs (config E)
                   /\ tickAborted t = false) ticks ->
  fst (pollLoop E startTime anchor ticks ps w) = Running ps
  /\ events (snd (pollLoop E startTime anchor ticks ps w)) = events w.
Proof.
  intros Hs Htmux Hlast Hticks. revert w Hs.
  induction Hticks as [|t ticks [Ht Ha] _ IH]; intros w Hs; simpl.
  - auto.
  - unfold pollIteration.
    destruct (Z.gtb_spec (tickNow t - startTime) (maxPollTimeMs (config E)));
      [lia|].
    rewrite Ha. unfold capturePane, executeTmux. rewrite Hs, Htmux, Hlast.
    rewrite js_eqb_refl. cbn [negb].
    apply (IH (set_tmuxLog w _)). exact Hs.
Qed.

(** X18. Anchor isolation: when the sent message occurs in the capture, the
    new content is exactly what follows its last occurrence, and it is
    remembered as the last sliced content; the parser is not touched. *)
Theorem extractNewContent_after_last_anchor (anchor before after : jsstring)
        (ps : PollState) :
  anchor <> [] ->
  (forall j, occursAt anchor (before ++ anchor ++ after) j ->
             (j <= length before)%nat) ->
  extractNewContent anchor (before ++ anchor ++ after) ps
  = (mkPoll (parser ps) (lastOutput ps) (sawProcessing ps) (sawResponse ps)
            after, after).
Proof.
  intros Hne Hlast. unfold extractNewContent.
  destruct anchor as [|a anchor]; [congruence|]. cbn [Js.truthy].
  rewrite (lastIndexOf_last _ _ (length before)).
  - destruct (Z.geb_spec (Z.of_nat (length before)) 0); [|lia].
    assert (Hs : Js.slice (Z.of_nat (length before) + Js.len (a :: anchor))
                          (before ++ (a :: anchor) ++ after) = after).
    { unfold Js.slice, Js.len.
      destruct (Z.ltb_spec (Z.of_nat (length before)
                            + Z.of_nat (length (a :: anchor))) 0); [lia|].
      rewrite Z.min_l by (rewrite !length_app; lia).
      rewrite <- Nat2Z.inj_add, Nat2Z.id, app_assoc, <- length_app.
      rewrite skipn_app, skipn_all, Nat.sub_diag. reflexivity. }
    rewrite Hs. reflexivity.
  - exists before, after. auto.
  - exact Hlast.
Qed.

End PollFacts.

(** ** Status and session creation *)

Section StatusFacts.
Import Parser Bridge.
Variable E : Env.

(** The polling machinery leaves the abort controller field alone. *)
Lemma executeTmux_controller args w :
  pollAbortController (snd (executeTmux E args w)) = pollAbortController w.
Proof. unfold executeTmux. destruct (tmux E _ _); reflexivity. Qed.

Lemma callStatus_controller kind text w :
  pollAbortController (snd (callStatus E kind text w)) = pollAbortController w.
Proof. unfold callStatus. destruct (statusCallback E _ _ _); reflexivity. Qed.

Lemma sendKeys_controller text w :
  pollAbortController (snd (sendKeys E text w)) = pollAbortController w.
Proof.
  unfold sendKeys. destruct (currentSession w); [|reflexivity].
  pose proof (executeTmux_controller (sendKeysArgs (paneTarget t) text) w) as H.
  destruct (executeTmux E _ w) as [[o|f] w1]; exact H.
Qed.

Lemma capturePane_controller w :
  pollAbortController (snd (capturePane E w)) = pollAbortController w.
Proof.
  unfold capturePane. destruct (currentSession w); [|reflexivity].
  apply executeTmux_controller.
Qed.

Lemma emitStatusCallback_controller block w :
  pollAbortController (snd (emitStatusCallback E block w))
  = pollAbortController w.
Proof.
  unfold emitStatusCallback.
  destruct (type block); try apply callStatus_controller; try reflexivity.
  destruct (Js.truthy _); [apply callStatus_controller | reflexivity].
Qed.

Lemma emitAll_controller blocks w :
  pollAbortController (snd (emitAll E blocks w)) = pollAbortController w.
Proof.
  revert w. induction blocks as [|b bs IH]; intros w; cbn [emitAll];
    [reflexivity|].
  pose proof (emitStatusCallback_controller b w) as H.
  destruct (emitStatusCallback E b w) as [[[]|f] w1]; cbn [snd] in *.
  - rewrite IH. exact H.
  - exact H.
Qed.

Lemma processChange_controller anchor pane tick ps w :
  pollAbortController (snd (processChange E anchor pane tick ps w))
  = pollAbortController w.
Proof.
  unfold processChange.
  destruct (extractNewContent anchor pane _) as [ps1 newContent].
  set (startsProcessing := negb (sawProcessing ps1) && _).
  assert (H1 : pollAbortController
                 (snd (if startsProcessing
                       then callStatus E StatusThinking (Js.lit "Processing...") w
                       else (Ok tt, w)))
               = pollAbortController w).
  { destruct startsProcessing; [apply callStatus_controller | reflexivity]. }
  destruct (if startsProcessing then _ else _) as [[[]|f] w1]; cbn [snd] in *;
    [|exact H1].
  cbv zeta.
  match goal with |- context [if ?c then _ else _] => destruct c end;
    [|exact H1].
  destruct (feed _ _ _) as [parser3 blocks].
  pose proof (emitAll_controller blocks w1) as H2.
  destruct (emitAll E blocks w1) as [[[]|f] w2]; cbn [snd] in *;
    [|congruence].
  match goal with |- context [if ?c then _ else _] => destruct c end;
    [|cbn [snd]; congruence].
  destruct (getTextResponse parser3) as [p4 response].
  pose proof (callStatus_controller StatusDone []
                (set_lastKnownPaneContent w2 pane)) as H3.
  destruct (callStatus E StatusDone [] _) as [[[]|f] w4]; cbn [snd] in *;
    cbn in H3; congruence.
Qed.

Lemma pollIteration_controller startTime anchor tick ps w :
  pollAbortController (snd (pollIteration E startTime anchor tick ps w))
  = pollAbortController w.
Proof.
  unfold pollIteration.
  destruct (_ >? _); [reflexivity|].
  destruct (tickAborted tick); [reflexivity|].
  pose proof (capturePane_controller w) as H.
  destruct (capturePane E w) as [[pane|f] w1]; cbn [snd] in *; [|exact H].
  destruct (negb _); [|exact H].
  rewrite processChange_controller. exact H.
Qed.

Lemma pollLoop_controller startTime anchor ticks ps w :
  pollAbortController (snd (pollLoop E startTime anchor ticks ps w))
  = pollAbortController w.
Proof.
  revert ps w. induction ticks as [|t ts IH]; intros ps w; cbn [pollLoop];
    [reflexivity|].
  pose proof (pollIteration_controller startTime anchor t ps w) as H.
  destruct (pollIteration E startTime anchor t ps w) as [[ps'|r] w1];
    cbn [snd] in *.
  - rewrite IH. exact H.
  - exact H.
Qed.

Lemma saveSessionMetadata_controller w :
  pollAbortController (saveSessionMetadata w) = pollAbortController w.
Proof. unfold saveSessionMetadata. destruct (currentSession w); reflexivity. Qed.

(** The abort controller after the [try] block of [sendMessage]: set
    while the loop runs, clear again once it is left. *)
Lemma sendMessageBody_controller message clock ticks w o w' :
  pollAbortController w = false ->
  sendMessageBody E message clock ticks w = (o, w') ->
  pollAbortController w'
  = match o with Running _ => true | Finished _ => false end.
Proof.
  intros Hidle. unfold sendMessageBody.
  pose proof (sendKeys_controller message w) as H1.
  destruct (sendKeys E message w) as [[[]|f1] w1]; cbn [snd] in *.
  2:{ intros [= <- <-]. congruence. }
  pose proof (sendKeys_controller (Js.lit "Enter") w1) as H2.
  destruct (sendKeys E (Js.lit "Enter") w1) as [[[]|f2] w2]; cbn [snd] in *.
  2:{ intros [= <- <-]. congruence. }
  destruct (currentSession w2) as [s|].
  2:{ intros [= <- <-]. congruence. }
  unfold pollForResponse.
  set (w3 := set_pollAbortController _ true).
  pose proof (pollLoop_controller (atPollStart clock) message ticks
                (mkPoll fresh [] false false []) w3) as H3.
  destruct (pollLoop E _ _ _ _ w3) as [[r|ps] w4]; cbn [snd] in *;
    intros [= <- <-]; [reflexivity | exact H3].
Qed.

(** X19. The status follows a turn: from an idle bridge, while
    [sendMessage] is still polling [getStatus] reports that the bridge
    is responding and shows the lock taken for the turn; once
    [sendMessage] has finished, however it has, the bridge is reported
    as not responding and without a lock. *)
Theorem getStatus_tracks_sendMessage (message : jsstring) (clock : SendClock)
        (ticks : list PollTick) (w w' : World) (s : TmuxSession)
        (o : Outcome jsstring PollState) :
  currentSession w = Some s ->
  ~ lockHeld w (sessionName s) (atAcquire clock) ->
  pollAbortController w = false ->
  sendMessage E message clock ticks w = (o, w') ->
  match o with
  | Running _ =>
      statusIsResponding (getStatus w') = true
      /\ exists lock, statusLock (getStatus w') = Some lock
                      /\ acquiredAt lock = atAcquire clock
                      /\ expiresAt lock = atAcquire clock + TMUX_LOCK_TIMEOUT E
  | Finished _ =>
      statusIsResponding (getStatus w') = false
      /\ statusLock (getStatus w') = None
  end.
Proof.
  intros Hcur Hfree Hidle. unfold sendMessage. rewrite Hcur.
  destruct (not_held_acquires E _ _ _ Hfree) as [lock Hacq].
  pose proof Hacq as Hacq'. unfold acquireLock in Hacq'.
  destruct (match loadLocks w !! sessionName s with Some _ => _ | None => _ end);
    [discriminate|]. injection Hacq' as Hlock _.
  rewrite Hacq. set (w1 := set_lockFile w _).
  destruct (sendMessageBody E message clock ticks w1) as [o2 w2] eqn:Hbody.
  destruct (sendMessageBody_effects E message clock ticks w1 s _ w2 Hcur Hbody)
    as ((s2 & Hs2 & Hn) & Hl & _).
  pose proof (sendMessageBody_controller message clock ticks w1 o2 w2 Hidle Hbody)
    as Hctl.
  destruct o2 as [r|ps]; rewrite ?Hs2; intros [= <- <-]; unfold getStatus.
  - cbn. rewrite Hs2, Hctl. split; [reflexivity|].
    rewrite lookup_delete_eq. reflexivity.
  - cbn. rewrite Hs2, Hctl, Hn. split; [reflexivity|].
    exists lock. unfold loadLocks. rewrite Hl. unfold w1. cbn.
    rewrite lookup_insert_eq. rewrite <- Hlock. auto.
Qed.

(** X20. [createSession] registers the session before it waits for
    the prompt: once the two set-up commands have succeeded, the new
    session is the current one, created by telegram, owned and not
    marked, and its metadata is saved, whether the readiness loop sees
    the prompt, gives up after 30 s, is still waiting or fails on a
    capture; the lock file is not touched. *)
Theorem createSession_registers_before_ready (sessionName resumeSessionId
          : option jsstring) (now : Z) (waits : list Z) (w : World) :
  (forall args, tmux E (length (tmuxLog w)) args <> None) ->
  (forall args, tmux E (S (length (tmuxLog w))) args <> None) ->
  let w' := snd (createSession E sessionName resumeSessionId now waits w) in
  exists s,
    currentSession w' = Some s
    /\ (forall n, sessionName = Some n -> n <> [] -> Bridge.sessionName s = n)
    /\ createdBy s = telegram /\ isOwned s = true
    /\ markedForExit s = false /\ lastActivity s = now
    /\ sessionFile w' = <[Bridge.sessionName s := metadataOf s]> (sessionFile w)
    /\ lockFile w' = lockFile w.
Proof.
  intros H1 H2 w'. subst w'. unfold createSession.
  set (name := match sessionName with Some n => _ | None => _ end).
  set (cmd := match resumeSessionId with Some r => _ | None => _ end).
  unfold executeTmux.
  destruct (tmux E (length (tmuxLog w)) _) eqn:Ht1; [|exfalso; eapply H1; eauto].
  cbn [tmuxLog set_tmuxLog].
  rewrite length_app. cbn [length]. rewrite Nat.add_1_r.
  destruct (tmux E (S (length (tmuxLog w))) _) eqn:Ht2;
    [|exfalso; eapply H2; eauto].
  set (session := mkSession name _ _ _ _ _ _ _ _ _).
  set (w3 := saveSessionMetadata _).
  destruct (waitForPrompt_state E now waits w3) as (Hc & Hs & Hl).
  exists session.
  assert (Hgoal : currentSession (snd (waitForPrompt E now waits w3)) = Some session
          /\ sessionFile (snd (waitForPrompt E now waits w3))
             = <[name := metadataOf session]> (sessionFile w)
          /\ lockFile (snd (waitForPrompt E now waits w3)) = lockFile w).
  { rewrite Hc, Hs, Hl. unfold w3, saveSessionMetadata. cbn. auto. }
  destruct Hgoal as (G1 & G2 & G3).
  assert (Hname : forall n, sessionName = Some n -> n <> [] -> name = n).
  { intros n -> Hn. unfold name. destruct n; [congruence | reflexivity]. }
  destruct (waitForPrompt E now waits w3) as [[[[]|f]|[]] w4]; cbn [snd] in *.
  all: split; [exact G1|]; split; [exact Hname|].
  all: repeat (split; [reflexivity|]).
  all: split; [exact G2 | exact G3].
Qed.

End StatusFacts.

(** ** Session summaries *)

Section SummaryFacts.
Import Re PATTERNS Bridge.
Variable E : Env.

Lemma len_app (a b : jsstring) : Js.len (a ++ b) = Js.len a + Js.len b.
Proof. unfold Js.len. rewrite length_app. lia. Qed.

(** A preview of a text cut to [n] units and an ellipsis is never
    longer than [n + 3] units. *)
Lemma preview_length (n : nat) (s : jsstring) :
  Js.len (if Js.len s >? Z.of_nat n + 3
          then take n s ++ Js.lit "..." else s) <= Z.of_nat n + 3.
Proof.
  destruct (Z.gtb_spec (Js.len s) (Z.of_nat n + 3)) as [H|H]; [|exact H].
  rewrite len_app. unfold Js.len in *. rewrite length_take.
  change (length (Js.lit "...")) with 3%nat. lia.
Qed.

(** X21. A session summary is short enough for a one-line label: it is
    never empty and never longer than 55 code units, whatever the pane
    holds and whether or not the capture succeeds. *)
Theorem getSessionSummary_is_short (name : jsstring) (w : World) :
  0 < Js.len (fst (getSessionSummary E name w)) <= 55.
Proof.
  unfold getSessionSummary.
  destruct (capturePaneByName E name 50 w) as [raw w1]. cbn [fst].
  unfold summaryOf. destruct (Js.truthy raw); cbn [negb].
  2:{ vm_compute. split; [reflexivity | discriminate]. }
  destruct (fold_left summaryLine _ _) as [lastInput lastResponse].
  destruct lastInput as [|c lastInput].
  { vm_compute. split; [reflexivity | discriminate]. }
  cbn [Js.truthy]. set (i := c :: lastInput).
  pose proof (preview_length 17 i) as Hi.
  pose proof (preview_length 22 lastResponse) as Hr.
  change (Z.of_nat 17 + 3) with 20 in Hi.
  change (Z.of_nat 22 + 3) with 25 in Hr.
  rewrite !len_app.
  change (Js.len SUMMARY_HEAD) with 5. change (Js.len SUMMARY_ARROW) with 5.
  assert (Hi0 : 0 < Js.len (if Js.len i >? 20
                            then take 17 i ++ Js.lit "..." else i)).
  { destruct (Js.len i >? 20).
    - rewrite len_app. change (Js.len (Js.lit "...")) with 3.
      unfold Js.len. lia.
    - unfold i, Js.len. cbn [length]. lia. }
  destruct (Js.truthy lastResponse).
  - assert (0 <= Js.len (if Js.len lastResponse >? 25
                         then take 22 lastResponse ++ Js.lit "..."
                         else lastResponse)) by (unfold Js.len; lia).
    lia.
  - change (Js.len (Js.lit "...")) with 3. lia.
Qed.

(** Greedy iteration with a continuation that always accepts. *)
Lemma star_greedy (p : N -> bool) (prev : option N) (s : jsstring) :
  star p (fun _ rest => Some rest) prev s = Some (Js.dropWhile p s).
Proof.
  revert prev. induction s as [|c s IH]; intros prev; cbn [star Js.dropWhile].
  - reflexivity.
  - destruct (p c); [rewrite IH|]; reflexivity.
Qed.

(** Iteration succeeds when its continuation accepts right away. *)
Lemma star_accepts {A} (p : N -> bool) (k : @cont A) prev (s : jsstring) r :
  k prev s = Some r -> exists r', star p k prev s = Some r'.
Proof.
  intros Hk. destruct s as [|c s]; cbn [star]; [eauto|].
  destruct (p c); [|eauto].
  destruct (star p k (Some c) s); eauto.
Qed.

Lemma isSpace_space : Js.isSpace 0x20%N = true.
Proof. reflexivity. Qed.

(** A literal at the head of the text is consumed unit by unit. *)
Lemma run_units {A} (mark : jsstring) (k : @cont A) prev (s : jsstring) :
  run (units mark) k prev (mark ++ s)
  = k (fold_left (fun _ c => Some c) mark prev) s.
Proof.
  revert prev. induction mark as [|c mark IH]; intros prev; [reflexivity|].
  cbn [units run chr app fold_left]. rewrite N.eqb_refl. apply IH.
Qed.

(** A line made of the mark, a space and a text that begins with a
    unit other than a line terminator matches [/^mark\s+.+/]. *)
Lemma marker_line_matches (mark : jsstring) (c : N) (rest : jsstring) :
  dot c = true ->
  test (seqs [Bol false; units mark; plus Js.isSpace; plus dot])
       (mark ++ 0x20%N :: c :: rest) = true.
Proof.
  intros Hc. unfold test.
  assert (H : exists r,
    run (seqs [Bol false; units mark; plus Js.isSpace; plus dot])
        (fun _ _ => Some tt) None (mark ++ 0x20%N :: c :: rest) = Some r).
  { cbn [seqs run atBol]. rewrite run_units. cbn [run plus].
    rewrite isSpace_space.
    destruct (star_accepts (A := unit) dot (fun _ _ => Some tt)
                           (Some c) rest tt eq_refl) as [r Hr].
    apply (star_accepts Js.isSpace _ _ _ r). cbn [run]. rewrite Hc.
    exact Hr. }
  destruct H as [[] H]. destruct (mark ++ 0x20%N :: c :: rest);
    cbn [search]; rewrite H; reflexivity.
Qed.

Lemma stripMarker_line (mark : jsstring) (text : jsstring) :
  stripMarker mark (mark ++ 0x20%N :: text) = Js.dropWhile Js.isSpace text.
Proof.
  unfold stripMarker. cbn [seqs run atBol]. rewrite run_units. cbn [run plus].
  rewrite isSpace_space, star_greedy. reflexivity.
Qed.

Lemma dropWhile_idem (p : N -> bool) (s : jsstring) :
  Js.dropWhile p (Js.dropWhile p s) = Js.dropWhile p s.
Proof.
  induction s as [|c s IH]; cbn [Js.dropWhile]; [reflexivity|].
  destruct (p c) eqn:Hc; [exact IH|]. cbn [Js.dropWhile]. rewrite Hc. reflexivity.
Qed.

Lemma trim_stripMarker (mark : jsstring) (text : jsstring) :
  Js.trim (stripMarker mark (mark ++ 0x20%N :: text)) = Js.trim text.
Proof.
  rewrite stripMarker_line. unfold Js.trim, Js.trimStart.
  rewrite dropWhile_idem. reflexivity.
Qed.

Lemma summary_keeps_input (lines : list jsstring) (i r : jsstring) :
  List.Forall (fun l => test SUMMARY_INPUT l = false) lines ->
  fst (fold_left summaryLine lines (i, r)) = i.
Proof.
  intros H. revert r. induction H as [|l ls Hl _ IH]; intros r; [reflexivity|].
  cbn [fold_left summaryLine]. rewrite Hl. apply IH.
Qed.

Lemma fold_summary_app (a b : list jsstring) acc :
  fold_left summaryLine (a ++ b) acc
  = fold_left summaryLine b (fold_left summaryLine a acc).
Proof. apply fold_left_app. Qed.

(** X22. The summary shows the last input line of the pane: when the
    capture succeeds and its last line of the form prompt mark, space,
    text has a text that is not blank, the summary is the head of the
    template, that text trimmed and cut to 17 units and an ellipsis if
    it is longer than 20, the arrow of the template, and a preview of a
    response. *)
Theorem getSessionSummary_shows_last_input (name : jsstring) (w : World)
        (raw : jsstring) (before after : list jsstring) (c : N)
        (rest : jsstring) :
  fst (capturePaneByName E name 50 w) = raw ->
  Js.split 0x0A raw = before ++ (PROMPT_MARK ++ 0x20%N :: c :: rest) :: after ->
  dot c = true ->
  Js.trim (c :: rest) <> [] ->
  List.Forall (fun l => test SUMMARY_INPUT l = false) after ->
  exists responsePreview,
    fst (getSessionSummary E name w)
    = SUMMARY_HEAD
        ++ (if Js.len (Js.trim (c :: rest)) >? 20
            then take 17 (Js.trim (c :: rest)) ++ Js.lit "..."
            else Js.trim (c :: rest))
        ++ SUMMARY_ARROW ++ responsePreview.
Proof.
  intros Hraw Hsplit Hc Htext Hafter. unfold getSessionSummary.
  destruct (capturePaneByName E name 50 w) as [raw' w1]. cbn [fst] in *.
  subst raw'. unfold summaryOf.
  destruct raw as [|x raw0] eqn:Hr.
  { cbn in Hsplit. destruct before as [|? [|? ?]]; discriminate. }
  cbn [Js.truthy negb]. rewrite Hsplit, fold_summary_app. cbn [fold_left].
  destruct (fold_left summaryLine before ([], [])) as [i0 r0].
  cbn [summaryLine].
  change (test SUMMARY_INPUT (PROMPT_MARK ++ 0x20%N :: c :: rest))
    with (test (seqs [Bol false; units PROMPT_MARK; plus Js.isSpace; plus dot])
               (PROMPT_MARK ++ 0x20%N :: c :: rest)).
  rewrite (marker_line_matches PROMPT_MARK c rest Hc), trim_stripMarker.
  set (r1 := if test SUMMARY_RESPONSE _ then _ else r0).
  pose proof (summary_keeps_input after (Js.trim (c :: rest)) r1 Hafter) as Hk.
  destruct (fold_left summaryLine after _) as [i r]. cbn [fst] in Hk. subst i.
  destruct (Js.trim (c :: rest)) as [|t ts] eqn:Ht; [congruence|].
  cbn [Js.truthy]. eexists. reflexivity.
Qed.

End SummaryFacts.

(** ** The CLI activity watcher *)

Section WatcherFacts.
Import Re PATTERNS Bridge.
Variable E : Env.

Lemma existsb_eqb_in (x : jsstring) (l : list jsstring) :
  In x l -> existsb (Js.eqb x) l = true.
Proof.
  intros H. apply existsb_exists. exists x. split; [exact H | apply js_eqb_refl].
Qed.

(** Lines that are blank or already known leave the accumulator of the
    watcher alone as long as no new response has begun. *)
Lemma watchLines_known (oldLines lines : list jsstring) (out : list jsstring) :
  List.Forall (fun line => Js.trim line = [] \/ In (Js.trim line) oldLines)
              lines ->
  fold_left (watchLine oldLines) lines (false, out) = (false, out).
Proof.
  induction 1 as [|l ls Hl _ IH]; [reflexivity|].
  cbn [fold_left]. replace (watchLine oldLines (false, out) l) with (false, out);
    [exact IH|].
  unfold watchLine. destruct Hl as [->|Hin]; [reflexivity|].
  destruct (Js.trim l) eqn:Ht; [reflexivity|]. cbn [Js.truthy negb].
  rewrite (existsb_eqb_in _ _ Hin). reflexivity.
Qed.

(** X23. The watcher does not report what it has seen: when every
    line of the captured pane is blank or equal, up to surrounding white
    space, to a line of the last known content, the callback is not
    called, and the captured pane becomes the last known content. *)
Theorem cliWatcherTick_silent_on_known_lines (hasCallback : bool) (w : World)
        (paneContent : jsstring) :
  fst (capturePane E w) = Ok paneContent ->
  forallb
    (fun line =>
       negb (Js.truthy (Js.trim line))
       || existsb (Js.eqb (Js.trim line))
                  (map Js.trim (Js.split 0x0A (lastKnownPaneContent w))))
    (Js.split 0x0A paneContent) = true ->
  currentSession w <> None -> pollAbortController w = false ->
  fst (cliWatcherTick E hasCallback w) = None
  /\ lastKnownPaneContent (snd (cliWatcherTick E hasCallback w)) = paneContent.
Proof.
  intros Hcap Hknown Hcur Hpoll. unfold cliWatcherTick. rewrite Hpoll.
  destruct (currentSession w) as [s|] eqn:Hs; [|congruence].
  assert (Hlast : lastKnownPaneContent (snd (capturePane E w))
                  = lastKnownPaneContent w).
  { unfold capturePane, executeTmux. rewrite Hs.
    destruct (tmux E _ _); reflexivity. }
  destruct (capturePane E w) as [[pane|f] w1]; cbn [fst snd] in *;
    [|discriminate]. injection Hcap as ->.
  destruct (Js.eqb paneContent (lastKnownPaneContent w1)) eqn:Heq.
  { cbn [fst snd]. split; [reflexivity|].
    symmetry. apply js_eqb_eq. exact Heq. }
  assert (Hnone : newResponseLines (lastKnownPaneContent w1) paneContent = []).
  { unfold newResponseLines. rewrite watchLines_known; [reflexivity|].
    rewrite Hlast. apply List.Forall_forall. intros line Hline.
    rewrite forallb_forall in Hknown. specialize (Hknown line Hline).
    destruct (Js.trim line) as [|c t] eqn:Hl; [left; reflexivity|]. right.
    cbn [Js.truthy negb orb] in Hknown.
    apply existsb_exists in Hknown as (k & Hk & Hkeq).
    apply js_eqb_eq in Hkeq. subst k.
    apply filter_In. split; [exact Hk | reflexivity]. }
  rewrite Hnone. cbn. auto.
Qed.

(** A pattern anchored at the start of the text does not match later. *)
Lemma search_anchored {A} (r : re) (k : @cont A) (c : N) (s : jsstring) :
  search (Seq (Bol false) r) k (Some c) s = None.
Proof.
  revert c. induction s as [|x s IH]; intros c; cbn [search run atBol];
    [reflexivity | apply IH].
Qed.

(** A literal matches only a text that begins with it. *)
Lemma run_units_head {A} (mark : jsstring) (k : @cont A) prev (s : jsstring) x :
  run (units mark) k prev s = Some x -> exists rest, s = mark ++ rest.
Proof.
  revert prev s. induction mark as [|c mark IH]; intros prev s; [eauto|].
  cbn [units run chr]. destruct s as [|d s]; [discriminate|].
  destruct (N.eqb_spec c d) as [->|Hne]; [|discriminate].
  intros H. destruct (IH _ _ H) as [rest ->]. eauto.
Qed.

Lemma anchored_mark_head {A} (mark : jsstring) (r : re) (k : @cont A)
      (line : jsstring) x :
  search (Seq (Bol false) (Seq (units mark) r)) k None line = Some x ->
  exists rest, line = mark ++ rest.
Proof.
  destruct line as [|c rest].
  - cbn [search run atBol]. intros H.
    destruct (run (units mark) (run r k) None []) eqn:Hr; [|discriminate].
    eapply run_units_head. exact Hr.
  - cbn [search run atBol].
    destruct (run (units mark) (run r k) None (c :: rest)) eqn:Hr.
    + intros _. eapply run_units_head. exact Hr.
    + rewrite search_anchored. discriminate.
Qed.

Lemma response_line_head (line : jsstring) :
  test WATCH_RESPONSE line = true -> exists rest, line = RESPONSE_MARK ++ rest.
Proof.
  unfold test, WATCH_RESPONSE. cbn [seqs].
  destruct (search _ _ None line) as [x|] eqn:Hs; [|discriminate].
  intros _. eapply anchored_mark_head. exact Hs.
Qed.

(** Trimming keeps the response mark at the head of a line. *)
Lemma trim_keeps_mark (rest : jsstring) :
  exists rest', Js.trim (RESPONSE_MARK ++ rest) = RESPONSE_MARK ++ rest'.
Proof. exact (trim_app RESPONSE_MARK rest). Qed.

Lemma watchLine_headed oldLines acc line :
  (fst acc = true -> snd acc <> []) /\ headed (snd acc) ->
  (fst (watchLine oldLines acc line) = true
   -> snd (watchLine oldLines acc line) <> [])
  /\ headed (snd (watchLine oldLines acc line)).
Proof.
  destruct acc as [b out]. cbn [fst snd]. intros [Hb Hh]. unfold watchLine.
  destruct (negb (Js.truthy (Js.trim line))); [split; assumption|].
  destruct (existsb _ _ && negb b); [split; assumption|].
  destruct (test WATCH_RESPONSE line) eqn:Hr.
  - cbn [fst snd]. split; [intros _; destruct out; discriminate|].
    destruct out as [|l out]; [|exact Hh]. cbn.
    destruct (response_line_head line Hr) as [rest ->].
    apply trim_keeps_mark.
  - destruct b; [|split; assumption].
    destruct (test WATCH_PROMPT line); cbn [fst snd].
    + split; [discriminate | exact Hh].
    + split; [intros _; destruct out; discriminate|].
      destruct out as [|l out]; [exfalso; apply Hb; reflexivity | exact Hh].
Qed.

Lemma watchLines_headed oldLines lines acc :
  (fst acc = true -> snd acc <> []) /\ headed (snd acc) ->
  headed (snd (fold_left (watchLine oldLines) lines acc)).
Proof.
  revert acc. induction lines as [|l ls IH]; intros acc H; cbn [fold_left].
  - apply H.
  - apply IH. apply watchLine_headed. exact H.
Qed.

(** X24. What the watcher reports begins at a response mark: when
    the callback is called, no reply is being polled for, the content
    passed begins with the three-unit response mark of the bridge, and
    the last known content has changed. *)
Theorem cliWatcherTick_reports_from_response_marker (hasCallback : bool)
        (w : World) (content : jsstring) :
  fst (cliWatcherTick E hasCallback w) = Some content ->
  pollAbortController w = false
  /\ hasCallback = true
  /\ (exists rest, content = RESPONSE_MARK ++ rest)
  /\ lastKnownPaneContent (snd (cliWatcherTick E hasCallback w))
     <> lastKnownPaneContent w.
Proof.
  unfold cliWatcherTick.
  destruct (pollAbortController w); [discriminate|].
  destruct (currentSession w) as [s|] eqn:Hs; [|discriminate].
  assert (Hlast : lastKnownPaneContent (snd (capturePane E w))
                  = lastKnownPaneContent w).
  { unfold capturePane, executeTmux. rewrite Hs.
    destruct (tmux E _ _); reflexivity. }
  destruct (capturePane E w) as [[pane|f] w1]; cbn [fst snd] in *;
    [|discriminate].
  destruct (Js.eqb pane (lastKnownPaneContent w1)) eqn:Heq; [discriminate|].
  pose proof (watchLines_headed
                (List.filter Js.truthy
                   (map Js.trim (Js.split 0x0A (lastKnownPaneContent w1))))
                (Js.split 0x0A pane) (false, [])) as Hh.
  fold (newResponseLines (lastKnownPaneContent w1) pane) in Hh.
  destruct (newResponseLines (lastKnownPaneContent w1) pane) as [|l ls];
    [discriminate|].
  destruct hasCallback; [|rewrite andb_false_r; discriminate].
  cbn [andb fst snd]. 
  destruct (0 <? Z.of_nat (length (l :: ls))); [|discriminate].
  intros [= <-]. split; [reflexivity|]. split; [reflexivity|]. split.
  - destruct Hh as [rest ->]; [cbn; split; [discriminate | exact I]|].
    destruct ls as [|l2 ls]; cbn [Js.join]; [eauto|].
    rewrite <- app_assoc. eauto.
  - cbn. rewrite <- Hlast. intros ->. rewrite js_eqb_refl in Heq. discriminate.
Qed.

End WatcherFacts.

(** ** Worked instances *)

Section FurtherWitnesses.
Import Parser Bridge.

(** A text without escapes or carriage returns. *)
Lemma cleanOutput_keeps_plain_text_witness :
  Sanitizer.cleanOutput (Js.lit "ab" ++ LF ++ Js.lit "c")
  = Js.lit "ab" ++ LF ++ Js.lit "c".
Proof.
  apply (cleanOutput_keeps_plain_text (Js.lit "ab" ++ LF ++ Js.lit "c"));
    reflexivity.
Defined.

(** The colour sequence ESC [ 3 1 m between two letters. *)
Lemma stripAnsi_removes_csi_witness :
  Sanitizer.stripAnsi (Js.lit "a" ++ [0x1B; 0x5B]%N ++ Js.lit "31"
                         ++ 0x6D%N :: Js.lit "b")
  = Js.lit "a" ++ Sanitizer.stripAnsi (Js.lit "b").
Proof.
  apply (stripAnsi_removes_csi (Js.lit "a") (Js.lit "31") (Js.lit "b") 0x6D%N);
    reflexivity.
Defined.

(** Two lines of spaces. *)
Lemma feed_ignores_blank_screen_witness :
  blank (Sanitizer.cleanOutput [0x20; 0x0A; 0x20]%N)
  /\ snd (feed 5 [0x20; 0x0A; 0x20]%N fresh) = [].
Proof.
  assert (H : blank (Sanitizer.cleanOutput [0x20; 0x0A; 0x20]%N)).
  { vm_compute. repeat constructor. }
  split; [exact H|].
  exact (proj1 (feed_ignores_blank_screen 5 [0x20; 0x0A; 0x20]%N fresh H)).
Defined.

(** Releasing on a bridge that holds no lock. *)
Lemma releaseLock_idempotent_witness :
  releaseLock (Js.lit "main") newBridge = newBridge.
Proof.
  apply (proj1 (releaseLock_idempotent (Js.lit "main") newBridge)).
  reflexivity.
Defined.

(** A lock taken at 0 with a timeout of 60000 ms: refused at 59999. *)
Lemma acquireLock_excludes_until_expiry_witness :
  acquireLock quietEnv (Js.lit "main") 59999
              (snd (acquireLock quietEnv (Js.lit "main") 0 newBridge))
  = (None, snd (acquireLock quietEnv (Js.lit "main") 0 newBridge)).
Proof.
  apply (proj1 (acquireLock_excludes_until_expiry quietEnv (Js.lit "main")
                  0 59999 newBridge
                  (mkLock (Js.lit "main") 0 60000 (Js.lit "telegram-bot"))
                  eq_refl)).
  reflexivity.
Defined.

(** Releasing the attached CLI session. *)
Lemma markForExit_marks_own_sessions_only_witness :
  currentSession (markForExit 7 attached) = None
  /\ tmuxLog (markForExit 7 attached) = tmuxLog attached.
Proof.
  destruct (markForExit_marks_own_sessions_only 7 attached
              (mkSession (Js.lit "main") (Js.lit "0") (Js.lit "0")
                         (Js.lit "/work") true cli true false None 0)
              eq_refl) as (H1 & H2 & _).
  split; [exact H1 | exact H2].
Defined.

(** The timer of a session whose saved metadata is not marked. *)
Lemma cleanupSession_spares_unmarked_witness :
  sessionFile (cleanupSession quietEnv (Js.lit "main") 9
                 (saveSessionMetadata attached))
  = sessionFile (saveSessionMetadata attached).
Proof.
  destruct (cleanupSession_spares_unmarked quietEnv (Js.lit "main") 9
              (saveSessionMetadata attached)) as (_ & H & _).
  - vm_compute. reflexivity.
  - exact H.
Defined.

(** A session that is locked until 60000. *)
Lemma sendMessage_fails_fast_witness :
  let w := set_lockFile attached
             {[ Js.lit "main" := mkLock (Js.lit "main") 0 60000
                                        (Js.lit "telegram-bot") ]} in
  sendMessage quietEnv (Js.lit "hi") clock0 [] w
  = (Finished (Throw LockBusy), w).
Proof.
  intros w.
  apply (proj2 (sendMessage_fails_fast quietEnv (Js.lit "hi") clock0 [] w)
               (mkSession (Js.lit "main") (Js.lit "0") (Js.lit "0")
                          (Js.lit "/work") true cli true false None 0)).
  - reflexivity.
  - exists (mkLock (Js.lit "main") 0 60000 (Js.lit "telegram-bot")).
    split; [vm_compute; reflexivity | reflexivity].
Defined.

(** A turn that ends with a reply: its one tick waits 2000 ms. *)
Lemma sendMessage_reply_needs_stable_tick_witness :
  Exists (fun t => 2000 <= tickCheckNow t - tickFeedNow t)
         [mkTick 100 false 1000 3000].
Proof.
  apply (sendMessage_reply_needs_stable_tick (scriptedEnv [seen1])
           (Js.lit "hi") clock0 [mkTick 100 false 1000 3000] attached
           (snd (sendMessage (scriptedEnv [seen1]) (Js.lit "hi") clock0
                   [mkTick 100 false 1000 3000] attached))
           (markedLine "first")).
  vm_compute. reflexivity.
Defined.

(** Three polls of a pane that shows the prompt and does not change. *)
Lemma pollLoop_quiet_pane_keeps_running_witness :
  let ps := mkPoll fresh [PATTERNS.PROMPT_GLYPH] true true [] in
  let ticks := [mkTick 100 false 100 100; mkTick 5000 false 5000 5000;
                mkTick 9000 false 9000 9000] in
  fst (pollLoop quietEnv 0 (Js.lit "hi") ticks ps attached) = Running ps.
Proof.
  intros ps ticks.
  apply (pollLoop_quiet_pane_keeps_running quietEnv 0 (Js.lit "hi")
           [PATTERNS.PROMPT_GLYPH] ticks ps attached
           (mkSession (Js.lit "main") (Js.lit "0") (Js.lit "0")
                      (Js.lit "/work") true cli true false None 0)).
  - reflexivity.
  - intros n args. reflexivity.
  - reflexivity.
  - repeat constructor; cbn; lia.
Defined.

(** The message at the end of the capture. *)
Lemma extractNewContent_after_last_anchor_witness :
  extractNewContent (Js.lit "hi") (Js.lit "> " ++ Js.lit "hi" ++ [])
                    (mkPoll fresh [] false false [])
  = (mkPoll fresh [] false false [], []).
Proof.
  apply (extractNewContent_after_last_anchor (Js.lit "hi") (Js.lit "> ") []
           (mkPoll fresh [] false false [])).
  - discriminate.
  - intros j Hj. apply occursAt_length in Hj.
    change (j + 2 <= 4)%nat in Hj. change (j <= 2)%nat. lia.
Defined.

(** A turn that ends with a reply, seen through [getStatus]. *)
Lemma getStatus_tracks_sendMessage_witness :
  let w' := snd (sendMessage (scriptedEnv [seen1]) (Js.lit "hi") clock0
                   [mkTick 100 false 1000 3000] attached) in
  statusIsResponding (getStatus w') = false /\ statusLock (getStatus w') = None.
Proof.
  intros w'.
  assert (Hfree : ~ lockHeld attached (Js.lit "main") 10).
  { intros (l & Hl & _). discriminate. }
  apply (getStatus_tracks_sendMessage (scriptedEnv [seen1]) (Js.lit "hi")
           clock0 [mkTick 100 false 1000 3000] attached w'
           (mkSession (Js.lit "main") (Js.lit "0") (Js.lit "0")
                      (Js.lit "/work") true cli true false None 0)
           (Finished (Ok (markedLine "first")))).
  - reflexivity.
  - exact Hfree.
  - reflexivity.
  - vm_compute. reflexivity.
Defined.

(** A creation whose readiness loop is still waiting. *)
Lemma createSession_registers_before_ready_witness :
  exists s,
    currentSession (snd (createSession quietEnv (Some (Js.lit "dev")) None 5 []
                           newBridge)) = Some s
    /\ sessionName s = Js.lit "dev" /\ isOwned s = true.
Proof.
  destruct (createSession_registers_before_ready quietEnv (Some (Js.lit "dev"))
              None 5 [] newBridge) as (s & Hc & Hn & _ & Ho & _).
  - intros args. discriminate.
  - intros args. discriminate.
  - exists s. split; [exact Hc|]. split; [|exact Ho].
    apply Hn; [reflexivity | discriminate].
Defined.

(** A pane whose last input line reads hi, under the prompt mark. *)
Lemma getSessionSummary_shows_last_input_witness :
  let pane := PROMPT_MARK ++ Js.lit " hi" ++ LF ++ markedLine "first" in
  exists responsePreview,
    fst (getSessionSummary (scriptedEnv [pane]) (Js.lit "main") newBridge)
    = SUMMARY_HEAD ++ Js.lit "hi" ++ SUMMARY_ARROW ++ responsePreview.
Proof.
  intros pane.
  destruct (getSessionSummary_shows_last_input (scriptedEnv [pane])
              (Js.lit "main") newBridge pane []
              [markedLine "first"] 0x68%N (Js.lit "i"))
    as [r Hr].
  - reflexivity.
  - reflexivity.
  - reflexivity.
  - discriminate.
  - repeat constructor.
  - exists r. exact Hr.
Defined.

(** A capture that shows fewer lines than the last known content. *)
Lemma cliWatcherTick_silent_on_known_lines_witness :
  let w := set_lastKnownPaneContent attached pane2 in
  fst (cliWatcherTick (scriptedEnv [pane1]) true w) = None
  /\ lastKnownPaneContent (snd (cliWatcherTick (scriptedEnv [pane1]) true w))
     = pane1.
Proof.
  intros w.
  apply (cliWatcherTick_silent_on_known_lines (scriptedEnv [pane1]) true w pane1).
  - reflexivity.
  - vm_compute. reflexivity.
  - discriminate.
  - reflexivity.
Defined.

(** A second answer, under the response mark, typed at the terminal. *)
Lemma cliWatcherTick_reports_from_response_marker_witness :
  let w := set_lastKnownPaneContent attached seen1 in
  let pane := seen1 ++ LF ++ markedLine "second" in
  fst (cliWatcherTick (scriptedEnv [pane]) true w)
  = Some (markedLine "second")
  /\ exists rest, markedLine "second" = RESPONSE_MARK ++ rest.
Proof.
  intros w pane.
  assert (H : fst (cliWatcherTick (scriptedEnv [pane]) true w)
              = Some (markedLine "second")).
  { vm_compute. reflexivity. }
  split; [exact H|].
  destruct (cliWatcherTick_reports_from_response_marker (scriptedEnv [pane])
              true w (markedLine "second") H) as (_ & _ & Hhead & _).
  exact Hhead.
Defined.

(** A listing on a machine without a tmux server. *)
Lemma listSessions_joins_metadata_witness :
  fst (listSessions (failingEnv 0 []) 0 newBridge) = [].
Proof.
  apply (proj2 (proj2 (listSessions_joins_metadata (failingEnv 0 []) 0
                         newBridge))).
  reflexivity.
Defined.

(** Killing the attached session after its metadata was saved. *)
Lemma killSession_removes_only_target_witness :
  sessionFile (killSession quietEnv (Js.lit "main")
                 (saveSessionMetadata attached)) !! Js.lit "main" = None.
Proof.
  destruct (proj2 (proj2 (proj2 (killSession_removes_only_target quietEnv
                                   (Js.lit "main")
                                   (saveSessionMetadata attached)))))
    as (H & _).
  - discriminate.
  - exact H.
Defined.

End FurtherWitnesses.
